(** * Itinerary recalculation engine of app.js

    A shallow embedding of the engine [useItineraryCalculation] and of the
    helpers it calls ([timeToMinutes], [minutesToTimeStr],
    [parseStayDuration], [getDistanceFromLatLonInKm]), and of the state
    of [App] around the engine (the handlers of the override maps, the
    ticket counts, the expenses and their totals), followed by the
    properties established about them.  The engine is written a second
    time on a store of objects, where what it reads, allocates and writes
    is explicit.

    JavaScript numbers are IEEE-754 binary64 values: they are represented
    by [spec_float] at precision 53 and maximal exponent 1024, so that the
    roundings of the source ([dist / speed * 60], [parseFloat(s) * 60])
    are those of the program: a walk of 4.1 km takes 61 minutes, where
    exact arithmetic would give 62.  Strings are sequences of 8-bit code
    units.  The override maps are finite maps from strings to strings; a
    key is looked up among the entries only, so a key is assumed not to
    name a property that a JavaScript object inherits. *)

From Stdlib Require Import ZArith QArith Qround String Ascii List Bool Lia.
From Stdlib Require Import Floats.SpecFloat.
From stdpp Require Import gmap strings pretty sorting.

Open Scope Z_scope.

(** * The JavaScript built-ins used by the engine

    Arithmetic is that of [SpecFloat].  [Math.floor], [Math.round] and [%]
    have exact results, computed on the mantissa; [toString], [toFixed]
    and the conversions from strings follow the ECMAScript algorithms on
    exact rationals.  White space is the white space among the code units
    below 256. *)

Module JS.

Abbreviation number := spec_float.

Definition prec : Z := 53.
Definition emax : Z := 1024.

Definition nan : number := S754_nan.
Definition ofZ (z : Z) : number := binary_normalize prec emax z 0 false.
Definition add : number -> number -> number := SFadd prec emax.
Definition sub : number -> number -> number := SFsub prec emax.
Definition mul : number -> number -> number := SFmul prec emax.
Definition div : number -> number -> number := SFdiv prec emax.
Definition gt (x y : number) : bool := SFltb y x.

(** [ratio s p q] is the double nearest to [(-1)^s * p / q]. *)
Definition ratio (s : bool) (p q : positive) : number :=
  let '(m, e, l) := SFdiv_core_binary prec emax (Zpos p) 0 (Zpos q) 0 in
  binary_round_aux prec emax s m e l.

(** A finite number is [(-1)^s * m * 2^e]; with [e >= 0] it is an
    integer, otherwise its floor is the shift of the signed mantissa. *)
Definition Math_floor (x : number) : number :=
  match x with
  | S754_finite s m e =>
      if 0 <=? e then x
      else binary_normalize prec emax (Z.shiftr (cond_Zopp s (Zpos m)) (- e)) 0 s
  | _ => x
  end.

(** [Math.round]: the nearest integer, a tie going up; [-0] for a
    negative number that rounds to zero. *)
Definition Math_round (x : number) : number :=
  match x with
  | S754_finite s m e =>
      if 0 <=? e then x
      else binary_normalize prec emax
             (Z.shiftr (2 * cond_Zopp s (Zpos m) + 2 ^ (- e)) (1 - e)) 0 s
  | _ => x
  end.

(** [x % y]: the remainder of the truncated quotient, with the sign of
    [x]. *)
Definition rem (x y : number) : number :=
  match x, y with
  | S754_nan, _ | _, S754_nan => nan
  | S754_infinity _, _ => nan
  | _, S754_zero _ => nan
  | S754_zero _, _ => x
  | _, S754_infinity _ => x
  | S754_finite sx mx ex, S754_finite _ my ey =>
      let e := Z.min ex ey in
      let r := (Zpos mx * 2 ^ (ex - e)) mod (Zpos my * 2 ^ (ey - e)) in
      binary_normalize prec emax (cond_Zopp sx r) e sx
  end.

(** ** Number::toString (radix 10)

    The digits are the shortest that read back as the number, found by
    trying one digit, two digits, and so on. *)

Definition pow10 (p : Z) : Q :=
  if 0 <=? p then inject_Z (10 ^ p) else 1 # Z.to_pos (10 ^ (- p)).

Definition pow2 (p : Z) : Q :=
  if 0 <=? p then inject_Z (2 ^ p) else 1 # Z.to_pos (2 ^ (- p)).

Definition valueQ (m : positive) (e : Z) : Q := (inject_Z (Zpos m) * pow2 e)%Q.

(** The reals that round to [m * 2^e] form an interval around it; its
    end points belong to it when [m] is even. *)
Definition roundsTo (m : positive) (e : Z) (x : Q) : bool :=
  let v := valueQ m e in
  let up := pow2 (e - 1) in
  let down := if (Pos.eqb m (2 ^ 52)) && (-1074 <? e) then pow2 (e - 2) else up in
  let lo := (v - down)%Q in
  let hi := (v + up)%Q in
  if Z.even (Zpos m) then Qle_bool lo x && Qle_bool x hi
  else negb (Qle_bool x lo) && negb (Qle_bool hi x).

(** [n] with [10^(n-1) <= v < 10^n]. *)
Definition decimalExponent (v : Q) : Z :=
  let guess := (Z.log2 (Qnum v) - Z.log2 (Zpos (Qden v))) * 30103 / 100000 in
  let fix up (fuel : nat) (n : Z) :=
    match fuel with
    | O => n
    | S fuel' => if Qle_bool (pow10 n) v then up fuel' (n + 1) else n
    end in
  let fix down (fuel : nat) (n : Z) :=
    match fuel with
    | O => n
    | S fuel' => if Qle_bool (pow10 (n - 1)) v then n else down fuel' (n - 1)
    end in
  up 4%nat (down 4%nat guess).

Definition Qabs_diff (x y : Q) : Q := if Qle_bool x y then (y - x)%Q else (x - y)%Q.

(** Shortest digits: the least [k] for which some [s] of [k] digits has
    [s * 10^(n-k)] rounding to the number; among those the closest. *)
Fixpoint shortest (fuel : nat) (m : positive) (e : Z) (n k : Z) : Z * Z :=
  let v := valueQ m e in
  let scale := pow10 (n - k) in
  let lo := Qfloor (v / scale) in
  let hi := lo + 1 in
  let xlo := (inject_Z lo * scale)%Q in
  let xhi := (inject_Z hi * scale)%Q in
  let pick (s : Z) := if s =? 10 ^ k then (s / 10, n + 1) else (s, n) in
  match roundsTo m e xlo, roundsTo m e xhi with
  | true, true =>
      let dlo := Qabs_diff xlo v in
      let dhi := Qabs_diff xhi v in
      if Qeq_bool dlo dhi then pick (if Z.even lo then lo else hi)
      else if Qle_bool dlo dhi then pick lo else pick hi
  | true, false => pick lo
  | false, true => pick hi
  | false, false =>
      match fuel with
      | O => pick lo
      | S fuel' => shortest fuel' m e n (k + 1)
      end
  end.

Definition digitsOf (s : Z) : string := pretty (Z.to_N s).

Fixpoint zeros (n : nat) : string :=
  match n with O => "" | S n' => String "0" (zeros n') end.

Definition substring_to (n : nat) (s : string) : string := substring 0 n s.
Definition substring_from (n : nat) (s : string) : string :=
  substring n (String.length s - n) s.

Definition toStringSearch (m : positive) (e : Z) : string :=
  let n0 := decimalExponent (valueQ m e) in
  let '(s, n) := shortest 20 m e n0 1 in
  let ds := digitsOf s in
  let k := Z.of_nat (String.length ds) in
  if (k <=? n) && (n <=? 21) then ds +:+ zeros (Z.to_nat (n - k))
  else if (0 <? n) && (n <=? 21) then
    substring_to (Z.to_nat n) ds +:+ "." +:+ substring_from (Z.to_nat n) ds
  else if (-6 <? n) && (n <=? 0) then
    "0." +:+ zeros (Z.to_nat (- n)) +:+ ds
  else
    let ex := n - 1 in
    let es := (if 0 <=? ex then "+" else "-") +:+ digitsOf (Z.abs ex) in
    if k =? 1 then ds +:+ "e" +:+ es
    else substring_to 1 ds +:+ "." +:+ substring_from 1 ds +:+ "e" +:+ es.

(** The integer a finite number is, when it is one with a fraction-free
    mantissa: [m * 2^e] with [e <= 0] and the low [-e] bits of [m] zero. *)
Definition integerValue (m : positive) (e : Z) : option Z :=
  if (e <=? 0) && (Zpos m mod 2 ^ (- e) =? 0) then Some (Zpos m / 2 ^ (- e))
  else None.

(** Such an integer lies below [2^53] and prints as its decimal digits,
    which is what the shortest-digits rule gives for it; the other values
    go through the search. *)
Definition toStringPos (m : positive) (e : Z) : string :=
  match integerValue m e with
  | Some n => digitsOf n
  | None => toStringSearch m e
  end.

Definition toString (x : number) : string :=
  match x with
  | S754_nan => "NaN"
  | S754_zero _ => "0"
  | S754_infinity s => (if s then "-" else "") +:+ "Infinity"
  | S754_finite s m e => (if s then "-" else "") +:+ toStringPos m e
  end.

(** ** Number.prototype.toFixed(1)

    The tenths [n] nearest to the number, the larger of two equally near;
    numbers from [10^21] on are written as [toString] writes them. *)
Definition toFixed1 (x : number) : string :=
  match x with
  | S754_finite s m e =>
      if Qle_bool (pow10 21) (valueQ m e) then toString x
      else
        let n := Qfloor (valueQ m e * 10 + (1 # 2))%Q in
        (if s then "-" else "") +:+ digitsOf (n / 10) +:+ "." +:+ digitsOf (n mod 10)
  | S754_zero _ => "0.0"
  | _ => toString x
  end.


(** ** Strings to numbers

    [Number(s)] reads the whole string, [parseFloat(s)] the longest
    prefix that is a decimal literal, [parseInt(s)] the longest prefix of
    digits; each gives NaN when there is nothing to read. *)

Definition isStrWhiteSpaceChar (c : ascii) : bool :=
  match c with
  | "009" | "010" | "011" | "012" | "013" | " " | "160" => true
  | _ => false
  end%char.

Fixpoint trimStart (s : string) : string :=
  match s with
  | String c s' => if isStrWhiteSpaceChar c then trimStart s' else s
  | EmptyString => s
  end.

Definition trim (s : string) : string :=
  String.rev (trimStart (String.rev (trimStart s))).

Definition digitValue (c : ascii) : option Z :=
  let n := Z.of_nat (nat_of_ascii c) in
  if (48 <=? n) && (n <=? 57) then Some (n - 48)
  else if (97 <=? n) && (n <=? 122) then Some (n - 87)
  else if (65 <=? n) && (n <=? 90) then Some (n - 55)
  else None.

(** Longest run of digits in [radix]: accumulated value, number of
    digits read, and the rest of the string. *)
Fixpoint scanDigits (radix acc cnt : Z) (s : string) : Z * Z * string :=
  match s with
  | String c s' =>
      match digitValue c with
      | Some d => if d <? radix then scanDigits radix (acc * radix + d) (cnt + 1) s'
                  else (acc, cnt, s)
      | None => (acc, cnt, s)
      end
  | EmptyString => (acc, cnt, s)
  end.

Definition scanSign (s : string) : bool * string :=
  match s with
  | String "-" s' => (true, s')
  | String "+" s' => (false, s')
  | _ => (false, s)
  end.

Definition stripPrefix (p s : string) : option string :=
  if String.prefix p s
  then Some (substring (String.length p) (String.length s - String.length p) s)
  else None.

(** The double nearest to [(-1)^s * d * 10^e]. *)
Definition decimalValue (s : bool) (d e : Z) : number :=
  match d with
  | Zpos p =>
      let nd := Z.log2 d * 30103 / 100000 in
      if 310 <? e + nd then S754_infinity s
      else if e + nd <? -330 then S754_zero s
      else if 0 <=? e then ratio s (p * Z.to_pos (10 ^ e)) 1
      else ratio s p (Z.to_pos (10 ^ (- e)))
  | _ => S754_zero s
  end.

Definition scanExponent (s : string) : Z * string :=
  match s with
  | String c s' =>
      if (Ascii.eqb c "e" || Ascii.eqb c "E")%bool then
        let '(neg, s'') := scanSign s' in
        let '(x, n, rest) := scanDigits 10 0 0 s'' in
        if 0 <? n then (if neg then - x else x, rest) else (0, s)
      else (0, s)
  | EmptyString => (0, s)
  end.

(** Longest prefix that is a StrDecimalLiteral, with its value. *)
Definition scanDecimalLiteral (s : string) : option (number * string) :=
  let '(neg, s0) := scanSign s in
  match stripPrefix "Infinity" s0 with
  | Some rest => Some (S754_infinity neg, rest)
  | None =>
      let '(i, ni, s1) := scanDigits 10 0 0 s0 in
      let '(f, nf, s2) :=
        match s1 with
        | String "." s1' =>
            let '(f, nf, s2) := scanDigits 10 i 0 s1' in
            if (0 <? ni) || (0 <? nf) then (f, nf, s2) else (i, 0, s1)
        | _ => (i, 0, s1)
        end in
      if (ni =? 0) && (nf =? 0) then None
      else
        let '(x, s3) := scanExponent s2 in
        Some (decimalValue neg f (x - nf), s3)
  end.

Definition scanNonDecimal (s : string) : option number :=
  let radix :=
    match s with
    | String "0" (String c _) =>
        if (Ascii.eqb c "x" || Ascii.eqb c "X")%bool then 16
        else if (Ascii.eqb c "o" || Ascii.eqb c "O")%bool then 8
        else if (Ascii.eqb c "b" || Ascii.eqb c "B")%bool then 2
        else 0
    | _ => 0
    end in
  if radix =? 0 then None
  else
    match scanDigits radix 0 0 (substring 2 (String.length s - 2) s) with
    | (v, n, EmptyString) => if 0 <? n then Some (decimalValue false v 0) else None
    | _ => None
    end.

(** Number(s) on a string (StringToNumber). *)
Definition Number (s : string) : number :=
  let t := trim s in
  match t with
  | EmptyString => S754_zero false
  | _ =>
      match scanDecimalLiteral t with
      | Some (v, EmptyString) => v
      | _ => match scanNonDecimal t with Some v => v | None => nan end
      end
  end.

Definition parseFloat (s : string) : number :=
  match scanDecimalLiteral (trimStart s) with
  | Some (v, _) => v
  | None => nan
  end.

(** parseInt(s) with no radix argument. *)
Definition parseInt (s : string) : number :=
  let '(neg, s0) := scanSign (trimStart s) in
  let '(radix, s1) :=
    match s0 with
    | String "0" (String c s') =>
        if (Ascii.eqb c "x" || Ascii.eqb c "X")%bool then (16, s') else (10, s0)
    | _ => (10, s0)
    end in
  let '(v, n, _) := scanDigits radix 0 0 s1 in
  if 0 <? n then decimalValue neg v 0 else nan.

(** ** String methods *)

Fixpoint includes (needle s : string) : bool :=
  String.prefix needle s ||
  match s with
  | String _ s' => includes needle s'
  | EmptyString => false
  end.

Fixpoint splitGo (sep : ascii) (cur : string) (s : string) : list string :=
  match s with
  | EmptyString => [String.rev cur]
  | String c s' =>
      if Ascii.eqb c sep then String.rev cur :: splitGo sep EmptyString s'
      else splitGo sep (String c cur) s'
  end.

(** s.split(sep) for a one-character separator. *)
Definition split (sep : ascii) (s : string) : list string := splitGo sep EmptyString s.

Fixpoint repeatTo (n : nat) (fill cur : string) : string :=
  match n with
  | O => EmptyString
  | S n' =>
      match cur with
      | String c cur' => String c (repeatTo n' fill cur')
      | EmptyString =>
          match fill with
          | String c fill' => String c (repeatTo n' fill fill')
          | EmptyString => EmptyString
          end
      end
  end.

Definition padStart (target : nat) (fill s : string) : string :=
  repeatTo (target - String.length s) fill fill +:+ s.

End JS.

Import JS.

(** * Math: the numeric library of the host

    [Math.PI] and [Math.sqrt] are fixed by the language; [Math.sin],
    [Math.cos] and [Math.atan2] are implementation-approximated, so the
    engine is stated over any host providing them. *)

Class MathHost := {
  Math_sin : number -> number;
  Math_cos : number -> number;
  Math_atan2 : number -> number -> number
}.

Definition Math_PI : number := ratio false 3141592653589793 (10 ^ 15).
Definition Math_sqrt : number -> number := SFsqrt prec emax.

(** * Data model

    The reference data is loaded outside app.js; the fields of a stop
    and of a day are those app.js reads. *)

Module Ticket.
Record t := { adult : number; child : number }.
End Ticket.

Module Spot.
Record t := {
  name : string;
  lat : number;
  lon : number;
  ticket : option Ticket.t;
  mapCode : option string;
  desc : option string
}.
#[global] Instance inhabited : Inhabited t :=
  populate {| name := ""; lat := nan; lon := nan;
              ticket := None; mapCode := None; desc := None |}.
End Spot.

Module Day.
Record t := {
  dayId : string;
  title : string;
  date : string;
  themeColor : string;
  spots : list Spot.t
}.
End Day.

Module NextStop.
Record t := {
  name : string;
  distance : string;
  driveTime : string;
  walkTime : string;
  navLink : string
}.
End NextStop.

(** A derived stop: the fields of the reference stop ([...spot]) and the
    fields the engine adds or overrides. *)
Module Derived.
Record t := {
  spot : Spot.t;
  id : string;
  time : string;
  stay : string;
  isDeparted : bool;
  actualDepTime : option string;
  nextStop : option NextStop.t;
  nextArrivalTime : string;
  mapcodeDisplay : string;
  gmapLink : string;
  weather : string;
  temp : string;
  ticket : option Ticket.t
}.
End Derived.

(** A derived day: [{ ...day, spots: newSpots }]. *)
Module DerivedDay.
Record t := {
  dayId : string;
  title : string;
  date : string;
  themeColor : string;
  spots : list Derived.t
}.
End DerivedDay.

(** [o || d] on an optional string: [undefined] and [""] are falsy. *)
Definition orDefault (o : option string) (d : string) : string :=
  match o with
  | Some (String _ _ as s) => s
  | _ => d
  end.

Definition truthy (o : option string) : bool :=
  match o with
  | Some (String _ _) => true
  | _ => false
  end.

(** * Global helpers

    [timeToMinutes], [minutesToTimeStr], [parseStayDuration] and
    [getDistanceFromLatLonInKm] of app.js. *)

Definition timeToMinutes (t : string) : number :=
  match t with
  | EmptyString => ofZ 0
  | _ =>
      let parts := map Number (split ":" t) in
      let h := nth 0 parts nan in
      let m := nth 1 parts nan in
      add (mul h (ofZ 60)) m
  end.

Definition minutesToTimeStr (m : number) : string :=
  let h := Math_floor (div m (ofZ 60)) in
  let min := Math_floor (rem m (ofZ 60)) in
  let h := rem h (ofZ 24) in
  padStart 2 "0" (toString h) +:+ ":" +:+ padStart 2 "0" (toString min).

Definition parseStayDuration (s : string) : number :=
  if (String.eqb s "" || String.eqb s "-" || String.eqb s "Overnight")%bool then ofZ 0
  else if includes "hr" s then mul (parseFloat s) (ofZ 60)
  else if includes "min" s then parseInt s
  else ofZ 0.

Section Distance.
Context `{MathHost}.

Definition getDistanceFromLatLonInKm (lat1 lon1 lat2 lon2 : number) : string :=
  let R := ofZ 6371 in
  let rad := div Math_PI (ofZ 180) in
  let dLat := mul (sub lat2 lat1) rad in
  let dLon := mul (sub lon2 lon1) rad in
  let a :=
    add (mul (Math_sin (div dLat (ofZ 2))) (Math_sin (div dLat (ofZ 2))))
        (mul (mul (mul (Math_cos (mul lat1 rad)) (Math_cos (mul lat2 rad)))
                  (Math_sin (div dLon (ofZ 2))))
             (Math_sin (div dLon (ofZ 2)))) in
  let c := mul (ofZ 2) (Math_atan2 (Math_sqrt a) (Math_sqrt (sub (ofZ 1) a))) in
  toFixed1 (mul R c).
End Distance.

(** * The engine

    The engine assigns one variable, the running clock [currentMinutes]
    declared by the day callback and advanced by the stop callback; the
    callbacks are written in a state monad whose state is that clock. *)

Definition State (St A : Type) : Type := St -> A * St.

Definition ret {St A : Type} (a : A) : State St A := fun s => (a, s).
Definition bind {St A B : Type} (m : State St A) (k : A -> State St B) : State St B :=
  fun s => let '(a, s') := m s in k a s'.
Definition get {St : Type} : State St St := fun s => (s, s).
Definition put {St : Type} (s : St) : State St unit := fun _ => (tt, s).

Notation "x <- m ;; k" := (bind m (fun x => k))
  (at level 100, m at next level, right associativity).
Notation "m ;; k" := (bind m (fun _ => k))
  (at level 100, right associativity).

(** [l.map((x, idx) => f x idx)] for a callback with effects. *)
Fixpoint mapIdx {St A B : Type} (f : A -> nat -> State St B) (idx : nat) (l : list A)
  : State St (list B) :=
  match l with
  | [] => ret []
  | x :: l' =>
      y <- f x idx ;;
      ys <- mapIdx f (S idx) l' ;;
      ret (y :: ys)
  end.

(** The code unit of the degree sign in the temperature "10°C". *)
Definition degreeSign : ascii := "176"%char.

(** The two display strings of a leg are built by the same expression. *)
Definition formatMins (mins : number) : string :=
  if gt mins (ofZ 60)
  then toString (Math_floor (div mins (ofZ 60))) +:+ "h"
       +:+ toString (rem mins (ofZ 60)) +:+ "m"
  else toString mins +:+ "m".

Definition travelMinutes (mode dist : string) : number :=
  let speed := if String.eqb mode "car" then ofZ 40 else ofZ 4 in
  let travelMinutes := Math_round (mul (div (Number dist) speed) (ofZ 60)) in
  if String.eqb mode "car" then add travelMinutes (ofZ 10) else travelMinutes.

Section Engine.
Context `{MathHost}.
Variables dayStartTimes actualDepartures stays transportModes : gmap string string.

Definition spotIdOf (day : Day.t) (idx : nat) : string :=
  Day.dayId day +:+ "-s" +:+ pretty idx.

(** Departure minutes, [isDeparted] and [actualDepTime] of a stop reached
    at [currentMinutes]. *)
Definition departure (spotId stayStr : string) (currentMinutes : number)
  : number * bool * option string :=
  match actualDepartures !! spotId with
  | Some (String _ _ as actualDepTime) =>
      (timeToMinutes actualDepTime, true, Some actualDepTime)
  | _ => (add currentMinutes (parseStayDuration stayStr), false, None)
  end.

Definition nextStopInfoOf (spot nextSpot : Spot.t) (dist mode : string) : NextStop.t :=
  let displayDriveMins :=
    add (Math_round (mul (div (Number dist) (ofZ 40)) (ofZ 60))) (ofZ 10) in
  let displayWalkMins := Math_round (mul (div (Number dist) (ofZ 4)) (ofZ 60)) in
  {| NextStop.name := Spot.name nextSpot;
     NextStop.distance := dist +:+ " km";
     NextStop.driveTime := formatMins displayDriveMins;
     NextStop.walkTime := formatMins displayWalkMins;
     NextStop.navLink :=
       "https://www.google.com/maps/dir/?api=1&origin="
       +:+ toString (Spot.lat spot) +:+ "," +:+ toString (Spot.lon spot)
       +:+ "&destination="
       +:+ toString (Spot.lat nextSpot) +:+ "," +:+ toString (Spot.lon nextSpot)
       +:+ "&travelmode="
       +:+ (if String.eqb mode "car" then "driving" else "walking") |}.

Definition spotCallback (day : Day.t) (spot : Spot.t) (idx : nat)
  : State number Derived.t :=
  currentMinutes <- get ;;
  let spotId := spotIdOf day idx in
  let stayStr := orDefault (stays !! spotId) "1.5 hr" in
  let arrivalTimeStr := minutesToTimeStr currentMinutes in
  let '(departureMinutes, isDeparted, actualDepTime) :=
    departure spotId stayStr currentMinutes in
  next <-
    (if Z.of_nat idx <? Z.of_nat (length (Day.spots day)) - 1 then
       let nextSpot := Day.spots day !!! (idx + 1)%nat in
       let dist :=
         getDistanceFromLatLonInKm (Spot.lat spot) (Spot.lon spot)
                                   (Spot.lat nextSpot) (Spot.lon nextSpot) in
       let mode := orDefault (transportModes !! spotId) "car" in
       put (add departureMinutes (travelMinutes mode dist)) ;;
       currentMinutes <- get ;;
       ret (Some (nextStopInfoOf spot nextSpot dist mode),
            minutesToTimeStr currentMinutes)
     else ret (None, "")) ;;
  ret {| Derived.spot := spot;
         Derived.id := spotId;
         Derived.time := arrivalTimeStr;
         Derived.stay := stayStr;
         Derived.isDeparted := isDeparted;
         Derived.actualDepTime := actualDepTime;
         Derived.nextStop := fst next;
         Derived.nextArrivalTime := snd next;
         Derived.mapcodeDisplay := orDefault (Spot.mapCode spot) "GPS";
         Derived.gmapLink :=
           "https://www.google.com/maps/search/?api=1&query="
           +:+ toString (Spot.lat spot) +:+ "," +:+ toString (Spot.lon spot);
         Derived.weather := "sunny";
         Derived.temp := "10" +:+ String degreeSign "C";
         Derived.ticket := Spot.ticket spot |}.

Definition dayCallback (day : Day.t) : State number DerivedDay.t :=
  put (timeToMinutes (orDefault (dayStartTimes !! Day.dayId day) "09:00")) ;;
  newSpots <- mapIdx (spotCallback day) 0 (Day.spots day) ;;
  ret {| DerivedDay.dayId := Day.dayId day;
         DerivedDay.title := Day.title day;
         DerivedDay.date := Day.date day;
         DerivedDay.themeColor := Day.themeColor day;
         DerivedDay.spots := newSpots |}.

Definition useItineraryCalculation (rawKml : option (list Day.t))
  : State number (list DerivedDay.t) :=
  mapIdx (fun day _ => dayCallback day) 0 (default [] rawKml).
End Engine.

(** * A reference host

    [Math.sin], [Math.cos] and [Math.atan2] evaluated in binary64 by
    their power series after argument reduction. *)

Module SeriesHost.

Definition signBit (x : number) : bool :=
  match x with
  | S754_finite s _ _ | S754_zero s | S754_infinity s => s
  | S754_nan => false
  end.

(** [sum + term + term * r(k) + ...] where each term is the previous one
    times [- x2 / (k * (k + 1))] and [k] advances by 2. *)
Fixpoint series (fuel : nat) (k : Z) (x2 term sum : number) : number :=
  match fuel with
  | O => sum
  | S fuel' =>
      let term' := SFopp (div (mul term x2) (ofZ (k * (k + 1)))) in
      series fuel' (k + 2) x2 term' (add sum term')
  end.

(** Reduction of the argument to [[-PI, PI]]. *)
Definition reduce (x : number) : number :=
  let twoPi := mul (ofZ 2) Math_PI in
  sub x (mul (Math_round (div x twoPi)) twoPi).

Definition sin (x : number) : number :=
  match x with
  | S754_finite _ _ _ =>
      let r := reduce x in
      series 14 2 (mul r r) r r
  | S754_zero _ => x
  | _ => nan
  end.

Definition cos (x : number) : number :=
  match x with
  | S754_finite _ _ _ =>
      let r := reduce x in
      series 14 1 (mul r r) (ofZ 1) (ofZ 1)
  | S754_zero _ => ofZ 1
  | _ => nan
  end.

(** [z - z^3/3 + z^5/5 - ...], for small [z]. *)
Fixpoint atanSeries (fuel : nat) (k : Z) (z2 power sum : number) : number :=
  match fuel with
  | O => sum
  | S fuel' =>
      let power' := SFopp (mul power z2) in
      atanSeries fuel' (k + 2) z2 power' (add sum (div power' (ofZ k)))
  end.

Definition halve (z : number) : number :=
  div z (add (ofZ 1) (Math_sqrt (add (ofZ 1) (mul z z)))).

(** arctangent of a finite [z >= 0]. *)
Definition atanPos (z : number) : number :=
  let halfPi := div Math_PI (ofZ 2) in
  let small (u : number) :=
    let w := halve (halve u) in
    mul (ofZ 4) (atanSeries 14 3 (mul w w) w w) in
  if gt z (ofZ 1) then sub halfPi (small (div (ofZ 1) z)) else small z.

Definition atan2 (y x : number) : number :=
  let withSign (v : number) := if signBit y then SFopp v else v in
  match y, x with
  | S754_nan, _ | _, S754_nan => nan
  | S754_zero _, _ => if signBit x then withSign Math_PI else y
  | S754_infinity _, S754_infinity sx =>
      withSign (if sx then mul (ofZ 3) (div Math_PI (ofZ 4)) else div Math_PI (ofZ 4))
  | S754_infinity _, _ => withSign (div Math_PI (ofZ 2))
  | _, S754_zero _ => withSign (div Math_PI (ofZ 2))
  | _, S754_infinity sx => withSign (if sx then Math_PI else ofZ 0)
  | S754_finite _ _ _, S754_finite sx _ _ =>
      let t := atanPos (div (SFabs y) (SFabs x)) in
      withSign (if sx then sub Math_PI t else t)
  end.

#[export] Instance host : MathHost :=
  {| Math_sin := sin; Math_cos := cos; Math_atan2 := atan2 |}.

End SeriesHost.

(** * Concrete itineraries

    The inputs on which the engine is run below. *)

Module Scenario.

Definition spotAt (name lat lon : string) : Spot.t :=
  {| Spot.name := name; Spot.lat := Number lat; Spot.lon := Number lon;
     Spot.ticket := None; Spot.mapCode := None; Spot.desc := None |}.

(** A day of two stops, 5.9 km apart. *)
Definition stop0 : Spot.t := spotAt "Stop 0" "35.6895" "139.6917".
Definition stop1 : Spot.t := spotAt "Stop 1" "35.6586" "139.7454".
Definition day1 : Day.t :=
  {| Day.dayId := "d1"; Day.title := "Day 1"; Day.date := "1/1";
     Day.themeColor := "rose"; Day.spots := [stop0; stop1] |}.

Definition startTimes : gmap string string := {[ "d1" := "09:00" ]}.
Definition stayTimes : gmap string string := {[ "d1-s0" := "1.5 hr" ]}.
Definition modes : gmap string string := {[ "d1-s0" := "car" ]}.
Definition noOverrides : gmap string string := ∅.

(** The engine's result on a list of days, with the trigonometric
    functions of [host]; the clock holds NaN before the first day sets
    it. *)
Definition run (host : MathHost)
    (dayStartTimes actualDepartures stays transportModes : gmap string string)
    (days : list Day.t) : list DerivedDay.t :=
  (useItineraryCalculation (H := host)
     dayStartTimes actualDepartures stays transportModes (Some days) nan).1.

(** The times shown for the stops of the first day of a result. *)
Definition times (out : list DerivedDay.t) : list string :=
  match out with
  | od :: _ => map Derived.time (DerivedDay.spots od)
  | [] => []
  end.

Definition nextArrivals (out : list DerivedDay.t) : list string :=
  match out with
  | od :: _ => map Derived.nextArrivalTime (DerivedDay.spots od)
  | [] => []
  end.

(** The same day with a start time whose parts are not numbers. *)
Definition badStartTimes : gmap string string := {[ "d1" := "ab:cd" ]}.

(** A day of two stops 4.0 km apart on a meridian, walked. *)
Definition near0 : Spot.t := spotAt "A" "35.0" "139.0".
Definition near1 : Spot.t := spotAt "B" "35.036" "139.0".
Definition day2 : Day.t :=
  {| Day.dayId := "d2"; Day.title := "Day 2"; Day.date := "1/2";
     Day.themeColor := "sage"; Day.spots := [near0; near1] |}.
Definition walkModes : gmap string string := {[ "d2-s0" := "walk" ]}.

(** The walk-time strings of the legs of the first day of a result. *)
Definition walkTimes (out : list DerivedDay.t) : list (option string) :=
  match out with
  | od :: _ => map (fun d => NextStop.walkTime <$> Derived.nextStop d) (DerivedDay.spots od)
  | [] => []
  end.

(** A day whose first stop has been left at 10:05, and one whose
    departure entry is the empty string. *)
Definition departed : gmap string string := {[ "d1-s0" := "10:05" ]}.
Definition emptyDeparture : gmap string string := {[ "d1-s0" := "" ]}.

(** *** Hosts close to the reference host

    [Math.sin], [Math.cos] and [Math.atan2] differ between hosts in the
    last bits of their results.  A host agrees with the reference on the
    leg from [stop0] to [stop1] when its results there are within two
    representable numbers of the reference's. *)

Fixpoint neighbours (f : number -> number) (n : nat) (x : number) : list number :=
  match n with
  | O => []
  | S n' => f x :: neighbours f n' (f x)
  end.

(** [x], the [n] numbers above it and the [n] numbers below it. *)
Definition window (n : nat) (x : number) : list number :=
  x :: neighbours (SFsucc prec emax) n x ++ neighbours (SFpred prec emax) n x.

Definition rad : number := div Math_PI (ofZ 180).
Definition halfDLat : number :=
  div (mul (sub (Spot.lat stop1) (Spot.lat stop0)) rad) (ofZ 2).
Definition halfDLon : number :=
  div (mul (sub (Spot.lon stop1) (Spot.lon stop0)) rad) (ofZ 2).

(** The haversine term and the distance string, as in
    [getDistanceFromLatLonInKm], from the values of the four sines and
    cosines and of the arctangent. *)
Definition haversineA (s1 s2 c1 c2 : number) : number :=
  add (mul s1 s1) (mul (mul (mul c1 c2) s2) s2).
Definition kmString (t : number) : string :=
  toFixed1 (mul (ofZ 6371) (mul (ofZ 2) t)).

(** The haversine term of the leg with the sines and cosines of [host]. *)
Definition legA (host : MathHost) : number :=
  haversineA (Math_sin (MathHost := host) halfDLat)
             (Math_sin (MathHost := host) halfDLon)
             (Math_cos (MathHost := host) (mul (Spot.lat stop0) rad))
             (Math_cos (MathHost := host) (mul (Spot.lat stop1) rad)).

Record agreesOnLeg (host : MathHost) : Prop := {
  agrees_sin_lat :
    In (Math_sin (MathHost := host) halfDLat) (window 2 (SeriesHost.sin halfDLat));
  agrees_sin_lon :
    In (Math_sin (MathHost := host) halfDLon) (window 2 (SeriesHost.sin halfDLon));
  agrees_cos_0 :
    In (Math_cos (MathHost := host) (mul (Spot.lat stop0) rad))
       (window 2 (SeriesHost.cos (mul (Spot.lat stop0) rad)));
  agrees_cos_1 :
    In (Math_cos (MathHost := host) (mul (Spot.lat stop1) rad))
       (window 2 (SeriesHost.cos (mul (Spot.lat stop1) rad)));
  agrees_atan2 :
    In (Math_atan2 (MathHost := host)
          (Math_sqrt (legA host)) (Math_sqrt (sub (ofZ 1) (legA host))))
       (window 2 (SeriesHost.atan2
                    (Math_sqrt (legA host)) (Math_sqrt (sub (ofZ 1) (legA host)))))
}.

(** Every choice of values in the windows gives the distance "5.9". *)
Definition legCheck : bool :=
  forallb (fun s1 => forallb (fun s2 => forallb (fun c1 => forallb (fun c2 =>
    let a := haversineA s1 s2 c1 c2 in
    forallb (fun t => String.eqb (kmString t) "5.9")
      (window 2 (SeriesHost.atan2 (Math_sqrt a) (Math_sqrt (sub (ofZ 1) a)))))
    (window 2 (SeriesHost.cos (mul (Spot.lat stop1) rad))))
    (window 2 (SeriesHost.cos (mul (Spot.lat stop0) rad))))
    (window 2 (SeriesHost.sin halfDLon)))
    (window 2 (SeriesHost.sin halfDLat)).

End Scenario.

(** * Reading the engine's result *)

(** Two decimal digits, and a time of day written "HH:MM". *)
Definition pad2 (n : Z) : string := padStart 2 "0" (pretty (Z.to_N n)).
Definition hhmm (h m : Z) : string := pad2 h +:+ ":" +:+ pad2 m.

Definition wellFormedTime (s : string) : Prop :=
  exists h m : Z, 0 <= h < 24 /\ 0 <= m < 60 /\ s = hhmm h m.

Section Schedule.
Context `{MathHost}.
Variables dayStartTimes actualDepartures stays transportModes : gmap string string.

(** The start time the day callback parses. *)
Definition startTimeOf (day : Day.t) : string :=
  orDefault (dayStartTimes !! Day.dayId day) "09:00".

(** Effective departure of stop [idx] when it is reached at [arrival]. *)
Definition effectiveDeparture (day : Day.t) (idx : nat) (arrival : number) : number :=
  let spotId := spotIdOf day idx in
  (departure actualDepartures spotId (orDefault (stays !! spotId) "1.5 hr") arrival).1.1.

(** Distance string and travel minutes of the leg leaving stop [idx]. *)
Definition legDistance (day : Day.t) (idx : nat) : string :=
  let spot := Day.spots day !!! idx in
  let nextSpot := Day.spots day !!! (idx + 1)%nat in
  getDistanceFromLatLonInKm (Spot.lat spot) (Spot.lon spot)
                            (Spot.lat nextSpot) (Spot.lon nextSpot).

Definition legMode (day : Day.t) (idx : nat) : string :=
  orDefault (transportModes !! spotIdOf day idx) "car".

Definition legMinutes (day : Day.t) (idx : nat) : number :=
  travelMinutes (legMode day idx) (legDistance day idx).

(** The schedule invariant of the data model, as a recurrence: the
    first stop is reached at the day's start time, stop [k + 1] at the
    effective departure of stop [k] plus the travel time of the leg. *)
Fixpoint arrivalMinutes (day : Day.t) (k : nat) : number :=
  match k with
  | O => timeToMinutes (startTimeOf day)
  | S k' => add (effectiveDeparture day k' (arrivalMinutes day k')) (legMinutes day k')
  end.
End Schedule.

(** Whether the stop at [idx] has a successor in the day. *)
Definition hasNext (day : Day.t) (idx : nat) : bool :=
  Z.of_nat idx <? Z.of_nat (length (Day.spots day)) - 1.

(** * The engine on a store of objects

    The engine receives references: the array of days, the days and
    stops it holds, and the four override objects live in the store of
    the application, next to whatever else the application holds.  Here
    the engine is written on such a store.  Reading a property loads a
    cell, an object or array literal and a [let] allocate one, and the
    assignment to [currentMinutes] writes the cell of that variable;
    reading a property of something that is not an object of the
    expected kind is an error.  The array a [map] returns is allocated
    once its elements are known. *)

Module Heap.

Abbreviation loc := nat.

Module SpotCell.
Record t := {
  name : string;
  lat : number;
  lon : number;
  ticket : option loc;
  mapCode : option string;
  desc : option string
}.
End SpotCell.

(** A day of the reference data, and [{ ...day, spots: newSpots }]. *)
Module DayCell.
Record t := {
  dayId : string;
  title : string;
  date : string;
  themeColor : string;
  spots : loc
}.
End DayCell.

(** [{ ...spot, id: spotId, ... }]: the properties of the stop, copied,
    and those the engine adds. *)
Module DerivedCell.
Record t := {
  spot : SpotCell.t;
  id : string;
  time : string;
  stay : string;
  isDeparted : bool;
  actualDepTime : option string;
  nextStop : option loc;
  nextArrivalTime : string;
  mapcodeDisplay : string;
  gmapLink : string;
  weather : string;
  temp : string;
  ticket : option loc
}.
End DerivedCell.

(** The content of a cell: an object of one of the kinds the engine
    meets, or the value of a variable captured by a callback. *)
Inductive Object :=
| TicketObject (t : Ticket.t)
| SpotObject (s : SpotCell.t)
| DayObject (d : DayCell.t)
| ArrayObject (items : list loc)
| MapObject (m : gmap string string)
| NextStopObject (n : NextStop.t)
| DerivedObject (d : DerivedCell.t)
| Binding (v : number).

Abbreviation Store := (list Object).

(** Computations on the store that may fail. *)
Definition Run (A : Type) : Type := Store -> option (A * Store).

Definition pure {A : Type} (a : A) : Run A := fun h => Some (a, h).
Definition throw {A : Type} : Run A := fun _ => None.
Definition andThen {A B : Type} (m : Run A) (k : A -> Run B) : Run B :=
  fun h =>
    match m h with
    | Some (a, h') => k a h'
    | None => None
    end.

Notation "x <~ m ;; k" := (andThen m (fun x => k))
  (at level 100, m at next level, right associativity).

Definition alloc (o : Object) : Run loc := fun h => Some (length h, h ++ [o]).

Definition load (l : loc) : Run Object :=
  fun h =>
    match h !! l with
    | Some o => Some (o, h)
    | None => None
    end.

Definition write (l : loc) (o : Object) : Run unit :=
  fun h =>
    match h !! l with
    | Some _ => Some (tt, <[l := o]> h)
    | None => None
    end.

Definition loadDay (l : loc) : Run DayCell.t :=
  o <~ load l ;; match o with DayObject d => pure d | _ => throw end.
Definition loadSpot (l : loc) : Run SpotCell.t :=
  o <~ load l ;; match o with SpotObject s => pure s | _ => throw end.
Definition loadArray (l : loc) : Run (list loc) :=
  o <~ load l ;; match o with ArrayObject items => pure items | _ => throw end.
Definition loadMap (l : loc) : Run (gmap string string) :=
  o <~ load l ;; match o with MapObject m => pure m | _ => throw end.
Definition loadBinding (l : loc) : Run number :=
  o <~ load l ;; match o with Binding v => pure v | _ => throw end.

(** [l.map((x, idx) => f x idx)] on the elements of an array. *)
Fixpoint mapRun (f : loc -> nat -> Run loc) (idx : nat) (l : list loc) : Run (list loc) :=
  match l with
  | [] => pure []
  | x :: l' =>
      y <~ f x idx ;;
      ys <~ mapRun f (S idx) l' ;;
      pure (y :: ys)
  end.

Section Engine.
Context `{MathHost}.
Variables dayStartTimes actualDepartures stays transportModes : loc.

Definition spotCallback (day currentMinutes spot : loc) (idx : nat) : Run loc :=
  dayFields <~ loadDay day ;;
  let spotId := DayCell.dayId dayFields +:+ "-s" +:+ pretty idx in
  staysMap <~ loadMap stays ;;
  let stayStr := orDefault (staysMap !! spotId) "1.5 hr" in
  reached <~ loadBinding currentMinutes ;;
  let arrivalTimeStr := minutesToTimeStr reached in
  departuresMap <~ loadMap actualDepartures ;;
  let '(departureMinutes, isDeparted, actualDepTime) :=
    departure departuresMap spotId stayStr reached in
  spots <~ loadArray (DayCell.spots dayFields) ;;
  spotFields <~ loadSpot spot ;;
  next <~
    (if Z.of_nat idx <? Z.of_nat (length spots) - 1 then
       match spots !! (idx + 1)%nat with
       | None => throw
       | Some nextSpot =>
           nextFields <~ loadSpot nextSpot ;;
           let dist :=
             getDistanceFromLatLonInKm
               (SpotCell.lat spotFields) (SpotCell.lon spotFields)
               (SpotCell.lat nextFields) (SpotCell.lon nextFields) in
           modesMap <~ loadMap transportModes ;;
           let mode := orDefault (modesMap !! spotId) "car" in
           _ <~ write currentMinutes
                      (Binding (add departureMinutes (travelMinutes mode dist))) ;;
           arrived <~ loadBinding currentMinutes ;;
           let displayDriveMins :=
             add (Math_round (mul (div (Number dist) (ofZ 40)) (ofZ 60))) (ofZ 10) in
           let displayWalkMins :=
             Math_round (mul (div (Number dist) (ofZ 4)) (ofZ 60)) in
           nextStopInfo <~
             alloc (NextStopObject
                      {| NextStop.name := SpotCell.name nextFields;
                         NextStop.distance := dist +:+ " km";
                         NextStop.driveTime := formatMins displayDriveMins;
                         NextStop.walkTime := formatMins displayWalkMins;
                         NextStop.navLink :=
                           "https://www.google.com/maps/dir/?api=1&origin="
                           +:+ toString (SpotCell.lat spotFields) +:+ ","
                           +:+ toString (SpotCell.lon spotFields)
                           +:+ "&destination="
                           +:+ toString (SpotCell.lat nextFields) +:+ ","
                           +:+ toString (SpotCell.lon nextFields)
                           +:+ "&travelmode="
                           +:+ (if String.eqb mode "car" then "driving" else "walking")
                      |}) ;;
           pure (Some nextStopInfo, minutesToTimeStr arrived)
       end
     else pure (None, "")) ;;
  alloc (DerivedObject
           {| DerivedCell.spot := spotFields;
              DerivedCell.id := spotId;
              DerivedCell.time := arrivalTimeStr;
              DerivedCell.stay := stayStr;
              DerivedCell.isDeparted := isDeparted;
              DerivedCell.actualDepTime := actualDepTime;
              DerivedCell.nextStop := fst next;
              DerivedCell.nextArrivalTime := snd next;
              DerivedCell.mapcodeDisplay := orDefault (SpotCell.mapCode spotFields) "GPS";
              DerivedCell.gmapLink :=
                "https://www.google.com/maps/search/?api=1&query="
                +:+ toString (SpotCell.lat spotFields) +:+ ","
                +:+ toString (SpotCell.lon spotFields);
              DerivedCell.weather := "sunny";
              DerivedCell.temp := "10" +:+ String degreeSign "C";
              DerivedCell.ticket := SpotCell.ticket spotFields |}).

Definition dayCallback (day : loc) : Run loc :=
  dayFields <~ loadDay day ;;
  startTimes <~ loadMap dayStartTimes ;;
  currentMinutes <~
    alloc (Binding (timeToMinutes
                      (orDefault (startTimes !! DayCell.dayId dayFields) "09:00"))) ;;
  spots <~ loadArray (DayCell.spots dayFields) ;;
  records <~ mapRun (spotCallback day currentMinutes) 0 spots ;;
  newSpots <~ alloc (ArrayObject records) ;;
  alloc (DayObject
           {| DayCell.dayId := DayCell.dayId dayFields;
              DayCell.title := DayCell.title dayFields;
              DayCell.date := DayCell.date dayFields;
              DayCell.themeColor := DayCell.themeColor dayFields;
              DayCell.spots := newSpots |}).

(** [rawKml] is [None] when the reference data is [null] or [undefined]. *)
Definition useItineraryCalculation (rawKml : option loc) : Run loc :=
  days <~ match rawKml with
          | Some l => pure l
          | None => alloc (ArrayObject [])
          end ;;
  items <~ loadArray days ;;
  derived <~ mapRun (fun day _ => dayCallback day) 0 items ;;
  alloc (ArrayObject derived).
End Engine.

(** ** Reading values off the store *)

Definition ticketAt (h : Store) (l : option loc) : option (option Ticket.t) :=
  match l with
  | None => Some None
  | Some l =>
      match h !! l with
      | Some (TicketObject t) => Some (Some t)
      | _ => None
      end
  end.

Definition spotOf (h : Store) (s : SpotCell.t) : option Spot.t :=
  match ticketAt h (SpotCell.ticket s) with
  | Some ticket =>
      Some {| Spot.name := SpotCell.name s;
              Spot.lat := SpotCell.lat s;
              Spot.lon := SpotCell.lon s;
              Spot.ticket := ticket;
              Spot.mapCode := SpotCell.mapCode s;
              Spot.desc := SpotCell.desc s |}
  | None => None
  end.

Definition spotAt (h : Store) (l : loc) : option Spot.t :=
  match h !! l with
  | Some (SpotObject s) => spotOf h s
  | _ => None
  end.

Definition arrayAt {A : Type} (f : loc -> option A) (h : Store) (l : loc)
  : option (list A) :=
  match h !! l with
  | Some (ArrayObject items) => mapM f items
  | _ => None
  end.

Definition dayAt (h : Store) (l : loc) : option Day.t :=
  match h !! l with
  | Some (DayObject d) =>
      match arrayAt (spotAt h) h (DayCell.spots d) with
      | Some spots =>
          Some {| Day.dayId := DayCell.dayId d;
                  Day.title := DayCell.title d;
                  Day.date := DayCell.date d;
                  Day.themeColor := DayCell.themeColor d;
                  Day.spots := spots |}
      | None => None
      end
  | _ => None
  end.

(** The reference data at [rawKml]. *)
Definition inputAt (h : Store) (rawKml : option loc) : option (option (list Day.t)) :=
  match rawKml with
  | None => Some None
  | Some l =>
      match arrayAt (dayAt h) h l with
      | Some days => Some (Some days)
      | None => None
      end
  end.

Definition mapAt (h : Store) (l : loc) : option (gmap string string) :=
  match h !! l with
  | Some (MapObject m) => Some m
  | _ => None
  end.

Definition nextStopAt (h : Store) (l : option loc) : option (option NextStop.t) :=
  match l with
  | None => Some None
  | Some l =>
      match h !! l with
      | Some (NextStopObject n) => Some (Some n)
      | _ => None
      end
  end.

Definition derivedAt (h : Store) (l : loc) : option Derived.t :=
  match h !! l with
  | Some (DerivedObject d) =>
      match spotOf h (DerivedCell.spot d), nextStopAt h (DerivedCell.nextStop d),
            ticketAt h (DerivedCell.ticket d) with
      | Some spot, Some nextStop, Some ticket =>
          Some {| Derived.spot := spot;
                  Derived.id := DerivedCell.id d;
                  Derived.time := DerivedCell.time d;
                  Derived.stay := DerivedCell.stay d;
                  Derived.isDeparted := DerivedCell.isDeparted d;
                  Derived.actualDepTime := DerivedCell.actualDepTime d;
                  Derived.nextStop := nextStop;
                  Derived.nextArrivalTime := DerivedCell.nextArrivalTime d;
                  Derived.mapcodeDisplay := DerivedCell.mapcodeDisplay d;
                  Derived.gmapLink := DerivedCell.gmapLink d;
                  Derived.weather := DerivedCell.weather d;
                  Derived.temp := DerivedCell.temp d;
                  Derived.ticket := ticket |}
      | _, _, _ => None
      end
  | _ => None
  end.

Definition derivedDayAt (h : Store) (l : loc) : option DerivedDay.t :=
  match h !! l with
  | Some (DayObject d) =>
      match arrayAt (derivedAt h) h (DayCell.spots d) with
      | Some spots =>
          Some {| DerivedDay.dayId := DayCell.dayId d;
                  DerivedDay.title := DayCell.title d;
                  DerivedDay.date := DayCell.date d;
                  DerivedDay.themeColor := DayCell.themeColor d;
                  DerivedDay.spots := spots |}
      | None => None
      end
  | _ => None
  end.

(** The derived schedule at [l], the location the engine returns. *)
Definition resultAt (h : Store) (l : loc) : option (list DerivedDay.t) :=
  arrayAt (derivedDayAt h) h l.

Definition isBinding (o : Object) : bool :=
  match o with
  | Binding _ => true
  | _ => false
  end.

(** [h'] is a later state of the store [h] in which the cells of [h]
    below [n] and the objects of [h] are what they were. *)
Record after (n : nat) (h h' : Store) : Prop := {
  after_below : forall l o, h !! l = Some o -> (l < n)%nat -> h' !! l = Some o;
  after_object : forall l o, h !! l = Some o -> isBinding o = false -> h' !! l = Some o;
  after_length : (length h <= length h')%nat
}.

End Heap.

(** A store that holds the day of [Scenario] and its overrides, and a
    variable of the application's own. *)
Module StoreScenario.
Import Scenario.

Definition cellOf (s : Spot.t) : Heap.SpotCell.t :=
  {| Heap.SpotCell.name := Spot.name s;
     Heap.SpotCell.lat := Spot.lat s;
     Heap.SpotCell.lon := Spot.lon s;
     Heap.SpotCell.ticket := None;
     Heap.SpotCell.mapCode := Spot.mapCode s;
     Heap.SpotCell.desc := Spot.desc s |}.

Definition store : list Heap.Object :=
  [ Heap.MapObject startTimes;
    Heap.MapObject noOverrides;
    Heap.MapObject stayTimes;
    Heap.MapObject modes;
    Heap.SpotObject (cellOf stop0);
    Heap.SpotObject (cellOf stop1);
    Heap.ArrayObject [4; 5]%nat;
    Heap.DayObject {| Heap.DayCell.dayId := "d1"; Heap.DayCell.title := "Day 1";
                      Heap.DayCell.date := "1/1"; Heap.DayCell.themeColor := "rose";
                      Heap.DayCell.spots := 6%nat |};
    Heap.ArrayObject [7%nat];
    Heap.Binding (ofZ 777) ].

End StoreScenario.

(** ** Definitions used in the proofs about numbers *)

(** The second half of [binary_round_aux]: rounding the shifted mantissa
    and renormalising. *)
Definition finish (s : bool) (mrs : shr_record) (e : Z) : spec_float :=
  let '(mrs'', e'') :=
    shr_fexp prec emax (round_nearest_even (shr_m mrs) (loc_of_shr_record mrs)) e loc_Exact in
  match shr_m mrs'' with
  | Z0 => S754_zero s
  | Zpos m => if e'' <=? emax - prec then S754_finite s m e'' else S754_infinity s
  | _ => S754_nan
  end.

(** Mantissa and exponent of the number an integer [0 < n < 2^53] is. *)
Definition canonM (n : Z) : positive := Z.to_pos (n * 2 ^ (52 - Z.log2 n)).
Definition canonE (n : Z) : Z := Z.log2 n - 52.

#[global] Instance number_eq_dec : EqDecision spec_float.
Proof. solve_decision. Defined.

(** [p] holds of every integer from [0] to [n - 1]. *)
Fixpoint allBelow (n : nat) (p : Z -> bool) : bool :=
  match n with
  | O => true
  | S n' => p (Z.of_nat n') && allBelow n' p
  end.

(** * The application around the engine

    The state of [App] that the engine reads (the four override maps)
    and that the statistics read (expenses and ticket counts), with the
    handlers that update it.  A handler passes an updater [p => ...] to
    the state setter; the updater is the function modelled. *)

(** [x || d] on a number: [0], [-0] and [NaN] are falsy. *)
Definition falsyNumber (x : number) : bool :=
  match x with
  | S754_zero _ | S754_nan => true
  | _ => false
  end.

Definition orNumber (x d : number) : number := if falsyNumber x then d else x.

(** [Math.max] of two numbers; [+0] is larger than [-0]. *)
Definition Math_max (x y : number) : number :=
  match x, y with
  | S754_nan, _ | _, S754_nan => nan
  | _, _ =>
      if SFltb x y then y
      else if SFltb y x then x
      else match x with S754_zero true => y | _ => x end
  end.

(** [x !== y] on numbers. *)
Definition strictNe (x y : number) : bool := negb (SFeqb x y).

(** ** Handlers of the override maps *)

Definition handleDayStartTimeChange (id val : string) (p : gmap string string)
  : gmap string string :=
  <[id := val]> p.

Definition handleStayChangeNew (id val : string) (p : gmap string string)
  : gmap string string :=
  <[id := val]> p.

Definition handleTransportToggle (id : string) (p : gmap string string)
  : gmap string string :=
  <[id := if bool_decide (p !! id = Some "walk") then "car" else "walk"]> p.

(** The two readings of the wall clock the departure handler takes. *)
Module Date.
Record t := { getHours : number; getMinutes : number }.
End Date.

Definition handleDepartureToggle (now : Date.t) (id : string) (p : gmap string string)
  : gmap string string :=
  let newState := p in
  if truthy (newState !! id) then delete id newState
  else
    <[id := padStart 2 "0" (toString (Date.getHours now)) +:+ ":"
            +:+ padStart 2 "0" (toString (Date.getMinutes now))]> newState.

(** The overrides of the stop [id] are read alike by the engine in two
    states of the maps. *)
Definition sameOverrides
    (actualDepartures stays transportModes : gmap string string)
    (actualDepartures' stays' transportModes' : gmap string string)
    (id : string) : Prop :=
  orDefault (actualDepartures !! id) "" = orDefault (actualDepartures' !! id) ""
  /\ orDefault (stays !! id) "1.5 hr" = orDefault (stays' !! id) "1.5 hr"
  /\ orDefault (transportModes !! id) "car" = orDefault (transportModes' !! id) "car".

(** ** Ticket counts *)

Module Counts.
Record t := { adult : number; child : number }.
End Counts.

(** The two values of [type] the callers pass: "adult" and "child". *)
Inductive TicketKind := Adult | Child.

Definition countOf (type : TicketKind) (c : Counts.t) : number :=
  match type with
  | Adult => Counts.adult c
  | Child => Counts.child c
  end.

Definition setCount (type : TicketKind) (v : number) (c : Counts.t) : Counts.t :=
  match type with
  | Adult => {| Counts.adult := v; Counts.child := Counts.child c |}
  | Child => {| Counts.adult := Counts.adult c; Counts.child := v |}
  end.

Definition defaultCounts : Counts.t := {| Counts.adult := ofZ 2; Counts.child := ofZ 2 |}.

Definition getTicketCounts (spotTicketCounts : gmap string Counts.t) (id : string)
  : Counts.t :=
  default defaultCounts (spotTicketCounts !! id).

Definition updateSpotTicketCount (id : string) (type : TicketKind) (delta : number)
    (p : gmap string Counts.t) : gmap string Counts.t :=
  let current :=
    match p !! id with
    | Some c => orNumber (countOf type c) (ofZ 2)
    | None => ofZ 2
    end in
  <[id := setCount type (Math_max (ofZ 0) (add current delta))
            (default defaultCounts (p !! id))]> p.

(** [spot.ticket.adult * counts.adult + spot.ticket.child * counts.child] *)
Definition ticketCost (ticket : Ticket.t) (counts : Counts.t) : number :=
  add (mul (Ticket.adult ticket) (Counts.adult counts))
      (mul (Ticket.child ticket) (Counts.child counts)).

(** ** Expenses and statistics *)

Module Expense.
Record t := {
  id : number;
  timestamp : number;
  amount : number;
  note : string;
  category : string
}.
End Expense.

Module DayStat.
Record t := { day : DerivedDay.t; totalTwd : number }.
End DayStat.

Section Stats.
Variable expenses : gmap string (list Expense.t).
Variable spotTicketCounts : gmap string Counts.t.

(** The body of [d.spots.forEach] in [dailyStats], on the running
    [dayTotal]. *)
Definition addSpot (dayTotal : number) (spot : Derived.t) : number :=
  let dayTotal :=
    fold_left (fun dayTotal e => add dayTotal (orNumber (Expense.amount e) (ofZ 0)))
              (default [] (expenses !! Derived.id spot)) dayTotal in
  match Derived.ticket spot with
  | Some ticket =>
      let counts := default defaultCounts (spotTicketCounts !! Derived.id spot) in
      add dayTotal (ticketCost ticket counts)
  | None => dayTotal
  end.

Definition dailyStats (tripData : list DerivedDay.t) : list DayStat.t :=
  map (fun d =>
         {| DayStat.day := d;
            DayStat.totalTwd := fold_left addSpot (DerivedDay.spots d) (ofZ 0) |})
      tripData.

(** [stats.totalJpy] *)
Definition totalJpy (dailyStats : list DayStat.t) : number :=
  fold_left (fun sum d => add sum (DayStat.totalTwd d)) dailyStats (ofZ 0).

(** The entries of the daily detail dialog: an expense with the name
    of its stop, or the tickets of a stop.  Text outside Latin-1 is held as
    its UTF-8 bytes. *)
Inductive Entry :=
  | ExpenseEntry (r : Expense.t) (spotName : string)
  | TicketEntry (id : string) (amount : number) (note : string) (spotName : string).

Definition entryAmount (item : Entry) : number :=
  match item with
  | ExpenseEntry r _ => Expense.amount r
  | TicketEntry _ amount _ _ => amount
  end.

Definition spotEntries (spot : Derived.t) : list Entry :=
  map (fun r => ExpenseEntry r (Spot.name (Derived.spot spot)))
      (default [] (expenses !! Derived.id spot))
  ++ match Derived.ticket spot with
     | Some ticket =>
         let counts := default defaultCounts (spotTicketCounts !! Derived.id spot) in
         let cost := ticketCost ticket counts in
         if gt cost (ofZ 0)
         then [TicketEntry ("t-" +:+ Derived.id spot) cost
                 ("門票 (大" +:+ toString (Counts.adult counts)
                  +:+ " 小" +:+ toString (Counts.child counts) +:+ ")")
                 (Spot.name (Derived.spot spot))]
         else []
     | None => []
     end.

(** [dayExpensesList] for the days shown. *)
Definition dayExpensesList (filteredDays : list DerivedDay.t) : list Entry :=
  concat (map (fun day => concat (map spotEntries (DerivedDay.spots day))) filteredDays).

Definition totalTWD (filteredDays : list DerivedDay.t) : number :=
  fold_left (fun sum item => add sum (entryAmount item)) (dayExpensesList filteredDays) (ofZ 0).
End Stats.

(** ** Whole amounts

    Amounts of money and ticket counts are whole numbers; a number is
    read as the integer it is. *)

Definition intOf (x : number) : Z :=
  match x with
  | S754_finite s m e => cond_Zopp s (default 0 (integerValue m e))
  | _ => 0
  end.

(** A whole number from [0] to [2^53 - 1]. *)
Definition isCount (x : number) : Prop :=
  0 <= intOf x < 2 ^ 53 /\ x = ofZ (intOf x).

Section Worth.
Variable expenses : gmap string (list Expense.t).
Variable spotTicketCounts : gmap string Counts.t.

Definition expensesWorth (l : list Expense.t) : Z :=
  foldr (fun e z => intOf (Expense.amount e) + z) 0 l.

Definition ticketWorth (spot : Derived.t) : Z :=
  match Derived.ticket spot with
  | Some ticket =>
      let counts := default defaultCounts (spotTicketCounts !! Derived.id spot) in
      intOf (Ticket.adult ticket) * intOf (Counts.adult counts)
      + intOf (Ticket.child ticket) * intOf (Counts.child counts)
  | None => 0
  end.

Definition spotWorth (spot : Derived.t) : Z :=
  expensesWorth (default [] (expenses !! Derived.id spot)) + ticketWorth spot.

Definition dayWorth (d : DerivedDay.t) : Z :=
  foldr (fun spot z => spotWorth spot + z) 0 (DerivedDay.spots d).

(** The amounts of a stop are whole, or NaN where [allowNaN]; its
    ticket prices and counts are whole. *)
Definition wholeSpot (allowNaN : bool) (spot : Derived.t) : Prop :=
  Forall (fun e => isCount (Expense.amount e)
                   \/ (allowNaN = true /\ Expense.amount e = nan))
         (default [] (expenses !! Derived.id spot))
  /\ match Derived.ticket spot with
     | Some ticket =>
         let counts := default defaultCounts (spotTicketCounts !! Derived.id spot) in
         isCount (Ticket.adult ticket) /\ isCount (Ticket.child ticket)
         /\ isCount (Counts.adult counts) /\ isCount (Counts.child counts)
     | None => True
     end.

Definition wholeDay (allowNaN : bool) (d : DerivedDay.t) : Prop :=
  Forall (wholeSpot allowNaN) (DerivedDay.spots d).

Definition tripWorth (tripData : list DerivedDay.t) : Z :=
  foldr (fun d z => dayWorth d + z) 0 tripData.
End Worth.

(** [deleteExpense]: filtering the list of a stop that has none throws. *)
Definition deleteExpense (sid : string) (rid : number) (p : gmap string (list Expense.t))
  : option (gmap string (list Expense.t)) :=
  match p !! sid with
  | Some l => Some (<[sid := List.filter (fun r => strictNe (Expense.id r) rid) l]> p)
  | None => None
  end.

(** ** The sort order of the expense dialog *)

Module SortConfig.
Record t := { key : string; direction : string }.
End SortConfig.

Definition toggleSort (key : string) (p : SortConfig.t) : SortConfig.t :=
  {| SortConfig.key := key;
     SortConfig.direction :=
       if (String.eqb (SortConfig.key p) key
           && String.eqb (SortConfig.direction p) "desc")%bool
       then "asc" else "desc" |}.

(** ** The exchange rate read from a reply

    [res.match(/[\d.]+/g)]: the maximal runs of digits and dots, or
    [null] when there is none. *)

Fixpoint allChars (p : ascii -> bool) (s : string) : bool :=
  match s with
  | EmptyString => true
  | String c s' => p c && allChars p s'
  end.

Definition isDigitOrDot (c : ascii) : bool :=
  let n := Z.of_nat (nat_of_ascii c) in
  ((48 <=? n) && (n <=? 57)) || Ascii.eqb c ".".

Fixpoint runsGo (cur : string) (s : string) : list string :=
  match s with
  | EmptyString =>
      match cur with
      | EmptyString => []
      | _ => [String.rev cur]
      end
  | String c s' =>
      if isDigitOrDot c then runsGo (String c cur) s'
      else match cur with
           | EmptyString => runsGo EmptyString s'
           | _ => String.rev cur :: runsGo EmptyString s'
           end
  end.

Definition matchDigitsAndDots (res : string) : option (list string) :=
  match runsGo EmptyString res with
  | [] => None
  | matches => Some matches
  end.

(** [rate] in [fetchRate]. *)
Definition rateOfReply (res : string) : number :=
  match matchDigitsAndDots res with
  | Some matches => parseFloat (List.last matches "")
  | None => ofZ 1
  end.

(** [data] in [generateGeminiContent]: [base64Image.split(",")[1] || base64Image]. *)
Definition imageData (base64Image : string) : string :=
  orDefault (split "," base64Image !! 1%nat) base64Image.

(** ** The history of the expense dialog *)

Definition sortValue (sortConfig : SortConfig.t) (a : Expense.t) : number :=
  if String.eqb (SortConfig.key sortConfig) "date"
  then orNumber (Expense.timestamp a) (Expense.id a)
  else Expense.amount a.

(** The comparator handed to [sort]. *)
Definition compareExpenses (sortConfig : SortConfig.t) (a b : Expense.t) : number :=
  let valA := sortValue sortConfig a in
  let valB := sortValue sortConfig b in
  if String.eqb (SortConfig.direction sortConfig) "asc"
  then sub valA valB else sub valB valA.

(** [l.sort(comparefn)].  The sort is stable, so its result is determined
    when the comparator is consistent; it is computed by insertion from
    the right, an element going behind the elements it compares greater
    than.  With an inconsistent comparator (one that returns NaN) the
    order is left to the implementation, and this is one such order. *)
Fixpoint insertSorted {A : Type} (comparefn : A -> A -> number) (x : A) (l : list A)
  : list A :=
  match l with
  | [] => [x]
  | y :: l' =>
      if gt (comparefn x y) (ofZ 0) then y :: insertSorted comparefn x l'
      else x :: l
  end.

Definition Array_sort {A : Type} (comparefn : A -> A -> number) (l : list A) : list A :=
  foldr (insertSorted comparefn) [] l.

Definition sortedExpenses (sortConfig : SortConfig.t)
    (expenses : gmap string (list Expense.t)) (id : string) : list Expense.t :=
  Array_sort (compareExpenses sortConfig) (default [] (expenses !! id)).

(** ** Saving expenses

    [new Date(s).getTime()] is left to the host. *)

Class DateHost := { Date_getTime : string -> number }.

Module ExpenseForm.
Record t := { category : string; amount : string; note : string }.
End ExpenseForm.

(** A receipt awaiting confirmation; its [file] is not read here. *)
Module Receipt.
Record t := {
  id : string;
  isAnalyzing : bool;
  isChecked : bool;
  amount : number;
  note : string;
  timestamp : option number
}.
End Receipt.

Definition isDigit (c : ascii) : bool :=
  let n := Z.of_nat (nat_of_ascii c) in (48 <=? n) && (n <=? 57).

(** [s.match(/^\d{4}\/\d{2}\/\d{2}/)] *)
Definition startsWithDate (s : string) : bool :=
  match s with
  | String a (String b (String c (String d (String "/"
      (String e (String f (String "/" (String g (String h _))))))))) =>
      isDigit a && isDigit b && isDigit c && isDigit d
      && isDigit e && isDigit f && isDigit g && isDigit h
  | _ => false
  end.

Definition isNaN (x : number) : bool :=
  match x with
  | S754_nan => true
  | _ => false
  end.

Section Saving.
Context `{DateHost}.

Definition recordTimeOf (timestamp : number) (idx : nat) (p : Receipt.t) : number :=
  let recordTime := add (add timestamp (ofZ (Z.of_nat idx))) (ofZ 1) in
  if startsWithDate (Receipt.note p) then
    let aiDate :=
      Date_getTime (nth 0 (split " " (Receipt.note p)) "" +:+ " "
                    +:+ orDefault (split " " (Receipt.note p) !! 1%nat) "12:00") in
    if negb (isNaN aiDate) then aiDate else recordTime
  else recordTime.

(** The records [pendingReceipts.forEach] pushes, from index [idx] on. *)
Fixpoint receiptRecords (timestamp : number) (idx : nat) (l : list Receipt.t)
  : list Expense.t :=
  match l with
  | [] => []
  | p :: l' =>
      (if Receipt.isChecked p && negb (Receipt.isAnalyzing p)
       then [{| Expense.id := add (add timestamp (ofZ (Z.of_nat idx))) (ofZ 100);
                Expense.timestamp := recordTimeOf timestamp idx p;
                Expense.amount := parseInt (toString (Receipt.amount p));
                Expense.note := Receipt.note p;
                Expense.category := "food" |}]
       else [])
      ++ receiptRecords timestamp (S idx) l'
  end.

(** [newRecs] of [saveExpense], at [timestamp = Date.now()]. *)
Definition newRecs (timestamp : number) (expenseForm : ExpenseForm.t)
    (pendingReceipts : list Receipt.t) : list Expense.t :=
  (if truthy (Some (ExpenseForm.amount expenseForm))
   then [{| Expense.id := timestamp;
            Expense.timestamp := timestamp;
            Expense.amount := parseInt (ExpenseForm.amount expenseForm);
            Expense.note := orDefault (Some (ExpenseForm.note expenseForm)) "手動記帳";
            Expense.category := "food" |}]
   else [])
  ++ receiptRecords timestamp 0 pendingReceipts.

(** [saveExpense] on the expenses of the stop being edited: [None] when
    there is nothing to save, and then nothing changes; otherwise the new
    expenses, and the dialog closes. *)
Definition saveExpense (timestamp : number) (expenseForm : ExpenseForm.t)
    (pendingReceipts : list Receipt.t) (currentEditingSpot : Derived.t)
    (p : gmap string (list Expense.t)) : option (gmap string (list Expense.t)) :=
  match newRecs timestamp expenseForm pendingReceipts with
  | [] => None
  | recs =>
      Some (<[Derived.id currentEditingSpot :=
                default [] (p !! Derived.id currentEditingSpot) ++ recs]> p)
  end.
End Saving.

(** ** Travel minutes on distance strings *)

(** The distance string of [t] tenths of a kilometre, as [toFixed(1)]
    writes it. *)
Definition tenths (t : Z) : string :=
  digitsOf (t / 10) +:+ "." +:+ digitsOf (t mod 10).

(** The walking and driving minutes of [t] tenths are whole, within
    half a minute of [1.5 t] and of [0.15 t + 10], and walking is the
    shorter below 0.7 km and the longer above. *)
Definition travelCheck (t : Z) : bool :=
  let w := travelMinutes "walk" (tenths t) in
  let c := travelMinutes "car" (tenths t) in
  bool_decide (w = ofZ (intOf w)) && bool_decide (c = ofZ (intOf c))
  && (Z.abs (2 * intOf w - 3 * t) <=? 1)
  && (Z.abs (20 * (intOf c - 10) - 3 * t) <=? 10)
  && (if t <? 7 then intOf w <? intOf c else true)
  && (if 7 <? t then intOf c <? intOf w else true).

(** ** A ledger for the examples *)

Module Ledger.

Definition record (id : string) (ticket : option Ticket.t) : Derived.t :=
  {| Derived.spot := Scenario.stop0; Derived.id := id; Derived.time := "09:00";
     Derived.stay := "1.5 hr"; Derived.isDeparted := false;
     Derived.actualDepTime := None; Derived.nextStop := None;
     Derived.nextArrivalTime := ""; Derived.mapcodeDisplay := "GPS";
     Derived.gmapLink := ""; Derived.weather := "sunny"; Derived.temp := "";
     Derived.ticket := ticket |}.

Definition expense (id : Z) (amount : number) : Expense.t :=
  {| Expense.id := ofZ id; Expense.timestamp := ofZ id; Expense.amount := amount;
     Expense.note := "lunch"; Expense.category := "food" |}.

Definition museum : Derived.t :=
  record "d1-s0" (Some {| Ticket.adult := ofZ 500; Ticket.child := ofZ 250 |}).
Definition park : Derived.t := record "d1-s1" None.

Definition day : DerivedDay.t :=
  {| DerivedDay.dayId := "d1"; DerivedDay.title := "Day 1"; DerivedDay.date := "2/14";
     DerivedDay.themeColor := ""; DerivedDay.spots := [museum; park] |}.

Definition expenses : gmap string (list Expense.t) :=
  {[ "d1-s1" := [expense 1 (ofZ 1200); expense 2 (ofZ 300)] ]}.
Definition spoiled : gmap string (list Expense.t) :=
  {[ "d1-s1" := [expense 1 (ofZ 1200); expense 2 nan] ]}.
Definition counts : gmap string Counts.t := ∅.

(** A host on which no string is a date, and a form filled in by hand. *)
Definition noDates : DateHost := {| Date_getTime := fun _ => nan |}.
Definition lunchForm : ExpenseForm.t :=
  {| ExpenseForm.category := "food"; ExpenseForm.amount := "850";
     ExpenseForm.note := "" |}.

End Ledger.

(** * Properties *)

#[global] Arguments timeToMinutes : simpl never.
#[global] Arguments minutesToTimeStr : simpl never.
#[global] Arguments parseStayDuration : simpl never.
#[global] Arguments travelMinutes : simpl never.
#[global] Arguments formatMins : simpl never.
#[global] Arguments toString : simpl never.
#[global] Arguments Number : simpl never.
#[global] Arguments getDistanceFromLatLonInKm : simpl never.
#[global] Arguments nextStopInfoOf : simpl never.
#[global] Arguments spotIdOf : simpl never.
#[global] Arguments add : simpl never.
#[global] Arguments ofZ : simpl never.

(** ** Binary64 arithmetic on integers *)

Lemma digits2_size p : digits2_pos p = Pos.size p.
Proof. induction p; simpl; congruence. Qed.

Lemma digits_log2 p : Zpos (digits2_pos p) = Z.log2 (Zpos p) + 1.
Proof. rewrite digits2_size. destruct p; simpl; lia. Qed.

Lemma fexp_normal e : -1021 <= e -> fexp prec emax e = e - 53.
Proof. unfold fexp, emin, prec, emax. lia. Qed.

Lemma pow2_xO k : 2 ^ Zpos k~0 = 2 ^ Zpos k * 2 ^ Zpos k.
Proof. rewrite Pos2Z.inj_xO, <- Z.pow_add_r by lia. f_equal. lia. Qed.

Lemma pow2_xI k : 2 ^ Zpos k~1 = 2 * (2 ^ Zpos k * 2 ^ Zpos k).
Proof.
  rewrite Pos2Z.inj_xI, <- Z.pow_add_r, <- Z.pow_succ_r by lia. f_equal. lia.
Qed.

Lemma iter_xO p k : Zpos (Pos.iter xO p k) = Zpos p * 2 ^ Zpos k.
Proof.
  revert p. induction k using Pos.peano_ind; intros p.
  - simpl. lia.
  - rewrite Pos.iter_succ, Pos2Z.inj_xO, IHk, Pos2Z.inj_succ, Z.pow_succ_r; lia.
Qed.

(** Shifting right divides the mantissa by the power of two. *)
Lemma shr_1_m r : 0 <= shr_m r -> shr_m (shr_1 r) = shr_m r / 2.
Proof.
  destruct r as [m r s]; simpl. intros Hm.
  destruct m as [|[p|p|]|p]; simpl shr_m; try lia; try reflexivity.
  - rewrite Pos2Z.inj_xI. apply Z.div_unique with 1; lia.
  - rewrite Pos2Z.inj_xO. apply Z.div_unique with 0; lia.
Qed.

Lemma iter_shr_m k : forall r,
  0 <= shr_m r -> shr_m (SpecFloat.iter_pos shr_1 k r) = shr_m r / 2 ^ Zpos k.
Proof.
  induction k as [k IH|k IH|]; intros r Hr; cbn [SpecFloat.iter_pos].
  - assert (H1 : 0 <= shr_m (shr_1 r)) by (rewrite shr_1_m by done; apply Z.div_pos; lia).
    assert (H2 : 0 <= shr_m (SpecFloat.iter_pos shr_1 k (shr_1 r)))
      by (rewrite IH by done; apply Z.div_pos; lia).
    rewrite IH, IH, shr_1_m by done.
    rewrite !Z.div_div by lia. by rewrite pow2_xI.
  - assert (H2 : 0 <= shr_m (SpecFloat.iter_pos shr_1 k r))
      by (rewrite IH by done; apply Z.div_pos; lia).
    rewrite IH, IH by done.
    rewrite !Z.div_div by lia. by rewrite pow2_xO.
  - by rewrite shr_1_m.
Qed.

(** Shifting out zero bits is exact. *)
Lemma shr_1_exact c :
  0 <= c -> shr_1 (Build_shr_record (2 * c) false false) = Build_shr_record c false false.
Proof. intros Hc. by destruct c. Qed.

Lemma iter_shr_exact k : forall c,
  0 <= c ->
  SpecFloat.iter_pos shr_1 k (Build_shr_record (c * 2 ^ Zpos k) false false)
  = Build_shr_record c false false.
Proof.
  induction k as [k IH|k IH|]; intros c Hc; cbn [SpecFloat.iter_pos].
  - rewrite pow2_xI.
    replace (c * (2 * (2 ^ Z.pos k * 2 ^ Z.pos k))) with (2 * (c * 2 ^ Z.pos k * 2 ^ Z.pos k)) by lia.
    rewrite shr_1_exact, IH, IH; [done|lia..].
  - rewrite pow2_xO, Z.mul_assoc, IH, IH; [done|lia..].
  - replace (c * 2 ^ 1) with (2 * c) by lia. by apply shr_1_exact.
Qed.

Lemma round_aux_finish s m e l :
  binary_round_aux prec emax s m e l
  = let '(mrs', e') := shr_fexp prec emax m e l in finish s mrs' e'.
Proof. reflexivity. Qed.

Lemma log2_53 m : 2 ^ 52 <= m < 2 ^ 53 -> Z.log2 m = 52.
Proof. intros. apply Z.log2_unique; lia. Qed.

Lemma Zdigits2_log2 m : 0 < m -> Zdigits2 m = Z.log2 m + 1.
Proof. destruct m; try lia. intros _. apply digits_log2. Qed.

Lemma shr_fexp_none m e l :
  2 ^ 52 <= m < 2 ^ 53 -> -1074 <= e ->
  shr_fexp prec emax m e l = (shr_record_of_loc m l, e).
Proof.
  intros Hm He. unfold shr_fexp.
  rewrite Zdigits2_log2, log2_53, fexp_normal by lia.
  by replace (52 + 1 + e - 53 - e) with 0 by lia.
Qed.

Lemma finish_exact s c e :
  2 ^ 52 <= Zpos c < 2 ^ 53 -> -1074 <= e <= 971 ->
  finish s (Build_shr_record (Zpos c) false false) e = S754_finite s c e.
Proof.
  intros Hc He. unfold finish. cbn [shr_m loc_of_shr_record round_nearest_even].
  rewrite shr_fexp_none by lia. cbn [shr_record_of_loc shr_m].
  unfold emax, prec. destruct (Z.leb_spec e (1024 - 53)); [done|lia].
Qed.

Lemma round_nearest_even_cases m l :
  round_nearest_even m l = m \/ round_nearest_even m l = m + 1.
Proof. destruct l as [|[]]; simpl; auto. destruct (Z.even m); auto. Qed.

Lemma loc_of_record_of m l : loc_of_shr_record (shr_record_of_loc m l) = l.
Proof. by destruct l as [|[]]. Qed.

(** After rounding, the mantissa is the shifted one or its successor,
    at the same exponent or (when the successor is [2^53]) the next. *)
Lemma finish_bounds s mrs e :
  2 ^ 52 <= shr_m mrs < 2 ^ 53 -> -1074 <= e <= 970 ->
  exists m' e',
    finish s mrs e = S754_finite s m' e' /\ e <= e' <= e + 1
    /\ (Zpos m' * 2 ^ (e' - e) = shr_m mrs \/ Zpos m' * 2 ^ (e' - e) = shr_m mrs + 1).
Proof.
  intros Hm He. unfold finish.
  set (m1 := round_nearest_even (shr_m mrs) (loc_of_shr_record mrs)).
  assert (Hm1 : m1 = shr_m mrs \/ m1 = shr_m mrs + 1) by apply round_nearest_even_cases.
  destruct (Z.eq_dec m1 (2 ^ 53)) as [Heq|Hne].
  - (* the mantissa overflowed to 2^53 *)
    unfold shr_fexp. rewrite Zdigits2_log2 by lia.
    replace (Z.log2 m1) with 53 by (rewrite Heq; done).
    rewrite fexp_normal by lia. replace (53 + 1 + e - 53 - e) with 1 by lia.
    rewrite Heq. cbn [shr_record_of_loc shr].
    replace (2 ^ 53) with (2 ^ 52 * 2 ^ 1) by done.
    rewrite (iter_shr_exact 1 (2 ^ 52)) by lia. cbn [shr_m].
    replace (2 ^ 52) with (Zpos (Z.to_pos (2 ^ 52))) at 1 by done.
    cbv iota beta.
    exists (Z.to_pos (2 ^ 52)), (e + 1).
    unfold emax, prec. destruct (Z.leb_spec (e + 1) (1024 - 53)); [|lia].
    split; [done|]. split; [lia|]. right.
    replace (e + 1 - e) with 1 by lia. lia.
  - rewrite shr_fexp_none by lia.
    destruct m1 as [|p|p] eqn:Hp; try lia.
    rewrite loc_of_record_of || idtac. cbn [shr_record_of_loc shr_m].
    exists p, e. unfold emax, prec. destruct (Z.leb_spec e (1024 - 53)); [|lia].
    split; [done|]. split; [lia|]. rewrite Z.sub_diag, Z.mul_1_r. lia.
Qed.

(** The first shift of [binary_round_aux] brings a mantissa of at least
    53 bits down to 53 bits. *)
Lemma shr_fexp_shift m e l :
  2 ^ 52 <= m -> -1074 <= e ->
  let k := Z.log2 m - 52 in
  exists mrs, shr_fexp prec emax m e l = (mrs, e + k) /\ shr_m mrs = m / 2 ^ k.
Proof.
  intros Hm He k. unfold shr_fexp.
  assert (Hl : 52 <= Z.log2 m) by (apply Z.log2_le_pow2; lia).
  rewrite Zdigits2_log2, fexp_normal by lia.
  replace (Z.log2 m + 1 + e - 53 - e) with k by lia.
  destruct k as [|p|p] eqn:Hk; try lia.
  - exists (shr_record_of_loc m l). cbn [shr]. rewrite Z.add_0_r.
    split; [done|]. rewrite Z.div_1_r. by destruct l as [|[]].
  - exists (SpecFloat.iter_pos shr_1 p (shr_record_of_loc m l)). cbn [shr].
    split; [done|]. rewrite iter_shr_m; destruct l as [|[]]; simpl; lia.
Qed.

Lemma shifted_range m :
  2 ^ 52 <= m -> 2 ^ 52 <= m / 2 ^ (Z.log2 m - 52) < 2 ^ 53.
Proof.
  intros Hm.
  assert (Hl : 52 <= Z.log2 m) by (apply Z.log2_le_pow2; lia).
  destruct (Z.log2_spec m) as [Hlo Hhi]; [lia|].
  set (k := Z.log2 m - 52) in *.
  replace (Z.log2 m) with (52 + k) in Hlo by lia.
  replace (Z.succ (Z.log2 m)) with (53 + k) in Hhi by lia.
  rewrite Z.pow_add_r in Hlo, Hhi by lia.
  assert (0 < 2 ^ k) by (apply Z.pow_pos_nonneg; lia).
  split.
  - apply Z.div_le_lower_bound; lia.
  - apply Z.div_lt_upper_bound; lia.
Qed.

(** Rounding a mantissa [q] of at least 53 bits: the result is [q]
    with its low [k] bits cleared, or that plus [2^k]. *)
Lemma round_aux_bounds s q e l :
  2 ^ 52 <= q -> -1074 <= e ->
  let k := Z.log2 q - 52 in
  e + k <= 970 ->
  exists m' e',
    binary_round_aux prec emax s q e l = S754_finite s m' e' /\ e + k <= e' <= e + k + 1
    /\ (Zpos m' * 2 ^ (e' - e) = q / 2 ^ k * 2 ^ k
        \/ Zpos m' * 2 ^ (e' - e) = (q / 2 ^ k + 1) * 2 ^ k).
Proof.
  intros Hq He k Hk.
  assert (Hl : 52 <= Z.log2 q) by (apply Z.log2_le_pow2; lia).
  rewrite round_aux_finish.
  destruct (shr_fexp_shift q e l Hq He) as (mrs & Hs & Hmrs).
  cbv zeta in Hs, Hmrs. fold k in Hs, Hmrs. rewrite Hs.
  pose proof (shifted_range q Hq) as Hr. fold k in Hr. rewrite <- Hmrs in Hr.
  destruct (finish_bounds s mrs (e + k) Hr) as (m' & e' & -> & He' & Hv); [lia|].
  exists m', e'. split; [done|]. split; [lia|].
  replace (e' - e) with (e' - (e + k) + k) by lia.
  rewrite Z.pow_add_r, Z.mul_assoc, <- Hmrs by lia.
  destruct Hv as [-> | ->]; auto.
Qed.

(** ** Integers as numbers *)

Lemma canon_range n :
  0 < n < 2 ^ 53 ->
  0 <= Z.log2 n <= 52 /\ 2 ^ 52 <= n * 2 ^ (52 - Z.log2 n) < 2 ^ 53.
Proof.
  intros Hn.
  assert (Hl : Z.log2 n < 53) by (apply Z.log2_lt_pow2; lia).
  pose proof (Z.log2_nonneg n).
  destruct (Z.log2_spec n) as [Hlo Hhi]; [lia|].
  split; [lia|].
  replace (2 ^ 52) with (2 ^ (Z.log2 n) * 2 ^ (52 - Z.log2 n))
    by (rewrite <- Z.pow_add_r by lia; f_equal; lia).
  replace (2 ^ 53) with (2 ^ Z.succ (Z.log2 n) * 2 ^ (52 - Z.log2 n))
    by (rewrite <- Z.pow_add_r by lia; f_equal; lia).
  assert (0 < 2 ^ (52 - Z.log2 n)) by (apply Z.pow_pos_nonneg; lia).
  split.
  - apply Z.mul_le_mono_nonneg_r; lia.
  - apply Z.mul_lt_mono_pos_r; lia.
Qed.

Lemma canonM_val n : 0 < n < 2 ^ 53 -> Zpos (canonM n) = n * 2 ^ (52 - Z.log2 n).
Proof.
  intros Hn. unfold canonM. destruct (canon_range n Hn). rewrite Z2Pos.id; lia.
Qed.

(** Rounding an exact multiple [n * 2^k] at exponent [-k]. *)
Lemma binary_round_exact s n k M :
  0 < n < 2 ^ 53 -> 0 <= k -> Zpos M = n * 2 ^ k ->
  binary_round prec emax s M (- k) = S754_finite s (canonM n) (canonE n).
Proof.
  intros Hn Hk HM.
  destruct (canon_range n Hn) as [Hl Hc].
  pose proof (canonM_val n Hn) as Hv.
  unfold binary_round.
  rewrite digits_log2, HM, Z.log2_mul_pow2, fexp_normal by lia.
  replace (k + Z.log2 n + 1 + - k - 53) with (canonE n) by (unfold canonE; lia).
  unfold shl_align.
  destruct (canonE n - - k) as [|t|t] eqn:Ht.
  - (* already at the canonical exponent *)
    assert (k = 52 - Z.log2 n) by (unfold canonE in Ht; lia). subst k.
    assert (M = canonM n) by lia. subst M.
    replace (- (52 - Z.log2 n)) with (canonE n) by (unfold canonE; lia).
    rewrite round_aux_finish, shr_fexp_none by (unfold canonE; lia).
    apply finish_exact; unfold canonE; lia.
  - (* too many bits: shift right, exactly *)
    rewrite round_aux_finish. unfold shr_fexp.
    rewrite Zdigits2_log2, HM, Z.log2_mul_pow2, fexp_normal by lia.
    replace (k + Z.log2 n + 1 + - k - 53 - - k) with (Zpos t) by (unfold canonE in Ht; lia).
    cbn [shr shr_record_of_loc].
    replace (n * 2 ^ k) with (Zpos (canonM n) * 2 ^ Zpos t).
    2:{ rewrite Hv, <- Z.mul_assoc, <- Z.pow_add_r by lia. f_equal. f_equal.
        unfold canonE in Ht. lia. }
    rewrite iter_shr_exact by lia.
    replace (- k + Zpos t) with (canonE n) by lia.
    apply finish_exact; unfold canonE; lia.
  - (* too few bits: shift left *)
    assert (Pos.iter xO M t = canonM n) as ->.
    { apply Pos2Z.inj. rewrite iter_xO, HM, Hv, <- Z.mul_assoc, <- Z.pow_add_r by lia.
      f_equal. f_equal. unfold canonE in Ht. lia. }
    rewrite round_aux_finish, shr_fexp_none by (unfold canonE; lia).
    apply finish_exact; unfold canonE; lia.
Qed.

Lemma ofZ_canon n : 0 < n < 2 ^ 53 -> ofZ n = S754_finite false (canonM n) (canonE n).
Proof.
  intros Hn. unfold ofZ, binary_normalize. destruct n as [|p|p]; try lia.
  apply (binary_round_exact false (Zpos p) 0); lia.
Qed.

Lemma normalize_exact n k :
  0 <= n < 2 ^ 53 -> 0 <= k -> binary_normalize prec emax (n * 2 ^ k) (- k) false = ofZ n.
Proof.
  intros Hn Hk. destruct (Z.eq_dec n 0) as [->|Hne]; [done|].
  rewrite ofZ_canon by lia. unfold binary_normalize.
  assert (0 < 2 ^ k) by (apply Z.pow_pos_nonneg; lia).
  destruct (n * 2 ^ k) as [|M|M] eqn:HM; try nia.
  apply binary_round_exact; lia.
Qed.

Lemma ofZ_0 : ofZ 0 = S754_zero false.
Proof. reflexivity. Qed.

Lemma canonE_nonpos n : 0 < n < 2 ^ 53 -> -52 <= canonE n <= 0.
Proof. intros Hn. destruct (canon_range n Hn). unfold canonE. lia. Qed.

Lemma canonM_scaled n : 0 < n < 2 ^ 53 -> Zpos (canonM n) = n * 2 ^ (- canonE n).
Proof.
  intros Hn. rewrite canonM_val by done. f_equal. f_equal. unfold canonE. lia.
Qed.

Lemma shl_align_val m e e' :
  e' <= e -> Zpos (shl_align m e e').1 = Zpos m * 2 ^ (e - e').
Proof.
  intros He. unfold shl_align. destruct (e' - e) as [|t|t] eqn:Ht; simpl.
  - replace (e - e') with 0 by lia. lia.
  - lia.
  - rewrite iter_xO. f_equal. f_equal. lia.
Qed.

(** Sums of integers are exact. *)
Lemma add_ofZ a b :
  0 <= a -> 0 <= b -> a + b < 2 ^ 53 -> add (ofZ a) (ofZ b) = ofZ (a + b).
Proof.
  intros Ha Hb Hab.
  destruct (Z.eq_dec a 0) as [->|Ha0].
  { rewrite ofZ_0. destruct (Z.eq_dec b 0) as [->|Hb0]; [done|].
    rewrite Z.add_0_l, ofZ_canon by lia. done. }
  destruct (Z.eq_dec b 0) as [->|Hb0].
  { rewrite ofZ_0, Z.add_0_r, ofZ_canon by lia. done. }
  rewrite (ofZ_canon a), (ofZ_canon b) by lia.
  pose proof (canonE_nonpos a ltac:(lia)). pose proof (canonE_nonpos b ltac:(lia)).
  unfold add, SFadd. cbn [cond_Zopp].
  assert (exists k, Z.min (canonE a) (canonE b) = - k
                    /\ 0 <= k /\ - k <= canonE a /\ - k <= canonE b)
    as (k & -> & Hk & Hka & Hkb)
    by (exists (- Z.min (canonE a) (canonE b)); lia).
  rewrite !shl_align_val by lia.
  rewrite !canonM_scaled, <- !Z.mul_assoc, <- !Z.pow_add_r by lia.
  replace (- canonE a + (canonE a - - k)) with k by lia.
  replace (- canonE b + (canonE b - - k)) with k by lia.
  rewrite <- Z.mul_add_distr_r.
  apply normalize_exact; lia.
Qed.

Lemma round_aux_exact s n k M :
  0 < n < 2 ^ 53 -> Zpos M = n * 2 ^ k -> 0 <= k -> - canonE n <= k ->
  binary_round_aux prec emax s (Zpos M) (- k) loc_Exact = S754_finite s (canonM n) (canonE n).
Proof.
  intros Hn HM Hk Hc.
  rewrite <- (binary_round_exact s n k M Hn Hk HM).
  unfold binary_round.
  destruct (canon_range n Hn) as [Hl _].
  rewrite digits_log2, HM, Z.log2_mul_pow2, fexp_normal by lia.
  unfold shl_align.
  destruct (k + Z.log2 n + 1 + - k - 53 - - k) as [|t|t] eqn:Ht;
    [by rewrite HM..|].
  exfalso. pose proof (Pos2Z.neg_is_neg t). unfold canonE in Hc. lia.
Qed.

(** Products of integers are exact. *)
Lemma mul_ofZ a b :
  0 <= a < 2 ^ 53 -> 0 <= b < 2 ^ 53 -> a * b < 2 ^ 53 ->
  mul (ofZ a) (ofZ b) = ofZ (a * b).
Proof.
  intros Ha Hb Hab.
  destruct (Z.eq_dec a 0) as [->|Ha0].
  { rewrite ofZ_0. destruct (Z.eq_dec b 0) as [->|Hb0]; [done|].
    rewrite Z.mul_0_l, ofZ_canon by lia. done. }
  destruct (Z.eq_dec b 0) as [->|Hb0].
  { rewrite ofZ_0, Z.mul_0_r, ofZ_canon by nia. done. }
  assert (Ha' : 0 < a < 2 ^ 53) by nia. assert (Hb' : 0 < b < 2 ^ 53) by nia.
  rewrite (ofZ_canon a), (ofZ_canon b), (ofZ_canon (a * b)) by nia.
  pose proof (canonE_nonpos a Ha'). pose proof (canonE_nonpos b Hb').
  pose proof (canonE_nonpos (a * b) ltac:(nia)).
  unfold mul, SFmul. cbn [xorb].
  replace (canonE a + canonE b) with (- (- canonE a + - canonE b)) by lia.
  apply round_aux_exact; try nia.
  - rewrite Pos2Z.inj_mul, !canonM_scaled, Z.pow_add_r by lia. ring.
  - (* the product of two 53-bit mantissas has at least 105 bits *)
    unfold canonE in *.
    assert (Z.log2 a + Z.log2 b <= Z.log2 (a * b)) by (apply Z.log2_mul_below; lia).
    lia.
Qed.

(** Remainders of integers are exact. *)
Lemma rem_ofZ a b :
  0 <= a < 2 ^ 53 -> 0 < b < 2 ^ 53 -> rem (ofZ a) (ofZ b) = ofZ (a mod b).
Proof.
  intros Ha Hb.
  rewrite (ofZ_canon b) by lia.
  destruct (Z.eq_dec a 0) as [->|Ha0]; [done|].
  rewrite (ofZ_canon a) by lia.
  pose proof (canonE_nonpos a ltac:(lia)). pose proof (canonE_nonpos b ltac:(lia)).
  unfold rem. cbn [cond_Zopp].
  assert (exists k, Z.min (canonE a) (canonE b) = - k
                    /\ 0 <= k /\ - k <= canonE a /\ - k <= canonE b)
    as (k & -> & Hk & Hka & Hkb)
    by (exists (- Z.min (canonE a) (canonE b)); lia).
  rewrite !canonM_scaled, <- !Z.mul_assoc, <- !Z.pow_add_r by lia.
  replace (- canonE a + (canonE a - - k)) with k by lia.
  replace (- canonE b + (canonE b - - k)) with k by lia.
  assert (0 < 2 ^ k) by (apply Z.pow_pos_nonneg; lia).
  rewrite Z.mul_mod_distr_r by lia.
  pose proof (Z.mod_pos_bound a b ltac:(lia)).
  apply normalize_exact; lia.
Qed.

(** Integers are their own floor. *)
Lemma floor_ofZ n : 0 <= n < 2 ^ 53 -> Math_floor (ofZ n) = ofZ n.
Proof.
  intros Hn. destruct (Z.eq_dec n 0) as [->|Hn0]; [done|].
  rewrite ofZ_canon by lia. unfold Math_floor.
  pose proof (canonE_nonpos n ltac:(lia)).
  destruct (Z.leb_spec 0 (canonE n)); [done|].
  cbn [cond_Zopp]. rewrite Z.shiftr_div_pow2, canonM_scaled by lia.
  rewrite Z.div_mul by (apply Z.pow_nonzero; lia).
  rewrite <- ofZ_canon by lia. done.
Qed.

(** Order of integers. *)
Lemma ltb_ofZ a b :
  0 <= a < 2 ^ 53 -> 0 <= b < 2 ^ 53 -> SFltb (ofZ a) (ofZ b) = (a <? b).
Proof.
  intros Ha Hb. unfold SFltb.
  destruct (Z.eq_dec a 0) as [->|Ha0]; destruct (Z.eq_dec b 0) as [->|Hb0];
    rewrite ?ofZ_0, ?(ofZ_canon a), ?(ofZ_canon b) by lia; cbn [SFcompare].
  - done.
  - symmetry. apply Z.ltb_lt. lia.
  - symmetry. apply Z.ltb_ge. lia.
  - pose proof (canonM_val a ltac:(lia)) as Hva. pose proof (canonM_val b ltac:(lia)) as Hvb.
    destruct (canon_range a ltac:(lia)) as [Hla Hra].
    destruct (canon_range b ltac:(lia)) as [Hlb Hrb].
    destruct (Z.log2_spec a) as [Hlo Hhi]; [lia|].
    destruct (Z.log2_spec b) as [Hlo' Hhi']; [lia|].
    destruct (Z.compare_spec (canonE a) (canonE b)) as [He|He|He]; unfold canonE in He.
    + (* same exponent: compare the mantissas *)
      rewrite Pos.compare_cont_spec. cbn [Pos.switch_Eq].
      assert (Hee : Z.log2 a = Z.log2 b) by lia.
      assert (0 < 2 ^ (52 - Z.log2 b)) by (apply Z.pow_pos_nonneg; lia).
      rewrite Hee in Hva.
      destruct (Pos.compare_spec (canonM a) (canonM b)) as [Hc|Hc|Hc].
      * symmetry. apply Z.ltb_ge. assert (Zpos (canonM a) = Zpos (canonM b)) by congruence. nia.
      * symmetry. apply Z.ltb_lt. assert (Zpos (canonM a) < Zpos (canonM b)) by lia. nia.
      * symmetry. apply Z.ltb_ge. assert (Zpos (canonM b) < Zpos (canonM a)) by lia. nia.
    + symmetry. apply Z.ltb_lt.
      assert (2 ^ Z.succ (Z.log2 a) <= 2 ^ Z.log2 b) by (apply Z.pow_le_mono_r; lia). lia.
    + symmetry. apply Z.ltb_ge.
      assert (2 ^ Z.succ (Z.log2 b) <= 2 ^ Z.log2 a) by (apply Z.pow_le_mono_r; lia). lia.
Qed.

(** Integers print as their decimal digits. *)
Lemma toString_ofZ n : 0 <= n < 2 ^ 53 -> toString (ofZ n) = pretty (Z.to_N n).
Proof.
  intros Hn. destruct (Z.eq_dec n 0) as [->|Hn0]; [done|].
  rewrite ofZ_canon by lia. unfold toString, toStringPos, integerValue.
  pose proof (canonE_nonpos n ltac:(lia)).
  rewrite canonM_scaled by lia.
  rewrite Z.mod_mul, Z.div_mul by (apply Z.pow_nonzero; lia).
  destruct (Z.leb_spec (canonE n) 0); [|lia]. done.
Qed.

Lemma ofZ_60 : ofZ 60 = S754_finite false 8444249301319680 (-47).
Proof. reflexivity. Qed.

Lemma div_eucl_div_mod a b : Z.div_eucl a b = (a / b, a mod b).
Proof. unfold Z.div, Z.modulo. by destruct (Z.div_eucl a b). Qed.

Lemma div60_core n :
  0 < n < 2 ^ 52 ->
  div (ofZ n) (ofZ 60)
  = binary_round_aux prec emax false (n * 2 ^ (6 - canonE n) / 60) (canonE n - 6)
      (new_location 8444249301319680 ((Zpos (canonM n) * 2 ^ 53) mod 8444249301319680)).
Proof.
  intros Hn. rewrite ofZ_60, ofZ_canon by lia.
  pose proof (canonE_nonpos n ltac:(lia)) as He.
  destruct (canon_range n ltac:(lia)) as [Hl Hr].
  pose proof (canonM_val n ltac:(lia)) as Hv.
  unfold div, SFdiv, SFdiv_core_binary. cbn [xorb].
  rewrite !Zdigits2_log2 by lia.
  rewrite (log2_53 (Zpos (canonM n))) by lia.
  replace (Z.log2 8444249301319680) with 52 by done.
  rewrite fexp_normal by lia.
  replace (Z.min (52 + 1 + canonE n - (52 + 1 + -47) - 53) (canonE n - -47)) with (canonE n - 6) by lia.
  replace (canonE n - -47 - (canonE n - 6)) with 53 by lia.
  rewrite Z.shiftl_mul_pow2 by lia.
  rewrite div_eucl_div_mod.
  f_equal.
  rewrite canonM_scaled by lia.
  assert (0 < 2 ^ (- canonE n)) by (apply Z.pow_pos_nonneg; lia).
  replace (n * 2 ^ (- canonE n) * 2 ^ 53) with (n * 2 ^ (6 - canonE n) * 2 ^ 47).
  2:{ replace (6 - canonE n) with (- canonE n + 6) by lia.
      rewrite Z.pow_add_r by lia. replace (2 ^ 53) with (2 ^ 6 * 2 ^ 47) by done. ring. }
  replace 8444249301319680 with (60 * 2 ^ 47) by done.
  rewrite Z.div_mul_cancel_r; [done | lia | done].
Qed.

Lemma floor_finite m e :
  e < 0 -> 0 <= Zpos m / 2 ^ (- e) < 2 ^ 53 ->
  Math_floor (S754_finite false m e) = ofZ (Zpos m / 2 ^ (- e)).
Proof.
  intros He Hr. unfold Math_floor.
  destruct (Z.leb_spec 0 e); [lia|].
  cbn [cond_Zopp]. by rewrite Z.shiftr_div_pow2 by lia.
Qed.

(** The integer part of a quotient by 60 is the integer quotient. *)
Lemma floor_div60 n :
  0 <= n < 2 ^ 52 -> Math_floor (div (ofZ n) (ofZ 60)) = ofZ (n / 60).
Proof.
  intros Hn. destruct (Z.eq_dec n 0) as [->|Hn0]; [done|].
  rewrite div60_core by lia.
  pose proof (canonE_nonpos n ltac:(lia)) as He.
  destruct (canon_range n ltac:(lia)) as [Hl Hr].
  assert (He1 : canonE n <= -1).
  { unfold canonE. assert (Z.log2 n < 52) by (apply Z.log2_lt_pow2; lia). lia. }
  set (e := canonE n - 6).
  replace (6 - canonE n) with (- e) by (unfold e; lia).
  set (P := 2 ^ (- e)).
  assert (HP : 128 <= P).
  { unfold P. replace 128 with (2 ^ 7) by done. apply Z.pow_le_mono_r; unfold e; lia. }
  assert (HnP : n * P = n * 2 ^ (52 - Z.log2 n) * 64).
  { unfold P, e, canonE. replace (- (Z.log2 n - 52 - 6)) with (52 - Z.log2 n + 6) by lia.
    rewrite Z.pow_add_r by lia. replace (2 ^ 6) with 64 by done. ring. }
  set (q := n * P / 60).
  pose proof (Z.div_mod (n * P) 60 ltac:(lia)) as Hdm. fold q in Hdm.
  pose proof (Z.mod_pos_bound (n * P) 60 ltac:(lia)) as Hmb.
  assert (Hq : 2 ^ 52 <= q < 2 ^ 54) by lia.
  assert (Hk : Z.log2 q = 52 \/ Z.log2 q = 53).
  { assert (52 <= Z.log2 q) by (apply Z.log2_le_pow2; lia).
    assert (Z.log2 q < 54) by (apply Z.log2_lt_pow2; lia). lia. }
  destruct (round_aux_bounds false q e
              (new_location 8444249301319680
                 ((Zpos (canonM n) * 2 ^ 53) mod 8444249301319680)))
    as (m' & e' & -> & He' & HV); [lia | unfold e; lia | unfold e; lia |].
  set (k := Z.log2 q - 52) in *.
  pose proof (Z.div_mod n 60 ltac:(lia)) as HQ.
  pose proof (Z.mod_pos_bound n 60 ltac:(lia)) as HQb.
  set (Q := n / 60) in *.
  (* the value of the result, in units of [2^e], lies in [Q * P, (Q + 1) * P) *)
  set (V := Zpos m' * 2 ^ (e' - e)) in *.
  assert (HPk : P = 2 ^ (- e - k) * 2 ^ k).
  { unfold P. rewrite <- Z.pow_add_r by (unfold e; lia). f_equal. lia. }
  assert (0 < 2 ^ k) by (apply Z.pow_pos_nonneg; lia).
  assert (0 < 2 ^ (- e - k)) by (apply Z.pow_pos_nonneg; unfold e; lia).
  assert (H2k : 2 ^ k <= 2).
  { replace 2 with (2 ^ 1) at 2 by done. apply Z.pow_le_mono_r; lia. }
  pose proof (Z.div_mod q (2 ^ k) ltac:(lia)) as Hqk.
  pose proof (Z.mod_pos_bound q (2 ^ k) ltac:(lia)) as Hqkb.
  set (A := q / 2 ^ k * 2 ^ k) in *.
  assert (HVA : V = A \/ V = A + 2 ^ k).
  { destruct HV as [->| ->]; [by left|right]. unfold A. ring. }
  assert (HAq : A <= q) by (unfold A; lia).
  assert (HQn : 60 * (Q * P) <= n * P).
  { rewrite Z.mul_assoc. apply Z.mul_le_mono_nonneg_r; lia. }
  assert (HnQ : n * P <= 60 * (Q * P) + 59 * P).
  { replace (60 * (Q * P) + 59 * P) with ((60 * Q + 59) * P) by ring.
    apply Z.mul_le_mono_nonneg_r; lia. }
  assert (HVlo : Q * P <= V).
  { assert (Hc : Q * 2 ^ (- e - k) <= q / 2 ^ k).
    { apply Z.div_le_lower_bound; [lia|].
      replace (2 ^ k * (Q * 2 ^ (- e - k))) with (Q * P) by (rewrite HPk; ring).
      apply Z.div_le_lower_bound; lia. }
    replace (Q * P) with (Q * 2 ^ (- e - k) * 2 ^ k) by (rewrite HPk; ring).
    assert (Q * 2 ^ (- e - k) * 2 ^ k <= A)
      by (unfold A; apply Z.mul_le_mono_nonneg_r; lia).
    lia. }
  assert (HVhi : V < (Q + 1) * P).
  { replace ((Q + 1) * P) with (Q * P + P) by ring. lia. }
  assert (HD : P = 2 ^ (- e') * 2 ^ (e' - e)).
  { unfold P. rewrite <- Z.pow_add_r by lia. f_equal. lia. }
  assert (0 < 2 ^ (- e')) by (apply Z.pow_pos_nonneg; lia).
  assert (0 < 2 ^ (e' - e)) by (apply Z.pow_pos_nonneg; lia).
  assert (Hres : Zpos m' / 2 ^ (- e') = Q).
  { symmetry. apply (Z.div_unique _ _ Q (Zpos m' - Q * 2 ^ (- e'))); [|lia].
    left. unfold V in HVlo, HVhi. rewrite HD, !Z.mul_assoc in HVlo, HVhi.
    apply Z.mul_le_mono_pos_r in HVlo; [|lia].
    apply Z.mul_lt_mono_pos_r in HVhi; [|lia]. lia. }
  rewrite floor_finite; rewrite ?Hres; [done | unfold e in *; lia | lia].
Qed.

(** ** Times of day *)

Lemma allBelow_spec n p :
  allBelow n p = true -> forall z, 0 <= z < Z.of_nat n -> p z = true.
Proof.
  induction n as [|n IH]; intros Hp z Hz; [lia|].
  simpl in Hp. apply andb_prop in Hp as [Hn Hp].
  destruct (Z.eq_dec z (Z.of_nat n)) as [->|Hne]; [done|].
  apply IH; [done|lia].
Qed.

Lemma hours_of_day n : 0 <= n -> n / 60 mod 24 = n mod 1440 / 60.
Proof.
  intros Hn. change 1440 with (60 * 24).
  rewrite Z.rem_mul_r by lia.
  rewrite (Z.mul_comm 60), Z.div_add by lia.
  rewrite (Z.div_small (n mod 60)); [lia|]. apply Z.mod_pos_bound. lia.
Qed.

(** The displayed time of an integer minute count is the time of day of
    that count modulo 1440. *)
Lemma minutesToTimeStr_ofZ n :
  0 <= n < 2 ^ 52 -> minutesToTimeStr (ofZ n) = hhmm (n mod 1440 / 60) (n mod 60).
Proof.
  intros Hn. unfold minutesToTimeStr, hhmm, pad2.
  pose proof (Z.mod_pos_bound n 60 ltac:(lia)).
  pose proof (Z.mod_pos_bound (n / 60) 24 ltac:(lia)).
  assert (0 <= n / 60 < 2 ^ 52).
  { split; [apply Z.div_pos; lia|]. apply Z.div_lt_upper_bound; lia. }
  rewrite floor_div60, !rem_ofZ, floor_ofZ, !toString_ofZ by lia.
  by rewrite hours_of_day by lia.
Qed.

Lemma timeToMinutes_hhmm h m :
  0 <= h < 24 -> 0 <= m < 60 -> timeToMinutes (hhmm h m) = ofZ (60 * h + m).
Proof.
  intros Hh Hm.
  assert (Hall : allBelow 1440
            (fun z => bool_decide (timeToMinutes (hhmm (z / 60) (z mod 60)) = ofZ z)) = true)
    by (vm_compute; reflexivity).
  pose proof (allBelow_spec _ _ Hall (60 * h + m) ltac:(lia)) as Hz.
  apply bool_decide_eq_true in Hz.
  replace ((60 * h + m) / 60) with h in Hz.
  2:{ apply (Z.div_unique _ _ h m); lia. }
  replace ((60 * h + m) mod 60) with m in Hz.
  2:{ apply (Z.mod_unique _ _ h m); lia. }
  exact Hz.
Qed.

(** A well-formed time of day is displayed as it was written. *)
Lemma time_roundtrip s :
  wellFormedTime s -> minutesToTimeStr (timeToMinutes s) = s.
Proof.
  intros (h & m & Hh & Hm & ->).
  rewrite timeToMinutes_hhmm, minutesToTimeStr_ofZ by lia.
  f_equal.
  - rewrite Z.mod_small by lia. symmetry. apply (Z.div_unique _ _ h m); lia.
  - symmetry. apply (Z.mod_unique _ _ h m); lia.
Qed.

(** Durations on display: the hour form above 60 minutes only. *)
Lemma formatMins_ofZ n :
  0 <= n < 2 ^ 52 ->
  formatMins (ofZ n)
  = if 60 <? n
    then pretty (Z.to_N (n / 60)) +:+ "h" +:+ pretty (Z.to_N (n mod 60)) +:+ "m"
    else pretty (Z.to_N n) +:+ "m".
Proof.
  intros Hn. unfold formatMins, gt.
  pose proof (Z.mod_pos_bound n 60 ltac:(lia)).
  assert (0 <= n / 60 < 2 ^ 52).
  { split; [apply Z.div_pos; lia|]. apply Z.div_lt_upper_bound; lia. }
  rewrite ltb_ofZ, floor_div60, rem_ofZ, !toString_ofZ by lia. done.
Qed.

(** The hour and minute parts of a time string that are integers give
    the minute count [60 * h + m]. *)
Lemma timeToMinutes_parts t h m rest a b :
  t <> "" -> split ":" t = h :: m :: rest ->
  Number h = ofZ a -> Number m = ofZ b ->
  0 <= a < 2 ^ 40 -> 0 <= b < 2 ^ 40 ->
  timeToMinutes t = ofZ (60 * a + b).
Proof.
  intros Ht Hs Hh Hm Ha Hb. unfold timeToMinutes.
  destruct t as [|c t]; [done|]. rewrite Hs. cbn [map nth].
  rewrite Hh, Hm, mul_ofZ, add_ofZ by lia. f_equal. lia.
Qed.

(** ** The model on examples *)

(** Minute 1500 is shown as one o'clock; a negative count is not a time
    of day. *)
Example minute_1500 : minutesToTimeStr (ofZ 1500) = "01:00".
Proof. vm_compute. reflexivity. Qed.

Example minute_minus_30 : minutesToTimeStr (ofZ (-30)) = "-1:-30".
Proof. vm_compute. reflexivity. Qed.

(** [(4.1 / 4) * 60] is 61.49999999999999 in binary64. *)
Example walk_of_4_1_km : travelMinutes "walk" "4.1" = ofZ 61.
Proof. vm_compute. reflexivity. Qed.

Example drive_of_5_9_km : travelMinutes "car" "5.9" = ofZ 19.
Proof. vm_compute. reflexivity. Qed.

Example sum_of_tenths : toString (add (Number "0.1") (Number "0.2")) = "0.30000000000000004".
Proof. vm_compute. reflexivity. Qed.

Example stay_strings :
  map parseStayDuration ["30 min"; "2 hr"; "0.5 hr"; "soon"; "hr"; "min"]
  = [ofZ 30; ofZ 120; ofZ 30; ofZ 0; nan; nan].
Proof. vm_compute. reflexivity. Qed.

Example strings_to_numbers :
  map (fun s => toString (Number s))
    ["09"; ""; " 12 "; "1e3"; "0x1F"; "-.5"; "35.6895"; "ab"; "1 2"; "12px"]
  = ["9"; "0"; "12"; "1000"; "31"; "-0.5"; "35.6895"; "NaN"; "NaN"; "NaN"].
Proof. vm_compute. reflexivity. Qed.

Example one_decimal :
  map (fun s => toFixed1 (Number s)) ["5.944283984020728"; "0.25"; "0.35"; "-0.04"; "12"; "x"]
  = ["5.9"; "0.3"; "0.3"; "-0.0"; "12.0"; "NaN"].
Proof. vm_compute. reflexivity. Qed.

(** The search for the shortest digits writes the integers from 1 to
    2000 as their decimal digits, as the direct path does. *)
Lemma integers_by_search :
  allBelow 2000
    (fun n => String.eqb (toStringSearch (canonM (n + 1)) (canonE (n + 1)))
                         (pretty (Z.to_N (n + 1)))) = true.
Proof. vm_compute. reflexivity. Qed.

(** ** One stop *)

Section StopFacts.
Context `{MathHost}.
Variables dayStartTimes actualDepartures stays transportModes : gmap string string.

Local Abbreviation callback := (spotCallback actualDepartures stays transportModes).

Lemma hasNext_true day idx :
  hasNext day idx = true <-> (idx + 1 < length (Day.spots day))%nat.
Proof. unfold hasNext. rewrite Z.ltb_lt. lia. Qed.

Lemma callback_time day spot idx c :
  Derived.time (callback day spot idx c).1 = minutesToTimeStr c.
Proof.
  unfold spotCallback, bind, get, put, ret; simpl.
  destruct (departure _ _ _ _) as [[dm dep] adt].
  by destruct (_ <? _).
Qed.

Lemma callback_spot day spot idx c :
  Derived.spot (callback day spot idx c).1 = spot
  /\ Derived.ticket (callback day spot idx c).1 = Spot.ticket spot
  /\ Derived.id (callback day spot idx c).1 = spotIdOf day idx.
Proof.
  unfold spotCallback, bind, get, put, ret; simpl.
  destruct (departure _ _ _ _) as [[dm dep] adt].
  by destruct (_ <? _).
Qed.

Lemma callback_departed day spot idx c :
  let spotId := spotIdOf day idx in
  let r := departure actualDepartures spotId (orDefault (stays !! spotId) "1.5 hr") c in
  Derived.isDeparted (callback day spot idx c).1 = r.1.2
  /\ Derived.actualDepTime (callback day spot idx c).1 = r.2
  /\ Derived.stay (callback day spot idx c).1 = orDefault (stays !! spotId) "1.5 hr".
Proof.
  unfold spotCallback, bind, get, put, ret; simpl.
  destruct (departure _ _ _ _) as [[dm dep] adt].
  by destruct (_ <? _).
Qed.

(** The clock after a stop that has a successor, and the arrival time
    it announces for that successor. *)
Lemma callback_next day spot idx c :
  hasNext day idx = true ->
  let spotId := spotIdOf day idx in
  let nextSpot := Day.spots day !!! (idx + 1)%nat in
  let dist := getDistanceFromLatLonInKm (Spot.lat spot) (Spot.lon spot)
                (Spot.lat nextSpot) (Spot.lon nextSpot) in
  let mode := orDefault (transportModes !! spotId) "car" in
  let c' := add (departure actualDepartures spotId
                   (orDefault (stays !! spotId) "1.5 hr") c).1.1
                (travelMinutes mode dist) in
  (callback day spot idx c).2 = c'
  /\ Derived.nextArrivalTime (callback day spot idx c).1 = minutesToTimeStr c'
  /\ Derived.nextStop (callback day spot idx c).1
     = Some (nextStopInfoOf spot nextSpot dist mode).
Proof.
  intros Hn. unfold spotCallback, bind, get, put, ret; simpl.
  destruct (departure _ _ _ _) as [[dm dep] adt].
  unfold hasNext in Hn. by rewrite Hn.
Qed.

Lemma callback_last day spot idx c :
  hasNext day idx = false ->
  (callback day spot idx c).2 = c
  /\ Derived.nextArrivalTime (callback day spot idx c).1 = ""
  /\ Derived.nextStop (callback day spot idx c).1 = None.
Proof.
  intros Hn. unfold spotCallback, bind, get, put, ret; simpl.
  destruct (departure _ _ _ _) as [[dm dep] adt].
  unfold hasNext in Hn. by rewrite Hn.
Qed.
End StopFacts.

(** ** One day *)

Section DayFacts.
Context `{MathHost}.
Variables dayStartTimes actualDepartures stays transportModes : gmap string string.

Local Abbreviation callback := (spotCallback actualDepartures stays transportModes).
Local Abbreviation arrival :=
  (arrivalMinutes dayStartTimes actualDepartures stays transportModes).

Lemma mapIdx_length {St A B : Type} (f : A -> nat -> State St B) l idx s :
  length (mapIdx f idx l s).1 = length l.
Proof.
  revert idx s. induction l as [|x l IH]; intros idx s; [done|].
  simpl. unfold bind, ret. destruct (f x idx s) as [y s1].
  specialize (IH (S idx) s1). destruct (mapIdx f (S idx) l s1) as [ys s2].
  simpl in *. by rewrite IH.
Qed.

Lemma mapIdx_cons {St A B : Type} (f : A -> nat -> State St B) x l idx s :
  (mapIdx f idx (x :: l) s).1
  = (f x idx s).1 :: (mapIdx f (S idx) l (f x idx s).2).1.
Proof.
  simpl. unfold bind, ret. destruct (f x idx s) as [y s1]; simpl.
  by destruct (mapIdx f (S idx) l s1) as [ys s2].
Qed.

(** The stops of a day from index [i] on, processed from the clock the
    recurrence gives for [i]: the record of stop [i + j] is the one the
    callback builds for it at the time the recurrence gives for it. *)
Lemma spots_from day i l :
  drop i (Day.spots day) = l ->
  forall j d,
    (mapIdx (callback day) i l (arrival day i)).1 !! j = Some d ->
    exists x,
      Day.spots day !! (i + j)%nat = Some x
      /\ d = (callback day x (i + j) (arrival day (i + j))).1.
Proof.
  revert i. induction l as [|x l IH]; intros i Hl j d Hd.
  { by destruct j. }
  assert (Hx : Day.spots day !! i = Some x).
  { rewrite <- (Nat.add_0_r i), <- lookup_drop, Hl. done. }
  assert (Hl' : drop (S i) (Day.spots day) = l).
  { rewrite (drop_S _ _ _ Hx) in Hl. by injection Hl. }
  rewrite mapIdx_cons in Hd. destruct j as [|j]; simpl in Hd.
  - injection Hd as <-. rewrite Nat.add_0_r. by exists x.
  - destruct l as [|x' l']; [by destruct j|].
    assert (Hn : hasNext day i = true).
    { apply hasNext_true. apply lookup_lt_is_Some.
      rewrite <- (Nat.add_0_r (i + 1)), <- lookup_drop.
      replace (i + 1)%nat with (S i) by lia. rewrite Hl'. by eexists. }
    destruct (callback_next actualDepartures stays transportModes day x i (arrival day i) Hn)
      as (Hc & _).
    rewrite Hc in Hd.
    replace (i + S j)%nat with (S i + j)%nat by lia.
    apply (IH (S i) Hl' j d).
    replace (arrival day (S i)) with
      (add (effectiveDeparture actualDepartures stays day i (arrival day i))
           (legMinutes transportModes day i)) by done.
    unfold effectiveDeparture, legMinutes, legMode, legDistance.
    rewrite (list_lookup_total_correct _ _ _ Hx). exact Hd.
Qed.

Local Abbreviation dayOf := (dayCallback dayStartTimes actualDepartures stays transportModes).

Lemma dayCallback_run day c :
  dayOf day c =
  ({| DerivedDay.dayId := Day.dayId day;
      DerivedDay.title := Day.title day;
      DerivedDay.date := Day.date day;
      DerivedDay.themeColor := Day.themeColor day;
      DerivedDay.spots := (mapIdx (callback day) 0 (Day.spots day) (arrival day 0)).1 |},
   (mapIdx (callback day) 0 (Day.spots day) (arrival day 0)).2).
Proof.
  unfold dayCallback, bind, put, ret. cbn [arrivalMinutes startTimeOf].
  by destruct (mapIdx _ _ _ _).
Qed.

(** The clock a day starts from does not matter: the day sets it. *)
Lemma dayCallback_fresh day c c' : dayOf day c = dayOf day c'.
Proof. by rewrite !dayCallback_run. Qed.

(** The record of stop [k] of a processed day. *)
Lemma day_stop day c k d :
  DerivedDay.spots (dayOf day c).1 !! k = Some d ->
  exists x,
    Day.spots day !! k = Some x /\ d = (callback day x k (arrival day k)).1.
Proof.
  rewrite dayCallback_run. cbn [fst DerivedDay.spots]. intros Hd.
  by apply (spots_from day 0 (Day.spots day) eq_refl k d).
Qed.

Lemma day_length day c :
  length (DerivedDay.spots (dayOf day c).1) = length (Day.spots day).
Proof. rewrite dayCallback_run. cbn [fst DerivedDay.spots]. apply mapIdx_length. Qed.

Local Abbreviation engine :=
  (useItineraryCalculation dayStartTimes actualDepartures stays transportModes).

Lemma days_from (days : list Day.t) idx c :
  (mapIdx (fun day (_ : nat) => dayOf day) idx days c).1
  = map (fun day => (dayOf day nan).1) days.
Proof.
  revert idx c. induction days as [|day days IH]; intros idx c; [done|].
  by rewrite mapIdx_cons, IH, (dayCallback_fresh day c nan).
Qed.

(** The engine's result: each day processed on its own. *)
Lemma engine_days rawKml c :
  (engine rawKml c).1 = map (fun day => (dayOf day nan).1) (default [] rawKml).
Proof. apply days_from. Qed.
End DayFacts.

(** * Properties of the engine *)

Section EngineProperties.
Context `{MathHost}.
Variables dayStartTimes actualDepartures stays transportModes : gmap string string.

Local Abbreviation callback := (spotCallback actualDepartures stays transportModes).
Local Abbreviation arrival :=
  (arrivalMinutes dayStartTimes actualDepartures stays transportModes).
Local Abbreviation dayOf := (dayCallback dayStartTimes actualDepartures stays transportModes).
Local Abbreviation effDep := (effectiveDeparture actualDepartures stays).
Local Abbreviation legMins := (legMinutes transportModes).

(** Every stop of every day of the input has its record in the result:
    the one the callback builds at the time the recurrence gives. *)
Lemma engine_stop rawKml c i day k x :
  default [] rawKml !! i = Some day ->
  Day.spots day !! k = Some x ->
  exists od d,
    (useItineraryCalculation dayStartTimes actualDepartures stays transportModes
       rawKml c).1 !! i = Some od
    /\ DerivedDay.spots od !! k = Some d
    /\ od = (dayOf day nan).1
    /\ d = (callback day x k (arrival day k)).1.
Proof.
  intros Hday Hx.
  exists (dayOf day nan).1.
  assert (Hlen : (k < length (DerivedDay.spots (dayOf day nan).1))%nat).
  { rewrite day_length. by apply lookup_lt_Some in Hx. }
  apply lookup_lt_is_Some in Hlen as [d Hd]. exists d.
  split. { by rewrite engine_days, list_lookup_fmap, Hday. }
  split; [done|]. split; [done|].
  destruct (day_stop _ _ _ _ _ _ _ _ Hd) as (x' & Hx' & ->).
  rewrite Hx in Hx'. by injection Hx' as <-.
Qed.



Lemma departure_absent spotId stayStr c :
  truthy (actualDepartures !! spotId) = false ->
  departure actualDepartures spotId stayStr c
  = (add c (parseStayDuration stayStr), false, None).
Proof. unfold departure, truthy. by destruct (actualDepartures !! spotId) as [[|??]|]. Qed.

Lemma departure_present spotId stayStr c v :
  actualDepartures !! spotId = Some v -> v <> "" ->
  departure actualDepartures spotId stayStr c = (timeToMinutes v, true, Some v).
Proof. unfold departure. intros -> Hv. by destruct v. Qed.

Lemma parseStayDuration_values :
  parseStayDuration "1.5 hr" = ofZ 90
  /\ parseStayDuration "45 min" = ofZ 45
  /\ parseStayDuration "-" = ofZ 0
  /\ parseStayDuration "Overnight" = ofZ 0.
Proof. repeat split; vm_compute; reflexivity. Qed.

Lemma add_nan_l x : add nan x = nan.
Proof. by destruct x. Qed.

Lemma add_nan_r x : add x nan = nan.
Proof. by destruct x. Qed.



(** C4.  Stay durations: "1.5 hr" is 90 minutes, "45 min" is 45, "-"
    and "Overnight" are 0; a stop with no entry in the stays map has
    the stay "1.5 hr", hence 90 minutes, and without an actual
    departure leaves 90 minutes after it is reached. *)
Theorem stay_duration_resolution :
  parseStayDuration "1.5 hr" = ofZ 90
  /\ parseStayDuration "45 min" = ofZ 45
  /\ parseStayDuration "-" = ofZ 0
  /\ parseStayDuration "Overnight" = ofZ 0
  /\ (forall day spot idx c,
        stays !! spotIdOf day idx = None ->
        Derived.stay (callback day spot idx c).1 = "1.5 hr"
        /\ parseStayDuration (Derived.stay (callback day spot idx c).1) = ofZ 90
        /\ (truthy (actualDepartures !! spotIdOf day idx) = false ->
            effDep day idx c = add c (ofZ 90))).
Proof.
  destruct parseStayDuration_values as (H90 & H45 & Hdash & Hnight).
  repeat (split; [assumption|]).
  intros day spot idx c Hs.
  destruct (callback_departed actualDepartures stays transportModes day spot idx c)
    as (_ & _ & Hstay).
  rewrite Hstay, Hs. cbn [orDefault]. split; [done|]. split; [exact H90|].
  intros Hno. unfold effectiveDeparture. rewrite Hs. cbn [orDefault].
  by rewrite departure_absent, H90.
Qed.

(** C5.  A stop with an actual-departure override (a non-empty value
    in the map) is marked departed and its effective departure is the
    override, whatever its stay and whenever it is reached; written as
    a well-formed "HH:MM" the override is also the time that departure
    displays as.  A stop without one is not marked departed and leaves
    at its arrival plus its resolved stay. *)
Theorem departure_override rawKml c i day k x :
  default [] rawKml !! i = Some day ->
  Day.spots day !! k = Some x ->
  exists od d,
    (useItineraryCalculation dayStartTimes actualDepartures stays transportModes
       rawKml c).1 !! i = Some od /\ DerivedDay.spots od !! k = Some d
    /\ (forall v,
          actualDepartures !! spotIdOf day k = Some v -> v <> "" ->
          Derived.isDeparted d = true
          /\ Derived.actualDepTime d = Some v
          /\ (forall stayStr reached,
                (departure actualDepartures (spotIdOf day k) stayStr reached).1.1
                = timeToMinutes v)
          /\ effDep day k (arrival day k) = timeToMinutes v
          /\ (wellFormedTime v ->
              minutesToTimeStr (effDep day k (arrival day k)) = v))
    /\ (truthy (actualDepartures !! spotIdOf day k) = false ->
          Derived.isDeparted d = false
          /\ Derived.actualDepTime d = None
          /\ effDep day k (arrival day k)
             = add (arrival day k)
                   (parseStayDuration (orDefault (stays !! spotIdOf day k) "1.5 hr"))).
Proof.
  intros Hday Hx.
  destruct (engine_stop rawKml c i day k x Hday Hx) as (od & d & Hod & Hd & _ & ->).
  exists od. eexists. split; [done|]. split; [done|].
  destruct (callback_departed actualDepartures stays transportModes day x k (arrival day k))
    as (-> & -> & _).
  unfold effectiveDeparture. split.
  - intros v Hv Hne. rewrite !(departure_present _ _ _ v Hv Hne). cbn [fst snd].
    repeat (split; [done|]). split.
    + intros stayStr reached. by rewrite (departure_present _ _ _ v Hv Hne).
    + split; [done|]. apply time_roundtrip.
  - intros Hno. by rewrite !departure_absent.
Qed.

(** C10.  An entry of the actualDepartures map that is the empty
    string counts as no entry: the stop is not marked departed, has no
    actual departure time, and leaves at its arrival plus its stay. *)
Theorem empty_departure_is_absent rawKml c i day k x :
  default [] rawKml !! i = Some day ->
  Day.spots day !! k = Some x ->
  actualDepartures !! spotIdOf day k = Some "" ->
  exists od d,
    (useItineraryCalculation dayStartTimes actualDepartures stays transportModes
       rawKml c).1 !! i = Some od /\ DerivedDay.spots od !! k = Some d
    /\ Derived.isDeparted d = false
    /\ Derived.actualDepTime d = None
    /\ effDep day k (arrival day k)
       = add (arrival day k)
             (parseStayDuration (orDefault (stays !! spotIdOf day k) "1.5 hr")).
Proof.
  intros Hday Hx Hempty.
  destruct (engine_stop rawKml c i day k x Hday Hx) as (od & d & Hod & Hd & _ & ->).
  exists od. eexists. split; [done|]. split; [done|].
  destruct (callback_departed actualDepartures stays transportModes day x k (arrival day k))
    as (-> & -> & _).
  unfold effectiveDeparture.
  assert (Hno : truthy (actualDepartures !! spotIdOf day k) = false) by by rewrite Hempty.
  by rewrite !departure_absent.
Qed.

(** C6, as the code has it.  The drive-time and walk-time strings of a
    leg are [formatMins] of the leg's display minutes; a duration of
    more than 60 minutes is written "{H}h{M}m" with [H] its quotient
    and [M] its remainder by 60, and a duration of at most 60 minutes
    is written "{M}m": exactly 60 minutes is written "60m". *)
Theorem duration_format :
  (forall spot nextSpot dist mode,
     NextStop.driveTime (nextStopInfoOf spot nextSpot dist mode)
     = formatMins (add (Math_round (mul (div (Number dist) (ofZ 40)) (ofZ 60))) (ofZ 10))
     /\ NextStop.walkTime (nextStopInfoOf spot nextSpot dist mode)
        = formatMins (Math_round (mul (div (Number dist) (ofZ 4)) (ofZ 60))))
  /\ (forall n, 60 < n < 2 ^ 52 ->
        formatMins (ofZ n)
        = pretty (Z.to_N (n / 60)) +:+ "h" +:+ pretty (Z.to_N (n mod 60)) +:+ "m")
  /\ (forall n, 0 <= n <= 60 -> formatMins (ofZ n) = pretty (Z.to_N n) +:+ "m")
  /\ formatMins (ofZ 60) = "60m"
  /\ formatMins (ofZ 61) = "1h1m".
Proof.
  split; [done|]. split; [|split].
  - intros n Hn. rewrite formatMins_ofZ by lia.
    by destruct (Z.ltb_spec 60 n); [|lia].
  - intros n Hn. rewrite formatMins_ofZ by lia.
    by destruct (Z.ltb_spec 60 n); [lia|].
  - split; vm_compute; reflexivity.
Qed.

(** The engine's result does not depend on the clock it is started
    with, nor on the clock an earlier invocation left behind. *)
Lemma engine_clock_free rawKml c0 c1 :
  let invoke :=
    useItineraryCalculation dayStartTimes actualDepartures stays transportModes rawKml in
  (invoke c0).1 = (invoke c1).1
  /\ (invoke (invoke c0).2).1 = (invoke c0).1.
Proof. cbv zeta. by rewrite !engine_days. Qed.

Lemma spots_kept day i l c :
  map Derived.spot (mapIdx (callback day) i l c).1 = l
  /\ map Derived.ticket (mapIdx (callback day) i l c).1 = map Spot.ticket l
  /\ map Derived.id (mapIdx (callback day) i l c).1
     = map (spotIdOf day) (seq i (length l)).
Proof.
  revert i c. induction l as [|x l IH]; intros i c; [done|].
  rewrite mapIdx_cons. cbn [map length seq].
  destruct (callback_spot actualDepartures stays transportModes day x i c)
    as (-> & -> & ->).
  destruct (IH (S i) (callback day x i c).2) as (-> & -> & ->). done.
Qed.

(** C9.  The result has the days of the input, in order, each with its
    dayId (and title, date and colour) and with one record per stop, in
    order; the record of a stop carries the stop's reference fields
    (name, lat, lon, map code, description) and its ticket unchanged,
    next to the derived fields. *)
Theorem reference_fields_preserved rawKml c :
  let out :=
    (useItineraryCalculation dayStartTimes actualDepartures stays transportModes rawKml c).1 in
  let days := default [] rawKml in
  map DerivedDay.dayId out = map Day.dayId days
  /\ map DerivedDay.title out = map Day.title days
  /\ map DerivedDay.date out = map Day.date days
  /\ map DerivedDay.themeColor out = map Day.themeColor days
  /\ map (fun od => map Derived.spot (DerivedDay.spots od)) out = map Day.spots days
  /\ map (fun od => map Derived.ticket (DerivedDay.spots od)) out
     = map (fun day => map Spot.ticket (Day.spots day)) days
  /\ map (fun od => length (DerivedDay.spots od)) out
     = map (fun day => length (Day.spots day)) days.
Proof.
  cbv zeta. rewrite engine_days, !map_map.
  repeat split; apply map_ext; intros day; rewrite dayCallback_run; cbn; try done.
  - apply spots_kept.
  - apply spots_kept.
  - apply mapIdx_length.
Qed.
End EngineProperties.

(** ** The engine on a store *)

Lemma after_refl n h : Heap.after n h h.
Proof. by split. Qed.

Lemma after_trans n h1 h2 h3 :
  Heap.after n h1 h2 -> Heap.after n h2 h3 -> Heap.after n h1 h3.
Proof.
  intros [Hb1 Ho1 Hl1] [Hb2 Ho2 Hl2]. split.
  - intros l o Hl Hn. by apply Hb2; [apply Hb1|].
  - intros l o Hl Ho. by apply Ho2; [apply Ho1|].
  - lia.
Qed.

Lemma after_alloc n h o : Heap.after n h (h ++ [o]).
Proof.
  split.
  - intros l o' Hl _. by apply lookup_app_l_Some.
  - intros l o' Hl _. by apply lookup_app_l_Some.
  - rewrite length_app. lia.
Qed.

Lemma after_write n h l c v :
  (n <= l)%nat -> h !! l = Some (Heap.Binding c) ->
  Heap.after n h (<[l := Heap.Binding v]> h).
Proof.
  intros Hn Hl. split.
  - intros l' o Hl' Hlt. rewrite list_lookup_insert_ne by lia. done.
  - intros l' o Hl' Ho. destruct (decide (l = l')) as [<-|Hne].
    + rewrite Hl in Hl'. by injection Hl' as <-.
    + by rewrite list_lookup_insert_ne.
  - by rewrite length_insert.
Qed.

(** What is read off the store is read off every later state. *)
Section Later.
Variables (n : nat) (h h' : Heap.Store).
Hypothesis Hafter : Heap.after n h h'.

Lemma ticketAt_after l t : Heap.ticketAt h l = Some t -> Heap.ticketAt h' l = Some t.
Proof.
  destruct l as [l|]; [|done]. cbn [Heap.ticketAt].
  destruct (h !! l) as [[]|] eqn:Hl; try done.
  by rewrite (Heap.after_object _ _ _ Hafter _ _ Hl).
Qed.

Lemma spotOf_after s x : Heap.spotOf h s = Some x -> Heap.spotOf h' s = Some x.
Proof.
  unfold Heap.spotOf. destruct (Heap.ticketAt h _) as [t|] eqn:Ht; [|done].
  by rewrite (ticketAt_after _ _ Ht).
Qed.

Lemma spotAt_after l x : Heap.spotAt h l = Some x -> Heap.spotAt h' l = Some x.
Proof.
  unfold Heap.spotAt. destruct (h !! l) as [[]|] eqn:Hl; try done.
  rewrite (Heap.after_object _ _ _ Hafter _ _ Hl) by done. apply spotOf_after.
Qed.

Lemma arrayAt_after {A : Type} (f g : Heap.loc -> option A) l xs :
  (forall k x, f k = Some x -> g k = Some x) ->
  Heap.arrayAt f h l = Some xs -> Heap.arrayAt g h' l = Some xs.
Proof.
  intros Hfg. unfold Heap.arrayAt. destruct (h !! l) as [[]|] eqn:Hl; try done.
  rewrite (Heap.after_object _ _ _ Hafter _ _ Hl) by done.
  rewrite !mapM_Some. intros Hall. eapply Forall2_impl; [exact Hall|]. apply Hfg.
Qed.

Lemma dayAt_after l d : Heap.dayAt h l = Some d -> Heap.dayAt h' l = Some d.
Proof.
  unfold Heap.dayAt. destruct (h !! l) as [[]|] eqn:Hl; try done.
  rewrite (Heap.after_object _ _ _ Hafter _ _ Hl) by done.
  destruct (Heap.arrayAt _ h _) as [spots|] eqn:Hs; [|done].
  by rewrite (arrayAt_after _ (Heap.spotAt h') _ _ spotAt_after Hs).
Qed.

Lemma inputAt_after l days : Heap.inputAt h l = Some days -> Heap.inputAt h' l = Some days.
Proof.
  destruct l as [l|]; [|done]. cbn [Heap.inputAt].
  destruct (Heap.arrayAt _ h _) as [ds|] eqn:Hs; [|done].
  by rewrite (arrayAt_after _ (Heap.dayAt h') _ _ dayAt_after Hs).
Qed.

Lemma mapAt_after l m : Heap.mapAt h l = Some m -> Heap.mapAt h' l = Some m.
Proof.
  unfold Heap.mapAt. destruct (h !! l) as [[]|] eqn:Hl; try done.
  by rewrite (Heap.after_object _ _ _ Hafter _ _ Hl).
Qed.

Lemma nextStopAt_after l t : Heap.nextStopAt h l = Some t -> Heap.nextStopAt h' l = Some t.
Proof.
  destruct l as [l|]; [|done]. cbn [Heap.nextStopAt].
  destruct (h !! l) as [[]|] eqn:Hl; try done.
  by rewrite (Heap.after_object _ _ _ Hafter _ _ Hl).
Qed.

Lemma derivedAt_after l d : Heap.derivedAt h l = Some d -> Heap.derivedAt h' l = Some d.
Proof.
  unfold Heap.derivedAt. destruct (h !! l) as [[]|] eqn:Hl; try done.
  rewrite (Heap.after_object _ _ _ Hafter _ _ Hl) by done.
  destruct (Heap.spotOf h _) as [s|] eqn:Hs; [|done].
  destruct (Heap.nextStopAt h _) as [nx|] eqn:Hn; [|done].
  destruct (Heap.ticketAt h _) as [t|] eqn:Ht; [|done].
  by rewrite (spotOf_after _ _ Hs), (nextStopAt_after _ _ Hn), (ticketAt_after _ _ Ht).
Qed.

Lemma derivedDayAt_after l d :
  Heap.derivedDayAt h l = Some d -> Heap.derivedDayAt h' l = Some d.
Proof.
  unfold Heap.derivedDayAt. destruct (h !! l) as [[]|] eqn:Hl; try done.
  rewrite (Heap.after_object _ _ _ Hafter _ _ Hl) by done.
  destruct (Heap.arrayAt _ h _) as [spots|] eqn:Hs; [|done].
  by rewrite (arrayAt_after _ (Heap.derivedAt h') _ _ derivedAt_after Hs).
Qed.

Lemma resultAt_after l out : Heap.resultAt h l = Some out -> Heap.resultAt h' l = Some out.
Proof. apply arrayAt_after, derivedDayAt_after. Qed.
End Later.

(** Running the loads. *)
Lemma andThen_run {A B : Type} (m : Heap.Run A) (k : A -> Heap.Run B) h a h1 :
  m h = Some (a, h1) -> Heap.andThen m k h = k a h1.
Proof. unfold Heap.andThen. by intros ->. Qed.

Lemma loadDay_run h l d : h !! l = Some (Heap.DayObject d) -> Heap.loadDay l h = Some (d, h).
Proof. unfold Heap.loadDay, Heap.andThen, Heap.load. by intros ->. Qed.

Lemma loadSpot_run h l s : h !! l = Some (Heap.SpotObject s) -> Heap.loadSpot l h = Some (s, h).
Proof. unfold Heap.loadSpot, Heap.andThen, Heap.load. by intros ->. Qed.

Lemma loadArray_run h l items :
  h !! l = Some (Heap.ArrayObject items) -> Heap.loadArray l h = Some (items, h).
Proof. unfold Heap.loadArray, Heap.andThen, Heap.load. by intros ->. Qed.

Lemma loadMap_run h l m : Heap.mapAt h l = Some m -> Heap.loadMap l h = Some (m, h).
Proof.
  unfold Heap.mapAt, Heap.loadMap, Heap.andThen, Heap.load.
  destruct (h !! l) as [[]|]; try done. by intros [= ->].
Qed.

Lemma loadBinding_run h l v : h !! l = Some (Heap.Binding v) -> Heap.loadBinding l h = Some (v, h).
Proof. unfold Heap.loadBinding, Heap.andThen, Heap.load. by intros ->. Qed.

Lemma dayAt_inv h l day :
  Heap.dayAt h l = Some day ->
  exists df sl,
    h !! l = Some (Heap.DayObject df)
    /\ h !! Heap.DayCell.spots df = Some (Heap.ArrayObject sl)
    /\ Forall2 (fun k x => Heap.spotAt h k = Some x) sl (Day.spots day)
    /\ Heap.DayCell.dayId df = Day.dayId day
    /\ Heap.DayCell.title df = Day.title day
    /\ Heap.DayCell.date df = Day.date day
    /\ Heap.DayCell.themeColor df = Day.themeColor day.
Proof.
  unfold Heap.dayAt, Heap.arrayAt.
  destruct (h !! l) as [[| |df| | | | |]|] eqn:Hl; try done.
  destruct (h !! Heap.DayCell.spots df) as [[| | |sl| | | |]|] eqn:Hsl; try done.
  destruct (mapM _ sl) as [spots|] eqn:Hs; [|done]. intros [= <-].
  exists df, sl. split; [done|]. split; [done|]. split; [by apply mapM_Some|done].
Qed.

Lemma spotAt_inv h l spot :
  Heap.spotAt h l = Some spot ->
  exists sf,
    h !! l = Some (Heap.SpotObject sf)
    /\ Heap.spotOf h sf = Some spot
    /\ Heap.ticketAt h (Heap.SpotCell.ticket sf) = Some (Spot.ticket spot)
    /\ Heap.SpotCell.name sf = Spot.name spot
    /\ Heap.SpotCell.lat sf = Spot.lat spot
    /\ Heap.SpotCell.lon sf = Spot.lon spot
    /\ Heap.SpotCell.mapCode sf = Spot.mapCode spot.
Proof.
  unfold Heap.spotAt. destruct (h !! l) as [[|sf| | | | | |]|] eqn:Hl; try done.
  intros Hs. exists sf. split; [done|]. split; [done|].
  unfold Heap.spotOf in Hs. destruct (Heap.ticketAt h _) as [t|]; [|done].
  by injection Hs as <-.
Qed.

Lemma write_run h l o o' :
  h !! l = Some o -> Heap.write l o' h = Some (tt, <[l := o']> h).
Proof. unfold Heap.write. by intros ->. Qed.

Section StoreRun.
Context `{MathHost}.
Variables (n : nat) (startsRef departuresRef staysRef modesRef : nat).
Variables dayStartTimes actualDepartures stays transportModes : gmap string string.

Local Abbreviation callback := (spotCallback actualDepartures stays transportModes).
Local Abbreviation callbackOn := (Heap.spotCallback departuresRef staysRef modesRef).

Lemma callback_record day spot idx c :
  let spotId := spotIdOf day idx in
  let r := departure actualDepartures spotId (orDefault (stays !! spotId) "1.5 hr") c in
  (callback day spot idx c).1
  = {| Derived.spot := spot;
       Derived.id := spotId;
       Derived.time := minutesToTimeStr c;
       Derived.stay := orDefault (stays !! spotId) "1.5 hr";
       Derived.isDeparted := r.1.2;
       Derived.actualDepTime := r.2;
       Derived.nextStop := Derived.nextStop (callback day spot idx c).1;
       Derived.nextArrivalTime := Derived.nextArrivalTime (callback day spot idx c).1;
       Derived.mapcodeDisplay := orDefault (Spot.mapCode spot) "GPS";
       Derived.gmapLink :=
         "https://www.google.com/maps/search/?api=1&query="
         +:+ toString (Spot.lat spot) +:+ "," +:+ toString (Spot.lon spot);
       Derived.weather := "sunny";
       Derived.temp := "10" +:+ String degreeSign "C";
       Derived.ticket := Spot.ticket spot |}.
Proof.
  unfold spotCallback, bind, get, put, ret; simpl.
  destruct (departure _ _ _ _) as [[dm dep] adt].
  by destruct (_ <? _).
Qed.

(** The callback on the store allocates the record the callback of the
    engine builds, and leaves in the variable the clock the latter
    leaves. *)
Lemma store_spotCallback h dayL day df sl cl c spotL spot idx :
  h !! dayL = Some (Heap.DayObject df) ->
  h !! Heap.DayCell.spots df = Some (Heap.ArrayObject sl) ->
  Heap.dayAt h dayL = Some day ->
  sl !! idx = Some spotL -> Day.spots day !! idx = Some spot ->
  Heap.mapAt h departuresRef = Some actualDepartures ->
  Heap.mapAt h staysRef = Some stays ->
  Heap.mapAt h modesRef = Some transportModes ->
  h !! cl = Some (Heap.Binding c) -> (n <= cl)%nat ->
  exists dl h',
    callbackOn dayL cl spotL idx h = Some (dl, h')
    /\ Heap.after n h h'
    /\ h' !! cl = Some (Heap.Binding (callback day spot idx c).2)
    /\ Heap.derivedAt h' dl = Some (callback day spot idx c).1.
Proof.
  intros Hd Hsl Hday Hi Hx Hdep Hstay Hmode Hc Hn.
  destruct (dayAt_inv _ _ _ Hday) as (df' & sl' & Hd' & Hsl' & Hall & Hid' & _).
  rewrite Hd in Hd'. injection Hd' as <-. rewrite Hsl in Hsl'. injection Hsl' as <-.
  assert (Hlen : length sl = length (Day.spots day)) by by eapply Forall2_length.
  assert (Hid : Heap.DayCell.dayId df = Day.dayId day) by exact Hid'.
  destruct (Forall2_lookup_l _ _ _ _ _ Hall Hi) as (spot' & Hx' & Hspot).
  rewrite Hx in Hx'. injection Hx' as <-.
  destruct (spotAt_inv _ _ _ Hspot) as (sf & Hsf & Hof & Htick & Hname & Hlat & Hlon & Hcode).
  unfold Heap.spotCallback.
  rewrite (andThen_run _ _ _ _ _ (loadDay_run _ _ _ Hd)). cbv zeta.
  rewrite (andThen_run _ _ _ _ _ (loadMap_run _ _ _ Hstay)).
  rewrite (andThen_run _ _ _ _ _ (loadBinding_run _ _ _ Hc)).
  rewrite (andThen_run _ _ _ _ _ (loadMap_run _ _ _ Hdep)).
  rewrite Hid. fold (spotIdOf day idx).
  pose proof (callback_departed actualDepartures stays transportModes day spot idx c)
    as Hdeparted. cbv zeta in Hdeparted.
  pose proof (callback_time actualDepartures stays transportModes day spot idx c) as Htime.
  pose proof (callback_spot actualDepartures stays transportModes day spot idx c) as Hkept.
  destruct (departure actualDepartures (spotIdOf day idx)
              (orDefault (stays !! spotIdOf day idx) "1.5 hr") c)
    as [[departureMinutes isDeparted] actualDepTime] eqn:Hdm.
  rewrite (andThen_run _ _ _ _ _ (loadArray_run _ _ _ Hsl)).
  rewrite (andThen_run _ _ _ _ _ (loadSpot_run _ _ _ Hsf)).
  rewrite Hlen. fold (hasNext day idx).
  destruct (hasNext day idx) eqn:Hnext.
  - destruct (callback_next actualDepartures stays transportModes day spot idx c Hnext)
      as (Hclock & Harr & Hinfo).
    cbv zeta in Hclock, Harr, Hinfo. rewrite Hdm in Hclock, Harr. cbn [fst] in Hclock, Harr.
    assert (Hlt : (idx + 1 < length (Day.spots day))%nat).
    { apply hasNext_true in Hnext. lia. }
    destruct (lookup_lt_is_Some_2 (Day.spots day) (idx + 1)%nat Hlt) as [nextSpot Hnx].
    destruct (Forall2_lookup_r _ _ _ _ _ Hall Hnx) as (nextL & Hnl & HnextAt).
    destruct (spotAt_inv _ _ _ HnextAt) as (nf & Hnf & _ & _ & Hnname & Hnlat & Hnlon & _).
    rewrite (list_lookup_total_correct _ _ _ Hnx) in Hclock, Harr, Hinfo.
    rewrite Hnl. cbv beta iota.
    set (dist := getDistanceFromLatLonInKm (Spot.lat spot) (Spot.lon spot)
                   (Spot.lat nextSpot) (Spot.lon nextSpot)) in *.
    set (mode := orDefault (transportModes !! spotIdOf day idx) "car") in *.
    set (c' := add departureMinutes (travelMinutes mode dist)) in *.
    assert (Hcl : (cl < length h)%nat) by by eapply lookup_lt_Some.
    set (h1 := <[cl := Heap.Binding c']> h).
    assert (Hc1 : h1 !! cl = Some (Heap.Binding c')) by by apply list_lookup_insert_eq.
    assert (Hlen1 : length h1 = length h) by apply length_insert.
    rewrite (andThen_run _ _ h (Some (length h), minutesToTimeStr c')
               (h1 ++ [Heap.NextStopObject (nextStopInfoOf spot nextSpot dist mode)])).
    2: { rewrite (andThen_run _ _ _ _ _ (loadSpot_run _ _ _ Hnf)). cbv beta zeta.
         rewrite (andThen_run _ _ _ _ _ (loadMap_run _ _ _ Hmode)).
         rewrite Hlat, Hlon, Hnlat, Hnlon, Hnname. fold dist mode c'.
         rewrite (andThen_run _ _ _ _ _ (write_run _ _ _ _ Hc)). fold h1.
         rewrite (andThen_run _ _ _ _ _ (loadBinding_run _ _ _ Hc1)).
         unfold Heap.andThen, Heap.alloc, Heap.pure. by rewrite Hlen1. }
    unfold Heap.alloc. cbn [fst snd]. eexists _, _. split; [reflexivity|].
    set (h2 := h1 ++ _). set (h3 := h2 ++ _).
    assert (Hafter : Heap.after n h h3).
    { eapply after_trans; [by eapply after_write|].
      eapply after_trans; apply after_alloc. }
    split; [exact Hafter|]. split.
    { rewrite Hclock. by do 2 apply lookup_app_l_Some. }
    unfold Heap.derivedAt. subst h3. rewrite list_lookup_middle by done.
    cbn [Heap.DerivedCell.spot Heap.DerivedCell.nextStop Heap.DerivedCell.ticket].
    rewrite (spotOf_after _ _ _ Hafter _ _ Hof), (ticketAt_after _ _ _ Hafter _ _ Htick).
    cbn [Heap.nextStopAt]. subst h2.
    rewrite (lookup_app_l_Some _ _ _ _ (list_lookup_middle h1 [] _ _ (eq_sym Hlen1))).
    cbn [Heap.DerivedCell.id Heap.DerivedCell.time Heap.DerivedCell.stay
         Heap.DerivedCell.isDeparted Heap.DerivedCell.actualDepTime
         Heap.DerivedCell.nextArrivalTime Heap.DerivedCell.mapcodeDisplay
         Heap.DerivedCell.gmapLink Heap.DerivedCell.weather Heap.DerivedCell.temp].
    rewrite callback_record. cbv zeta. rewrite Hdm, Hinfo, Harr, Hlat, Hlon, Hcode. done.
  - destruct (callback_last actualDepartures stays transportModes day spot idx c Hnext)
      as (Hclock & Harr & Hinfo).
    unfold Heap.andThen, Heap.pure, Heap.alloc. cbn [fst snd].
    eexists _, _. split; [reflexivity|].
    assert (Hafter : Heap.after n h (h ++ [Heap.DerivedObject
      {| Heap.DerivedCell.spot := sf;
         Heap.DerivedCell.id := spotIdOf day idx;
         Heap.DerivedCell.time := minutesToTimeStr c;
         Heap.DerivedCell.stay := orDefault (stays !! spotIdOf day idx) "1.5 hr";
         Heap.DerivedCell.isDeparted := isDeparted;
         Heap.DerivedCell.actualDepTime := actualDepTime;
         Heap.DerivedCell.nextStop := None;
         Heap.DerivedCell.nextArrivalTime := "";
         Heap.DerivedCell.mapcodeDisplay := orDefault (Heap.SpotCell.mapCode sf) "GPS";
         Heap.DerivedCell.gmapLink :=
           "https://www.google.com/maps/search/?api=1&query="
           +:+ toString (Heap.SpotCell.lat sf) +:+ "," +:+ toString (Heap.SpotCell.lon sf);
         Heap.DerivedCell.weather := "sunny";
         Heap.DerivedCell.temp := "10" +:+ String degreeSign "C";
         Heap.DerivedCell.ticket := Heap.SpotCell.ticket sf |}]))
      by apply after_alloc.
    split; [exact Hafter|]. split.
    { rewrite Hclock. by apply lookup_app_l_Some. }
    unfold Heap.derivedAt. rewrite list_lookup_middle by done.
    cbn [Heap.DerivedCell.spot Heap.DerivedCell.nextStop Heap.DerivedCell.ticket].
    rewrite (spotOf_after _ _ _ Hafter _ _ Hof), (ticketAt_after _ _ _ Hafter _ _ Htick).
    cbn [Heap.nextStopAt].
    cbn [Heap.DerivedCell.id Heap.DerivedCell.time Heap.DerivedCell.stay
         Heap.DerivedCell.isDeparted Heap.DerivedCell.actualDepTime
         Heap.DerivedCell.nextArrivalTime Heap.DerivedCell.mapcodeDisplay
         Heap.DerivedCell.gmapLink Heap.DerivedCell.weather Heap.DerivedCell.temp].
    rewrite callback_record. cbv zeta. rewrite Hdm, Hinfo, Harr, Hlat, Hlon, Hcode. done.
Qed.

(** The stops of a day from index [idx] on. *)
Lemma store_spots dayL day df sl cl : forall ls idx h c xs,
  h !! dayL = Some (Heap.DayObject df) ->
  h !! Heap.DayCell.spots df = Some (Heap.ArrayObject sl) ->
  Heap.dayAt h dayL = Some day ->
  drop idx sl = ls -> drop idx (Day.spots day) = xs ->
  Heap.mapAt h departuresRef = Some actualDepartures ->
  Heap.mapAt h staysRef = Some stays ->
  Heap.mapAt h modesRef = Some transportModes ->
  h !! cl = Some (Heap.Binding c) -> (n <= cl)%nat ->
  exists dls h',
    Heap.mapRun (callbackOn dayL cl) idx ls h = Some (dls, h')
    /\ Heap.after n h h'
    /\ Forall2 (fun k d => Heap.derivedAt h' k = Some d) dls
         (mapIdx (callback day) idx xs c).1.
Proof.
  induction ls as [|spotL ls IH]; intros idx h c xs Hd Hsl Hday Hls Hxs Hdep Hstay Hmode Hc Hn.
  - destruct (dayAt_inv _ _ _ Hday) as (df' & sl' & Hd' & Hsl' & Hall & _).
    rewrite Hd in Hd'. injection Hd' as <-. rewrite Hsl in Hsl'. injection Hsl' as <-.
    apply (Forall2_drop _ _ _ idx) in Hall. rewrite Hls, Hxs in Hall.
    apply Forall2_nil_inv_l in Hall as ->.
    exists [], h. split; [done|]. split; [apply after_refl|]. constructor.
  - destruct (dayAt_inv _ _ _ Hday) as (df' & sl' & Hd' & Hsl' & Hall & _).
    rewrite Hd in Hd'. injection Hd' as <-. rewrite Hsl in Hsl'. injection Hsl' as <-.
    apply (Forall2_drop _ _ _ idx) in Hall. rewrite Hls, Hxs in Hall.
    apply Forall2_cons_inv_l in Hall as (spot & xs' & _ & _ & ->).
    assert (Hi : sl !! idx = Some spotL).
    { rewrite <- (Nat.add_0_r idx), <- lookup_drop, Hls. done. }
    assert (Hx : Day.spots day !! idx = Some spot).
    { rewrite <- (Nat.add_0_r idx), <- lookup_drop, Hxs. done. }
    destruct (store_spotCallback h dayL day df sl cl c spotL spot idx
                Hd Hsl Hday Hi Hx Hdep Hstay Hmode Hc Hn)
      as (dl & h1 & Hrun & Hafter & Hc1 & Hat).
    destruct (IH (S idx) h1 (callback day spot idx c).2 xs') as (dls & h' & Hrest & Hafter' & Hall').
    + by apply (Heap.after_object _ _ _ Hafter).
    + by apply (Heap.after_object _ _ _ Hafter).
    + by apply (dayAt_after _ _ _ Hafter).
    + rewrite (drop_S _ _ _ Hi) in Hls. by injection Hls.
    + rewrite (drop_S _ _ _ Hx) in Hxs. by injection Hxs.
    + by apply (mapAt_after _ _ _ Hafter).
    + by apply (mapAt_after _ _ _ Hafter).
    + by apply (mapAt_after _ _ _ Hafter).
    + exact Hc1.
    + exact Hn.
    + exists (dl :: dls), h'. split.
      { cbn [Heap.mapRun]. rewrite (andThen_run _ _ _ _ _ Hrun).
        by rewrite (andThen_run _ _ _ _ _ Hrest). }
      split; [by eapply after_trans|].
      rewrite mapIdx_cons. constructor; [|exact Hall'].
      by apply (derivedAt_after _ _ _ Hafter').
Qed.

Local Abbreviation dayOf := (dayCallback dayStartTimes actualDepartures stays transportModes).
Local Abbreviation dayOn := (Heap.dayCallback startsRef departuresRef staysRef modesRef).

(** The day callback on the store allocates the day the day callback of
    the engine builds. *)
Lemma store_dayCallback h dayL day :
  Heap.dayAt h dayL = Some day ->
  Heap.mapAt h startsRef = Some dayStartTimes ->
  Heap.mapAt h departuresRef = Some actualDepartures ->
  Heap.mapAt h staysRef = Some stays ->
  Heap.mapAt h modesRef = Some transportModes ->
  (n <= length h)%nat ->
  exists l h',
    dayOn dayL h = Some (l, h')
    /\ Heap.after n h h'
    /\ Heap.derivedDayAt h' l = Some (dayOf day nan).1.
Proof.
  intros Hday Hstart Hdep Hstay Hmode Hn.
  destruct (dayAt_inv _ _ _ Hday) as (df & sl & Hd & Hsl & Hall & Hid & Htitle & Hdate & Hcolor).
  unfold Heap.dayCallback.
  rewrite (andThen_run _ _ _ _ _ (loadDay_run _ _ _ Hd)).
  rewrite (andThen_run _ _ _ _ _ (loadMap_run _ _ _ Hstart)).
  set (c := timeToMinutes _).
  rewrite (andThen_run _ _ h (length h) (h ++ [Heap.Binding c])) by done.
  assert (Hafter0 : Heap.after n h (h ++ [Heap.Binding c])) by apply after_alloc.
  set (h0 := h ++ [Heap.Binding c]) in *.
  assert (Hsl0 : h0 !! Heap.DayCell.spots df = Some (Heap.ArrayObject sl))
    by by apply (Heap.after_object _ _ _ Hafter0).
  rewrite (andThen_run _ _ _ _ _ (loadArray_run _ _ _ Hsl0)).
  destruct (store_spots dayL day df sl (length h) sl 0%nat h0 c (Day.spots day))
    as (dls & h1 & Hrun & Hafter1 & Hall1).
  { by apply (Heap.after_object _ _ _ Hafter0). }
  { done. }
  { by apply (dayAt_after _ _ _ Hafter0). }
  { done. }
  { done. }
  { by apply (mapAt_after _ _ _ Hafter0). }
  { by apply (mapAt_after _ _ _ Hafter0). }
  { by apply (mapAt_after _ _ _ Hafter0). }
  { by apply list_lookup_middle. }
  { done. }
  rewrite (andThen_run _ _ _ _ _ Hrun).
  unfold Heap.andThen, Heap.alloc. eexists _, _. split; [reflexivity|].
  set (h2 := h1 ++ _). set (h3 := h2 ++ _).
  assert (Hafter2 : Heap.after n h1 h3) by (eapply after_trans; apply after_alloc).
  split; [by eapply after_trans; [|eapply after_trans]|].
  unfold Heap.derivedDayAt. subst h3. rewrite list_lookup_middle by done.
  unfold Heap.arrayAt. cbn [Heap.DayCell.spots]. subst h2.
  rewrite (lookup_app_l_Some _ _ _ _ (list_lookup_middle h1 [] _ _ eq_refl)).
  rewrite (mapM_Some_2 _ _ (mapIdx (callback day) 0 (Day.spots day) c).1).
  2: { eapply Forall2_impl; [exact Hall1|]. intros k d.
       apply (derivedAt_after _ _ _ Hafter2). }
  cbn [Heap.DayCell.dayId Heap.DayCell.title Heap.DayCell.date Heap.DayCell.themeColor].
  rewrite dayCallback_run. cbn [fst arrivalMinutes startTimeOf].
  subst c. by rewrite Hid, Htitle, Hdate, Hcolor.
Qed.

(** The days of the reference data. *)
Lemma store_days : forall ls idx h days,
  Forall2 (fun k d => Heap.dayAt h k = Some d) ls days ->
  Heap.mapAt h startsRef = Some dayStartTimes ->
  Heap.mapAt h departuresRef = Some actualDepartures ->
  Heap.mapAt h staysRef = Some stays ->
  Heap.mapAt h modesRef = Some transportModes ->
  (n <= length h)%nat ->
  exists outs h',
    Heap.mapRun (fun day _ => dayOn day) idx ls h = Some (outs, h')
    /\ Heap.after n h h'
    /\ Forall2 (fun k d => Heap.derivedDayAt h' k = Some d) outs
         (map (fun day => (dayOf day nan).1) days).
Proof.
  induction ls as [|dayL ls IH]; intros idx h days Hall Hstart Hdep Hstay Hmode Hn.
  - apply Forall2_nil_inv_l in Hall as ->.
    exists [], h. split; [done|]. split; [apply after_refl|]. constructor.
  - apply Forall2_cons_inv_l in Hall as (day & days' & Hday & Hall & ->).
    destruct (store_dayCallback h dayL day Hday Hstart Hdep Hstay Hmode Hn)
      as (l & h1 & Hrun & Hafter & Hat).
    destruct (IH (S idx) h1 days') as (outs & h' & Hrest & Hafter' & Hall').
    + eapply Forall2_impl; [exact Hall|]. intros k d.
      apply (dayAt_after _ _ _ Hafter).
    + by apply (mapAt_after _ _ _ Hafter).
    + by apply (mapAt_after _ _ _ Hafter).
    + by apply (mapAt_after _ _ _ Hafter).
    + by apply (mapAt_after _ _ _ Hafter).
    + pose proof (Heap.after_length _ _ _ Hafter). lia.
    + exists (l :: outs), h'. split.
      { cbn [Heap.mapRun]. rewrite (andThen_run _ _ _ _ _ Hrun).
        by rewrite (andThen_run _ _ _ _ _ Hrest). }
      split; [by eapply after_trans|].
      cbn [map]. constructor; [|exact Hall'].
      by apply (derivedDayAt_after _ _ _ Hafter').
Qed.

Local Abbreviation engine :=
  (useItineraryCalculation dayStartTimes actualDepartures stays transportModes).
Local Abbreviation engineOn :=
  (Heap.useItineraryCalculation startsRef departuresRef staysRef modesRef).

(** One invocation of the engine on a store that holds its inputs. *)
Lemma store_engine h rawKmlRef rawKml :
  Heap.inputAt h rawKmlRef = Some rawKml ->
  Heap.mapAt h startsRef = Some dayStartTimes ->
  Heap.mapAt h departuresRef = Some actualDepartures ->
  Heap.mapAt h staysRef = Some stays ->
  Heap.mapAt h modesRef = Some transportModes ->
  (n <= length h)%nat ->
  exists out h',
    engineOn rawKmlRef h = Some (out, h')
    /\ Heap.after n h h'
    /\ forall c, Heap.resultAt h' out = Some (engine rawKml c).1.
Proof.
  intros Hin Hstart Hdep Hstay Hmode Hn. unfold Heap.useItineraryCalculation.
  assert (exists h0 l ls days,
            (match rawKmlRef with
             | Some l => Heap.pure l
             | None => Heap.alloc (Heap.ArrayObject [])
             end) h = Some (l, h0)
            /\ Heap.after n h h0 /\ h0 !! l = Some (Heap.ArrayObject ls)
            /\ Forall2 (fun k d => Heap.dayAt h0 k = Some d) ls days
            /\ days = default [] rawKml)
    as (h0 & l & ls & days & Hrun0 & Hafter0 & Hl & Hall & Hdays).
  { destruct rawKmlRef as [l|]; cbn [Heap.inputAt] in Hin.
    - unfold Heap.arrayAt in Hin.
      destruct (h !! l) as [[| | |ls| | | |]|] eqn:Hl; try done.
      destruct (mapM _ ls) as [days|] eqn:Hds; [|done]. injection Hin as <-.
      exists h, l, ls, days. split; [done|]. split; [apply after_refl|].
      split; [done|]. split; [by apply mapM_Some|done].
    - injection Hin as <-. exists (h ++ [Heap.ArrayObject []]), (length h), [], [].
      split; [done|]. split; [apply after_alloc|].
      split; [by apply list_lookup_middle|]. split; [constructor|done]. }
  rewrite (andThen_run _ _ _ _ _ Hrun0).
  rewrite (andThen_run _ _ _ _ _ (loadArray_run _ _ _ Hl)).
  destruct (store_days ls 0%nat h0 days Hall) as (outs & h1 & Hrun & Hafter1 & Hall1).
  { by apply (mapAt_after _ _ _ Hafter0). }
  { by apply (mapAt_after _ _ _ Hafter0). }
  { by apply (mapAt_after _ _ _ Hafter0). }
  { by apply (mapAt_after _ _ _ Hafter0). }
  { pose proof (Heap.after_length _ _ _ Hafter0). lia. }
  rewrite (andThen_run _ _ _ _ _ Hrun).
  unfold Heap.alloc. eexists _, _. split; [reflexivity|].
  assert (Hafter2 : Heap.after n h1 (h1 ++ [Heap.ArrayObject outs])) by apply after_alloc.
  split; [by eapply after_trans; [|eapply after_trans]|].
  intros c. unfold Heap.resultAt, Heap.arrayAt. rewrite list_lookup_middle by done.
  rewrite engine_days, <- Hdays. apply mapM_Some_2.
  eapply Forall2_impl; [exact Hall1|]. intros k d.
  apply (derivedDayAt_after _ _ _ Hafter2).
Qed.
End StoreRun.

(** C8.  The engine works on references into the store of the
    application.  Invoked on a store that holds the reference data and
    the four override maps, whatever else the store holds, it returns a
    schedule and leaves every cell the store had as it was: the
    reference data and the four maps read as before, nothing else is
    changed, and what the engine writes (the clock of each day) it has
    allocated itself.  The schedule is the one computed from the five
    inputs alone, whatever the rest of the store.  Invoked again on the
    store it leaves behind, it returns the same schedule, and the
    schedule returned first still reads the same. *)
Theorem engine_reinvocable `{MathHost}
    (h : list Heap.Object) rawKmlRef startsRef departuresRef staysRef modesRef
    rawKml dayStartTimes actualDepartures stays transportModes :
  Heap.inputAt h rawKmlRef = Some rawKml ->
  Heap.mapAt h startsRef = Some dayStartTimes ->
  Heap.mapAt h departuresRef = Some actualDepartures ->
  Heap.mapAt h staysRef = Some stays ->
  Heap.mapAt h modesRef = Some transportModes ->
  let invoke :=
    Heap.useItineraryCalculation startsRef departuresRef staysRef modesRef rawKmlRef in
  exists out h',
    invoke h = Some (out, h')
    /\ (forall l o, h !! l = Some o -> h' !! l = Some o)
    /\ Heap.inputAt h' rawKmlRef = Some rawKml
    /\ Heap.mapAt h' startsRef = Some dayStartTimes
    /\ Heap.mapAt h' departuresRef = Some actualDepartures
    /\ Heap.mapAt h' staysRef = Some stays
    /\ Heap.mapAt h' modesRef = Some transportModes
    /\ (forall c,
          Heap.resultAt h' out
          = Some (useItineraryCalculation dayStartTimes actualDepartures stays
                    transportModes rawKml c).1)
    /\ exists out2 h2,
         invoke h' = Some (out2, h2)
         /\ (forall l o, h' !! l = Some o -> h2 !! l = Some o)
         /\ Heap.resultAt h2 out2 = Heap.resultAt h' out
         /\ Heap.resultAt h2 out = Heap.resultAt h' out.
Proof.
  intros Hin Hstart Hdep Hstay Hmode invoke.
  destruct (store_engine (length h) startsRef departuresRef staysRef modesRef
              dayStartTimes actualDepartures stays transportModes h rawKmlRef rawKml
              Hin Hstart Hdep Hstay Hmode (le_n _)) as (out & h' & Hrun & Hafter & Hout).
  exists out, h'. split; [exact Hrun|]. split.
  { intros l o Hl. apply (Heap.after_below _ _ _ Hafter _ _ Hl).
    by eapply lookup_lt_Some. }
  split; [by apply (inputAt_after _ _ _ Hafter)|].
  do 4 (split; [by apply (mapAt_after _ _ _ Hafter)|]).
  split; [exact Hout|].
  destruct (store_engine (length h') startsRef departuresRef staysRef modesRef
              dayStartTimes actualDepartures stays transportModes h' rawKmlRef rawKml)
    as (out2 & h2 & Hrun2 & Hafter2 & Hout2).
  { by apply (inputAt_after _ _ _ Hafter). }
  { by apply (mapAt_after _ _ _ Hafter). }
  { by apply (mapAt_after _ _ _ Hafter). }
  { by apply (mapAt_after _ _ _ Hafter). }
  { by apply (mapAt_after _ _ _ Hafter). }
  { done. }
  exists out2, h2. split; [exact Hrun2|]. split.
  { intros l o Hl. apply (Heap.after_below _ _ _ Hafter2 _ _ Hl).
    by eapply lookup_lt_Some. }
  split.
  - by rewrite (Hout2 nan), (Hout nan).
  - rewrite (Hout nan). apply (resultAt_after _ _ _ Hafter2). apply Hout.
Qed.

(** * The engine on concrete itineraries *)

Import Scenario.

Lemma legCheck_holds : legCheck = true.
Proof. vm_compute. reflexivity. Qed.

(** On any host that agrees with the reference on the leg, the two
    stops are 5.9 km apart. *)
Lemma leg_distance host :
  agreesOnLeg host ->
  getDistanceFromLatLonInKm (H := host)
    (Spot.lat stop0) (Spot.lon stop0) (Spot.lat stop1) (Spot.lon stop1) = "5.9".
Proof.
  intros [Hs1 Hs2 Hc0 Hc1 Ht].
  pose proof legCheck_holds as Hall. unfold legCheck in Hall.
  rewrite forallb_forall in Hall. specialize (Hall _ Hs1).
  rewrite forallb_forall in Hall. specialize (Hall _ Hs2).
  rewrite forallb_forall in Hall. specialize (Hall _ Hc0).
  rewrite forallb_forall in Hall. specialize (Hall _ Hc1).
  cbv zeta in Hall.
  rewrite forallb_forall in Hall. specialize (Hall _ Ht).
  apply String.eqb_eq in Hall.
  unfold kmString, legA, haversineA, halfDLat, halfDLon, rad in Hall.
  exact Hall.
Qed.

Lemma leg_minutes host :
  agreesOnLeg host -> legMinutes (H := host) modes day1 0 = ofZ 19.
Proof.
  intros Ha. unfold legMinutes.
  change (legDistance (H := host) day1 0)
    with (getDistanceFromLatLonInKm (H := host)
            (Spot.lat stop0) (Spot.lon stop0) (Spot.lat stop1) (Spot.lon stop1)).
  rewrite (leg_distance host Ha). vm_compute. reflexivity.
Qed.

Lemma day1_records host :
  run host startTimes noOverrides stayTimes modes [day1]
  = [ (dayCallback (H := host) startTimes noOverrides stayTimes modes day1 nan).1 ].
Proof. unfold run. by rewrite engine_days. Qed.

Lemma day1_times host :
  agreesOnLeg host ->
  times (run host startTimes noOverrides stayTimes modes [day1]) = ["09:00"; "10:49"]
  /\ nextArrivals (run host startTimes noOverrides stayTimes modes [day1]) = ["10:49"; ""].
Proof.
  intros Ha. rewrite day1_records. cbn [times nextArrivals].
  rewrite dayCallback_run. cbn [fst DerivedDay.spots].
  change (Day.spots day1) with [stop0; stop1].
  rewrite !mapIdx_cons. cbn [mapIdx ret fst map].
  rewrite !callback_time.
  set (c0 := arrivalMinutes (H := host) startTimes noOverrides stayTimes modes day1 0).
  destruct (callback_next (H := host) noOverrides stayTimes modes day1 stop0 0 c0 eq_refl)
    as (Hc & Hna & _).
  rewrite Hna, Hc.
  set (c1 := add _ _).
  destruct (callback_last (H := host) noOverrides stayTimes modes day1 stop1 1 c1 eq_refl)
    as (_ & Hl & _).
  rewrite Hl. subst c1 c0.
  change (Day.spots day1 !!! (0 + 1)%nat) with stop1.
  rewrite (leg_distance host Ha).
  split; vm_compute; reflexivity.
Qed.

(** C7, as the code has it.  One day starting at "09:00", stop 0 at
    (35.6895, 139.6917) with stay "1.5 hr" and mode "car", stop 1 at
    (35.6586, 139.7454), on any host that agrees with the reference on the
    leg: stop 0 is reached at "09:00" and left at minute 630, "10:30";
    the distance of the leg is "5.9" km, its travel minutes are
    [round(5.9 / 40 * 60) + 10 = 19], and stop 1 is reached at "10:49". *)
Theorem scenario_result host :
  agreesOnLeg host ->
  let out := run host startTimes noOverrides stayTimes modes [day1] in
  let reached0 :=
    arrivalMinutes (H := host) startTimes noOverrides stayTimes modes day1 0 in
  times out = ["09:00"; "10:49"]
  /\ effectiveDeparture noOverrides stayTimes day1 0 reached0 = ofZ 630
  /\ minutesToTimeStr (ofZ 630) = "10:30"
  /\ legDistance (H := host) day1 0 = "5.9"
  /\ legMinutes (H := host) modes day1 0 = ofZ 19
  /\ Math_round (mul (div (Number "5.9") (ofZ 40)) (ofZ 60)) = ofZ 9
  /\ nextArrivals out = ["10:49"; ""].
Proof.
  intros Ha out reached0.
  destruct (day1_times host Ha) as [Htimes Hnext].
  split; [exact Htimes|].
  split; [vm_compute; reflexivity|].
  split; [vm_compute; reflexivity|].
  split; [exact (leg_distance host Ha)|].
  split; [exact (leg_minutes host Ha)|].
  split; [vm_compute; reflexivity | exact Hnext].
Qed.

Lemma reference_agrees : agreesOnLeg SeriesHost.host.
Proof. split; intros; left; reflexivity. Defined.

Lemma scenario_result_witness :
  agreesOnLeg SeriesHost.host
  /\ times (run SeriesHost.host startTimes noOverrides stayTimes modes [day1])
     = ["09:00"; "10:49"]
  /\ legMinutes (H := SeriesHost.host) modes day1 0 = ofZ 19.
Proof.
  split; [exact reference_agrees|].
  destruct (scenario_result SeriesHost.host reference_agrees)
    as (Htimes & _ & _ & _ & Hleg & _).
  split; [exact Htimes | exact Hleg].
Defined.

(** C7 as stated fails: on the reference host the leg does not take 18
    minutes and stop 1 is not reached at "10:48". *)
Lemma scenario_not_18_minutes :
  ~ (legMinutes (H := SeriesHost.host) modes day1 0 = ofZ 18
     /\ nextArrivals (run SeriesHost.host startTimes noOverrides stayTimes modes [day1])
        = ["10:48"; ""]).
Proof. intros [Hleg _]. vm_compute in Hleg. discriminate Hleg. Qed.


(** C6 as stated fails: a leg of exactly 60 minutes is written "60m",
    not "1h0m"; the walk of 4.0 km is such a leg. *)
Lemma sixty_minutes_format :
  formatMins (ofZ 60) <> "1h0m"
  /\ walkTimes (run SeriesHost.host noOverrides noOverrides noOverrides walkModes [day2])
     = [Some "60m"; None].
Proof. split; [vm_compute; discriminate | vm_compute; reflexivity]. Qed.

(** ** The theorems at work on the itineraries *)




Lemma stay_duration_witness :
  noOverrides !! spotIdOf day1 0 = None
  /\ parseStayDuration
       (Derived.stay
          (spotCallback (H := SeriesHost.host) noOverrides noOverrides modes
             day1 stop0 0 (ofZ 540)).1) = ofZ 90.
Proof.
  assert (H1 : noOverrides !! spotIdOf day1 0 = None) by reflexivity.
  split; [exact H1|].
  exact (proj1 (proj2 (proj2 (proj2 (proj2 (proj2
           (stay_duration_resolution (H := SeriesHost.host) noOverrides noOverrides modes))))
           day1 stop0 0%nat (ofZ 540) H1))).
Defined.

Lemma departure_override_witness :
  default [] (Some [day1]) !! 0%nat = Some day1
  /\ Day.spots day1 !! 0%nat = Some stop0
  /\ departed !! spotIdOf day1 0 = Some "10:05"
  /\ exists od d,
       (useItineraryCalculation (H := SeriesHost.host)
          startTimes departed stayTimes modes (Some [day1]) nan).1 !! 0%nat = Some od
       /\ DerivedDay.spots od !! 0%nat = Some d
       /\ Derived.isDeparted d = true
       /\ Derived.actualDepTime d = Some "10:05".
Proof.
  assert (Hday : default [] (Some [day1]) !! 0%nat = Some day1) by reflexivity.
  assert (H0 : Day.spots day1 !! 0%nat = Some stop0) by reflexivity.
  assert (Hv : departed !! spotIdOf day1 0 = Some "10:05") by (vm_compute; reflexivity).
  split; [exact Hday|]. split; [exact H0|]. split; [exact Hv|].
  destruct (departure_override (H := SeriesHost.host)
              startTimes departed stayTimes modes (Some [day1]) nan 0%nat day1 0%nat
              stop0 Hday H0) as (od & d & Hod & Hd & Hset & _).
  exists od, d. split; [exact Hod|]. split; [exact Hd|].
  destruct (Hset "10:05" Hv ltac:(discriminate)) as (Hdep & Hact & _).
  split; [exact Hdep | exact Hact].
Defined.

Lemma empty_departure_witness :
  default [] (Some [day1]) !! 0%nat = Some day1
  /\ Day.spots day1 !! 0%nat = Some stop0
  /\ emptyDeparture !! spotIdOf day1 0 = Some ""
  /\ exists od d,
       (useItineraryCalculation (H := SeriesHost.host)
          startTimes emptyDeparture stayTimes modes (Some [day1]) nan).1 !! 0%nat = Some od
       /\ DerivedDay.spots od !! 0%nat = Some d
       /\ Derived.isDeparted d = false
       /\ Derived.actualDepTime d = None.
Proof.
  assert (Hday : default [] (Some [day1]) !! 0%nat = Some day1) by reflexivity.
  assert (H0 : Day.spots day1 !! 0%nat = Some stop0) by reflexivity.
  assert (Hv : emptyDeparture !! spotIdOf day1 0 = Some "") by (vm_compute; reflexivity).
  split; [exact Hday|]. split; [exact H0|]. split; [exact Hv|].
  destruct (empty_departure_is_absent (H := SeriesHost.host)
              startTimes emptyDeparture stayTimes modes (Some [day1]) nan 0%nat day1 0%nat
              stop0 Hday H0 Hv) as (od & d & Hod & Hd & Hdep & Hact & _).
  exists od, d. split; [exact Hod|]. split; [exact Hd|].
  split; [exact Hdep | exact Hact].
Defined.

Lemma engine_reinvocable_witness :
  Heap.inputAt StoreScenario.store (Some 8%nat) = Some (Some [day1])
  /\ exists out h',
       Heap.useItineraryCalculation (H := SeriesHost.host) 0 1 2 3 (Some 8%nat)
         StoreScenario.store = Some (out, h')
       /\ h' !! 9%nat = Some (Heap.Binding (ofZ 777))
       /\ Heap.inputAt h' (Some 8%nat) = Some (Some [day1])
       /\ Heap.resultAt h' out
          = Some (run SeriesHost.host startTimes noOverrides stayTimes modes [day1]).
Proof.
  assert (Hin : Heap.inputAt StoreScenario.store (Some 8%nat) = Some (Some [day1]))
    by reflexivity.
  split; [exact Hin|].
  destruct (engine_reinvocable (H := SeriesHost.host) StoreScenario.store (Some 8%nat)
              0 1 2 3 (Some [day1]) startTimes noOverrides stayTimes modes
              Hin eq_refl eq_refl eq_refl eq_refl)
    as (out & h' & Hrun & Hkept & Hin' & _ & _ & _ & _ & Hout & _).
  exists out, h'. split; [exact Hrun|].
  split; [apply Hkept; reflexivity|]. split; [exact Hin'|]. exact (Hout nan).
Defined.

Lemma duration_format_witness :
  60 < 75 < 2 ^ 52 /\ formatMins (ofZ 75) = "1h15m".
Proof.
  assert (H1 : 60 < 75 < 2 ^ 52) by lia.
  split; [exact H1|].
  exact (proj1 (proj2 duration_format) 75 H1).
Defined.

(** * Further properties

    Properties of the helpers, of the engine and of the application
    state around it. *)

(** ** Signed integers *)

Lemma ofZ_neg_canon n :
  0 < n < 2 ^ 53 -> ofZ (- n) = S754_finite true (canonM n) (canonE n).
Proof.
  intros Hn. unfold ofZ, binary_normalize. destruct n as [|p|p]; try lia.
  cbn [Z.opp]. apply (binary_round_exact true (Zpos p) 0); lia.
Qed.

Lemma normalize_signed n k :
  - 2 ^ 53 < n < 2 ^ 53 -> 0 <= k ->
  binary_normalize prec emax (n * 2 ^ k) (- k) false = ofZ n.
Proof.
  intros Hn Hk. destruct (Z.le_gt_cases 0 n) as [Hpos|Hneg].
  { apply normalize_exact; lia. }
  replace n with (- (- n)) by lia. rewrite ofZ_neg_canon by lia.
  assert (0 < 2 ^ k) by (apply Z.pow_pos_nonneg; lia).
  unfold binary_normalize.
  destruct (- - n * 2 ^ k) as [|M|M] eqn:HM; try nia.
  apply binary_round_exact; try lia.
Qed.

(** An integer other than zero, as a number. *)
Lemma ofZ_signed n :
  n <> 0 -> - 2 ^ 53 < n < 2 ^ 53 ->
  ofZ n = S754_finite (n <? 0) (canonM (Z.abs n)) (canonE (Z.abs n)).
Proof.
  intros Hn0 Hn. destruct (Z.ltb_spec n 0).
  - replace n with (- (- n)) at 1 by lia. rewrite ofZ_neg_canon by lia.
    by rewrite Z.abs_neq by lia.
  - rewrite ofZ_canon by lia. by rewrite Z.abs_eq by lia.
Qed.

Lemma cond_Zopp_sign n v : 0 <= v -> cond_Zopp (n <? 0) (Z.abs n * v) = n * v.
Proof.
  intros Hv. destruct (Z.ltb_spec n 0); cbn [cond_Zopp].
  - rewrite Z.abs_neq by lia. lia.
  - rewrite Z.abs_eq by lia. lia.
Qed.

(** Sums of integers of either sign are exact. *)
Lemma add_ofZ_signed a b :
  - 2 ^ 53 < a < 2 ^ 53 -> - 2 ^ 53 < b < 2 ^ 53 -> - 2 ^ 53 < a + b < 2 ^ 53 ->
  add (ofZ a) (ofZ b) = ofZ (a + b).
Proof.
  intros Ha Hb Hab.
  destruct (Z.eq_dec a 0) as [->|Ha0].
  { rewrite ofZ_0. destruct (Z.eq_dec b 0) as [->|Hb0]; [done|].
    rewrite Z.add_0_l, ofZ_signed by lia. done. }
  destruct (Z.eq_dec b 0) as [->|Hb0].
  { rewrite ofZ_0, Z.add_0_r, ofZ_signed by lia. done. }
  rewrite (ofZ_signed a), (ofZ_signed b) by lia.
  pose proof (canonE_nonpos (Z.abs a) ltac:(lia)).
  pose proof (canonE_nonpos (Z.abs b) ltac:(lia)).
  unfold add, SFadd.
  assert (exists k, Z.min (canonE (Z.abs a)) (canonE (Z.abs b)) = - k
                    /\ 0 <= k /\ - k <= canonE (Z.abs a) /\ - k <= canonE (Z.abs b))
    as (k & -> & Hk & Hka & Hkb)
    by (exists (- Z.min (canonE (Z.abs a)) (canonE (Z.abs b))); lia).
  rewrite !shl_align_val by lia.
  rewrite !canonM_scaled, <- !Z.mul_assoc, <- !Z.pow_add_r by lia.
  replace (- canonE (Z.abs a) + (canonE (Z.abs a) - - k)) with k by lia.
  replace (- canonE (Z.abs b) + (canonE (Z.abs b) - - k)) with k by lia.
  assert (0 < 2 ^ k) by (apply Z.pow_pos_nonneg; lia).
  rewrite !cond_Zopp_sign by lia.
  rewrite <- Z.mul_add_distr_r.
  apply normalize_signed; lia.
Qed.

Lemma max_0_ofZ z :
  - 2 ^ 53 < z < 2 ^ 53 -> Math_max (ofZ 0) (ofZ z) = ofZ (Z.max 0 z).
Proof.
  intros Hz. destruct (Z.eq_dec z 0) as [->|Hz0]; [done|].
  rewrite (ofZ_signed z), ofZ_0 by lia.
  destruct (Z.ltb_spec z 0); unfold Math_max, SFltb; cbn [SFcompare].
  - by rewrite Z.max_l by lia.
  - rewrite Z.max_r by lia. rewrite (ofZ_signed z) by lia.
    destruct (Z.ltb_spec z 0); [lia|done].
Qed.

Lemma ofZ_inj a b : 0 <= a < 2 ^ 53 -> 0 <= b < 2 ^ 53 -> ofZ a = ofZ b -> a = b.
Proof.
  intros Ha Hb Hab. apply (f_equal toString) in Hab.
  rewrite !toString_ofZ in Hab by lia.
  apply (inj pretty) in Hab. lia.
Qed.

(** ** Strings *)

Lemma rev_app_rev_app a b c :
  String.rev_app (String.rev_app a b) c = String.rev_app b (a +:+ c).
Proof.
  revert b c. induction a as [|x a IH]; intros b c; [done|].
  cbn [String.rev_app]. by rewrite IH.
Qed.

Lemma rev_rev_app a : String.rev (String.rev_app a "") = a.
Proof.
  unfold String.rev. rewrite rev_app_rev_app. cbn [String.rev_app].
  induction a as [|x a IH]; [done|].
  change (String x (a +:+ "") = String x a). by rewrite IH.
Qed.

Lemma includes_char_cons sep c s :
  includes (String sep "") (String c s) = false <->
  c <> sep /\ includes (String sep "") s = false.
Proof.
  cbn [includes String.prefix].
  destruct (ascii_dec sep c) as [->|Hne].
  - assert (String.prefix "" s = true) as -> by (by destruct s).
    cbn. split; [done|]. by intros [? _].
  - cbn. split; [|by intros [_ ?]]. intros Hs. split; [congruence|done].
Qed.

(** The first piece of a string cut at a separator. *)
Lemma splitGo_piece sep a r cur :
  includes (String sep "") a = false ->
  splitGo sep cur (a +:+ String sep r)
  = String.rev (String.rev_app a cur) :: splitGo sep "" r.
Proof.
  revert cur. induction a as [|c a IH]; intros cur Ha.
  - change ("" +:+ String sep r) with (String sep r).
    cbn [splitGo String.rev_app]. by rewrite Ascii.eqb_refl.
  - apply includes_char_cons in Ha as [Hc Ha].
    change (String c a +:+ String sep r) with (String c (a +:+ String sep r)).
    cbn [splitGo String.rev_app].
    assert (Ascii.eqb c sep = false) as -> by (by apply Ascii.eqb_neq).
    by apply IH.
Qed.

Lemma splitGo_whole sep a cur :
  includes (String sep "") a = false ->
  splitGo sep cur a = [String.rev (String.rev_app a cur)].
Proof.
  revert cur. induction a as [|c a IH]; intros cur Ha; [done|].
  apply includes_char_cons in Ha as [Hc Ha].
  cbn [splitGo String.rev_app].
  assert (Ascii.eqb c sep = false) as -> by (by apply Ascii.eqb_neq).
  by apply IH.
Qed.

Lemma split_piece sep a r :
  includes (String sep "") a = false ->
  split sep (a +:+ String sep r) = a :: split sep r.
Proof.
  intros Ha. unfold split. rewrite splitGo_piece by done. by rewrite rev_rev_app.
Qed.

Lemma split_whole sep a :
  includes (String sep "") a = false -> split sep a = [a].
Proof.
  intros Ha. unfold split. rewrite splitGo_whole by done. by rewrite rev_rev_app.
Qed.

(** X1.  A time string that is not empty and contains no colon parses to
    NaN, whatever its digits: the minute part is missing and nothing
    replaces it. *)
Theorem time_without_colon t :
  t <> "" -> includes ":" t = false -> timeToMinutes t = nan.
Proof.
  intros Ht Hc. unfold timeToMinutes. destruct t as [|c t]; [done|].
  rewrite split_whole by done. cbn [map nth]. apply add_nan_r.
Qed.

Lemma time_without_colon_witness : timeToMinutes "0930" = nan.
Proof. apply time_without_colon; [done|vm_compute; reflexivity]. Defined.

Lemma pad2_parts :
  allBelow 60
    (fun z => bool_decide (Number (pad2 z) = ofZ z)
              && negb (includes ":" (pad2 z))) = true.
Proof. vm_compute. reflexivity. Qed.

Lemma app_assoc_string (a b c : string) : (a +:+ b) +:+ c = a +:+ (b +:+ c).
Proof.
  induction a as [|x a IH]; [done|].
  change (String x ((a +:+ b) +:+ c) = String x (a +:+ b +:+ c)). by rewrite IH.
Qed.

Lemma append_char c s : String c "" +:+ s = String c s.
Proof. reflexivity. Qed.

(** X2.  A time of day followed by a colon and anything else, such as the
    seconds of "HH:MM:SS", parses to the minute count of "HH:MM": only
    the first two parts of the string are read. *)
Theorem seconds_are_ignored h m rest :
  0 <= h < 24 -> 0 <= m < 60 ->
  timeToMinutes (hhmm h m +:+ ":" +:+ rest) = ofZ (60 * h + m).
Proof.
  intros Hh Hm.
  pose proof (allBelow_spec _ _ pad2_parts h ltac:(lia)) as Hph.
  pose proof (allBelow_spec _ _ pad2_parts m ltac:(lia)) as Hpm.
  apply andb_prop in Hph as [Hnh Hch], Hpm as [Hnm Hcm].
  apply bool_decide_eq_true in Hnh, Hnm. apply negb_true_iff in Hch, Hcm.
  apply (timeToMinutes_parts _ (pad2 h) (pad2 m) (split ":" rest) h m); try done; try lia.
  - unfold hhmm. destruct (pad2 h); discriminate.
  - unfold hhmm. rewrite !app_assoc_string.
    rewrite !append_char.
    rewrite split_piece by done. by rewrite split_piece by done.
Qed.

Lemma seconds_are_ignored_witness : timeToMinutes ("10:30" +:+ ":" +:+ "45") = ofZ 630.
Proof. apply (seconds_are_ignored 10 30 "45"); lia. Defined.

(** X3.  The string [minutesToTimeStr] displays for a whole minute count
    parses back, by [timeToMinutes], to that count modulo 1440: the day
    is lost, the minute of the day is kept. *)
Theorem displayed_time_parses_back n :
  0 <= n < 2 ^ 52 -> timeToMinutes (minutesToTimeStr (ofZ n)) = ofZ (n mod 1440).
Proof.
  intros Hn. rewrite minutesToTimeStr_ofZ by done.
  pose proof (Z.mod_pos_bound n 1440 ltac:(lia)).
  pose proof (Z.mod_pos_bound n 60 ltac:(lia)).
  rewrite timeToMinutes_hhmm.
  - f_equal. rewrite <- (Z.mod_mod_divide n 1440 60) by (by exists 24).
    symmetry. apply Z.div_mod. lia.
  - split; [apply Z.div_pos; lia|]. apply Z.div_lt_upper_bound; lia.
  - done.
Qed.

Lemma displayed_time_parses_back_witness :
  timeToMinutes (minutesToTimeStr (ofZ 1500)) = ofZ (1500 mod 1440).
Proof. apply displayed_time_parses_back. lia. Defined.

(** ** Stays written in minutes and in hours *)

Lemma stay_strings_checked :
  allBelow 1440
    (fun n => bool_decide (parseStayDuration (pretty (Z.to_N n) +:+ " min") = ofZ n)) = true
  /\ allBelow 24
       (fun h => bool_decide (parseStayDuration (pretty (Z.to_N h) +:+ " hr") = ofZ (60 * h))
                 && bool_decide (parseStayDuration (pretty (Z.to_N h) +:+ ".5 hr")
                                 = ofZ (60 * h + 30))) = true.
Proof. split; vm_compute; reflexivity. Qed.

(** X4.  Stays written as whole minutes, "N min" for N below 1440, last N
    minutes; stays written as whole or half hours, "H hr" and "H.5 hr"
    for H below 24, last 60 H and 60 H + 30 minutes. *)
Theorem stay_in_minutes_and_hours :
  (forall n, 0 <= n < 1440 ->
     parseStayDuration (pretty (Z.to_N n) +:+ " min") = ofZ n)
  /\ (forall h, 0 <= h < 24 ->
        parseStayDuration (pretty (Z.to_N h) +:+ " hr") = ofZ (60 * h)
        /\ parseStayDuration (pretty (Z.to_N h) +:+ ".5 hr") = ofZ (60 * h + 30)).
Proof.
  destruct stay_strings_checked as [Hmin Hhr]. split.
  - intros n Hn. pose proof (allBelow_spec _ _ Hmin n ltac:(lia)) as Hz.
    by apply bool_decide_eq_true in Hz.
  - intros h Hh. pose proof (allBelow_spec _ _ Hhr h ltac:(lia)) as Hz.
    apply andb_prop in Hz as [H1 H2]. apply bool_decide_eq_true in H1, H2.
    split; [exact H1|exact H2].
Qed.

Lemma stay_in_minutes_and_hours_witness :
  parseStayDuration (pretty (Z.to_N 20) +:+ " min") = ofZ 20
  /\ parseStayDuration (pretty (Z.to_N 2) +:+ ".5 hr") = ofZ (60 * 2 + 30).
Proof.
  destruct stay_in_minutes_and_hours as [H1 H2].
  split; [apply H1; lia|]. apply (H2 2). lia.
Defined.

(** ** Travel minutes *)

Lemma travel_checked : allBelow 2000 travelCheck = true.
Proof. vm_compute. reflexivity. Qed.

(** X5.  For every distance string of less than 200 km, written with one
    decimal as the distance function writes it: the walking and driving
    minutes are whole numbers, within half a minute of 1.5 and of 0.15
    minutes per tenth of a kilometre, the latter plus the 10 minutes of a
    drive; so below 0.7 km the walk is the shorter of the two, and above
    0.7 km the drive. *)
Theorem travel_minutes_on_tenths t :
  0 <= t < 2000 ->
  exists w c,
    travelMinutes "walk" (tenths t) = ofZ w
    /\ travelMinutes "car" (tenths t) = ofZ c
    /\ Z.abs (2 * w - 3 * t) <= 1
    /\ Z.abs (20 * (c - 10) - 3 * t) <= 10
    /\ (t < 7 -> w < c)
    /\ (7 < t -> c < w).
Proof.
  intros Ht. pose proof (allBelow_spec _ _ travel_checked t ltac:(lia)) as Hc.
  unfold travelCheck in Hc. cbv zeta in Hc.
  repeat (apply andb_prop in Hc as [Hc ?]).
  apply bool_decide_eq_true in Hc.
  match goal with H : bool_decide _ = true |- _ => apply bool_decide_eq_true in H end.
  eexists _, _. split; [eassumption|]. split; [eassumption|].
  repeat match goal with H : (_ <=? _) = true |- _ => apply Z.leb_le in H end.
  split; [done|]. split; [done|]. split; intros Hlt.
  - destruct (Z.ltb_spec t 7); [by apply Z.ltb_lt|lia].
  - destruct (Z.ltb_spec 7 t); [by apply Z.ltb_lt|lia].
Qed.

Lemma travel_minutes_on_tenths_witness :
  exists w c,
    travelMinutes "walk" (tenths 41) = ofZ w
    /\ travelMinutes "car" (tenths 41) = ofZ c
    /\ Z.abs (2 * w - 3 * 41) <= 1
    /\ Z.abs (20 * (c - 10) - 3 * 41) <= 10
    /\ (41 < 7 -> w < c)
    /\ (7 < 41 -> c < w).
Proof. apply travel_minutes_on_tenths. lia. Defined.

(** ** More on the engine *)

Lemma spotIdOf_inj day : Inj (=) (=) (spotIdOf day).
Proof.
  intros a b Hab. unfold spotIdOf in Hab.
  apply (inj (append _)) in Hab. apply (inj (append _)) in Hab.
  by apply (inj pretty) in Hab.
Qed.

Lemma mapIdx_ext {St A B : Type} (f g : A -> nat -> State St B) l idx s :
  (forall x i s', f x i s' = g x i s') -> mapIdx f idx l s = mapIdx g idx l s.
Proof.
  intros Hfg. revert idx s. induction l as [|x l IH]; intros idx s; [done|].
  cbn [mapIdx]. unfold bind. rewrite Hfg. destruct (g x idx s) as [y s1].
  by rewrite IH.
Qed.

Section EngineExtras.
Context `{MathHost}.
Variables dayStartTimes actualDepartures stays transportModes : gmap string string.

Local Abbreviation callback := (spotCallback actualDepartures stays transportModes).
Local Abbreviation arrival :=
  (arrivalMinutes dayStartTimes actualDepartures stays transportModes).
Local Abbreviation dayOf := (dayCallback dayStartTimes actualDepartures stays transportModes).

(** X6.  In the engine's result the last stop of a day has no next stop and
    an empty next arrival time; a stop with a successor has a next stop,
    named after the successor, whose distance is the distance string of
    the leg followed by " km". *)
Theorem next_stop_unless_last rawKml c i day k x :
  default [] rawKml !! i = Some day ->
  Day.spots day !! k = Some x ->
  exists od d,
    (useItineraryCalculation dayStartTimes actualDepartures stays transportModes
       rawKml c).1 !! i = Some od
    /\ DerivedDay.spots od !! k = Some d
    /\ (S k = length (Day.spots day) ->
        Derived.nextStop d = None /\ Derived.nextArrivalTime d = "")
    /\ (forall x', Day.spots day !! S k = Some x' ->
        exists info,
          Derived.nextStop d = Some info
          /\ NextStop.name info = Spot.name x'
          /\ NextStop.distance info
             = getDistanceFromLatLonInKm (Spot.lat x) (Spot.lon x) (Spot.lat x') (Spot.lon x')
               +:+ " km").
Proof.
  intros Hday Hx.
  destruct (engine_stop dayStartTimes actualDepartures stays transportModes
              rawKml c i day k x Hday Hx) as (od & d & Hod & Hd & _ & ->).
  exists od, (callback day x k (arrival day k)).1.
  split; [done|]. split; [done|]. split.
  - intros Hlast.
    assert (Hn : hasNext day k = false).
    { unfold hasNext. apply Z.ltb_ge. lia. }
    by destruct (callback_last actualDepartures stays transportModes day x k (arrival day k) Hn)
      as (_ & ? & ?).
  - intros x' Hx'.
    assert (Hn : hasNext day k = true).
    { apply hasNext_true. apply lookup_lt_Some in Hx'. lia. }
    destruct (callback_next actualDepartures stays transportModes day x k (arrival day k) Hn)
      as (_ & _ & Hnext).
    eexists. split; [exact Hnext|].
    replace (k + 1)%nat with (S k) by lia.
    rewrite (list_lookup_total_correct _ _ _ Hx'). done.
Qed.

Lemma ids_from day i l c :
  map Derived.id (mapIdx (callback day) i l c).1 = map (spotIdOf day) (seq i (length l)).
Proof.
  revert i c. induction l as [|x l IH]; intros i c; [done|].
  rewrite mapIdx_cons. cbn [map length seq]. rewrite IH. f_equal.
  by destruct (callback_spot actualDepartures stays transportModes day x i c) as (_ & _ & ?).
Qed.

(** X7.  The ids of the stops of a derived day are dayId-s0, dayId-s1, ...
    in order, and no two stops of a day have the same id: within a day
    an override never reaches two stops. *)
Theorem stop_ids_distinct rawKml c :
  Forall (fun od =>
            map Derived.id (DerivedDay.spots od)
            = map (fun k : nat => DerivedDay.dayId od +:+ "-s" +:+ pretty k)
                  (seq 0 (length (DerivedDay.spots od)))
            /\ NoDup (map Derived.id (DerivedDay.spots od)))
         (useItineraryCalculation dayStartTimes actualDepartures stays transportModes
            rawKml c).1.
Proof.
  rewrite engine_days. apply Forall_fmap, Forall_forall. intros day _.
  cbn [compose]. rewrite dayCallback_run. cbn [fst DerivedDay.spots DerivedDay.dayId].
  rewrite ids_from, mapIdx_length. split; [done|].
  apply NoDup_fmap_2; [apply spotIdOf_inj|apply NoDup_seq].
Qed.

(** X8.  The result on a list of days followed by another is the result on
    the first followed by the result on the second, from whatever
    clocks: the clock of a day does not reach the next day. *)
Theorem days_are_independent days1 days2 c c1 c2 :
  (useItineraryCalculation dayStartTimes actualDepartures stays transportModes
     (Some (days1 ++ days2)) c).1
  = (useItineraryCalculation dayStartTimes actualDepartures stays transportModes
       (Some days1) c1).1
    ++ (useItineraryCalculation dayStartTimes actualDepartures stays transportModes
          (Some days2) c2).1.
Proof. rewrite !engine_days. cbn [default]. apply map_app. Qed.

End EngineExtras.

(** ** The engine on two states of the overrides *)

Section TwoStates.
Context `{MathHost}.
Variables dayStartTimes actualDepartures stays transportModes : gmap string string.
Variables dayStartTimes' actualDepartures' stays' transportModes' : gmap string string.

Local Abbreviation callback := (spotCallback actualDepartures stays transportModes).
Local Abbreviation callback' := (spotCallback actualDepartures' stays' transportModes').
Local Abbreviation arrival :=
  (arrivalMinutes dayStartTimes actualDepartures stays transportModes).
Local Abbreviation arrival' :=
  (arrivalMinutes dayStartTimes' actualDepartures' stays' transportModes').

Local Abbreviation same :=
  (sameOverrides actualDepartures stays transportModes
                 actualDepartures' stays' transportModes').

Lemma departure_agree id s c :
  orDefault (actualDepartures !! id) "" = orDefault (actualDepartures' !! id) "" ->
  departure actualDepartures id s c = departure actualDepartures' id s c.
Proof.
  unfold departure.
  destruct (actualDepartures !! id) as [[|a v]|], (actualDepartures' !! id) as [[|a' v']|];
    cbn [orDefault]; intros Hd; try done; by injection Hd as -> ->.
Qed.

Lemma callback_agree day spot idx c :
  same (spotIdOf day idx) ->
  callback day spot idx c = callback' day spot idx c.
Proof.
  intros (Hd & Hs & Hm). unfold spotCallback, bind, get.
  by rewrite Hs, Hm, (departure_agree _ _ _ Hd).
Qed.

Lemma arrival_agree day k :
  startTimeOf dayStartTimes day = startTimeOf dayStartTimes' day ->
  (forall j, (j < k)%nat -> same (spotIdOf day j)) ->
  forall j, (j <= k)%nat -> arrival day j = arrival' day j.
Proof.
  intros Hst Hsame. induction j as [|j IH]; intros Hj.
  - cbn [arrivalMinutes]. by rewrite Hst.
  - cbn [arrivalMinutes]. rewrite IH by lia.
    destruct (Hsame j ltac:(lia)) as (Hd & Hs & Hm).
    unfold effectiveDeparture, legMinutes, legMode.
    by rewrite Hs, Hm, (departure_agree _ _ _ Hd).
Qed.

End TwoStates.

Section TwoStatesDays.
Context `{MathHost}.
Variables dayStartTimes actualDepartures stays transportModes : gmap string string.
Variables dayStartTimes' actualDepartures' stays' transportModes' : gmap string string.

Local Abbreviation same :=
  (sameOverrides actualDepartures stays transportModes
                 actualDepartures' stays' transportModes').

(** A day whose start time and stops are read alike gives the same
    derived day. *)
Lemma day_agree day c c' :
  startTimeOf dayStartTimes day = startTimeOf dayStartTimes' day ->
  (forall id, same id) ->
  (dayCallback dayStartTimes actualDepartures stays transportModes day c).1
  = (dayCallback dayStartTimes' actualDepartures' stays' transportModes' day c').1.
Proof.
  intros Hst Hsame. rewrite !dayCallback_run. cbn [fst arrivalMinutes].
  rewrite Hst. f_equal. f_equal. apply mapIdx_ext. intros x i s'.
  by apply callback_agree.
Qed.

Lemma engine_agree rawKml c c' :
  (forall day, day ∈ default [] rawKml ->
     startTimeOf dayStartTimes day = startTimeOf dayStartTimes' day) ->
  (forall id, same id) ->
  (useItineraryCalculation dayStartTimes actualDepartures stays transportModes rawKml c).1
  = (useItineraryCalculation dayStartTimes' actualDepartures' stays' transportModes'
       rawKml c').1.
Proof.
  intros Hst Hsame. rewrite !engine_days.
  apply list_eq. intros i. rewrite !list_lookup_fmap.
  destruct (default [] rawKml !! i) as [day|] eqn:Hday; [|done].
  cbn [fmap option_fmap option_map]. f_equal.
  apply day_agree; [|done]. apply Hst. by eapply list_elem_of_lookup_2.
Qed.

(** X9.  Two states of the overrides that give a day the same start time
    and the same entries for its stops before stop [k] give the same
    records for the stops before [k] and the same arrival time at stop
    [k]: an override of stop [k] or of a later stop changes nothing
    earlier in the day. *)
Theorem earlier_stops_unaffected rawKml c c' i day k :
  default [] rawKml !! i = Some day ->
  dayStartTimes !! Day.dayId day = dayStartTimes' !! Day.dayId day ->
  (forall j, (j < k)%nat ->
     actualDepartures !! spotIdOf day j = actualDepartures' !! spotIdOf day j
     /\ stays !! spotIdOf day j = stays' !! spotIdOf day j
     /\ transportModes !! spotIdOf day j = transportModes' !! spotIdOf day j) ->
  exists od od',
    (useItineraryCalculation dayStartTimes actualDepartures stays transportModes
       rawKml c).1 !! i = Some od
    /\ (useItineraryCalculation dayStartTimes' actualDepartures' stays' transportModes'
          rawKml c').1 !! i = Some od'
    /\ take k (DerivedDay.spots od) = take k (DerivedDay.spots od')
    /\ (forall d d',
          DerivedDay.spots od !! k = Some d -> DerivedDay.spots od' !! k = Some d' ->
          Derived.time d = Derived.time d').
Proof.
  intros Hday Hst Hsame.
  assert (Hst' : startTimeOf dayStartTimes day = startTimeOf dayStartTimes' day)
    by (unfold startTimeOf; by rewrite Hst).
  assert (Hsame' : forall j, (j < k)%nat -> same (spotIdOf day j)).
  { intros j Hj. destruct (Hsame j Hj) as (Hd & Hs & Hm).
    unfold sameOverrides. by rewrite Hd, Hs, Hm. }
  pose proof (arrival_agree dayStartTimes actualDepartures stays transportModes
                dayStartTimes' actualDepartures' stays' transportModes'
                day k Hst' Hsame') as Harr.
  eexists _, _. rewrite !engine_days, !list_lookup_fmap, Hday.
  split; [done|]. split; [done|]. split.
  - apply list_eq. intros j. destruct (decide (j < k)%nat) as [Hj|Hj].
    2:{ by rewrite !lookup_take_ge by lia. }
    rewrite !lookup_take_lt by lia.
    destruct (Day.spots day !! j) as [x|] eqn:Hx.
    + destruct (engine_stop dayStartTimes actualDepartures stays transportModes
                  rawKml c i day j x Hday Hx) as (od & d & _ & Hd & -> & ->).
      destruct (engine_stop dayStartTimes' actualDepartures' stays' transportModes'
                  rawKml c' i day j x Hday Hx) as (od' & d' & _ & Hd' & -> & ->).
      rewrite Hd, Hd'. f_equal. rewrite (Harr j) by lia.
      f_equal. apply callback_agree. by apply Hsame'.
    + apply lookup_ge_None in Hx.
      rewrite !(proj2 (lookup_ge_None _ _)); [done|by rewrite day_length..].
  - intros d d' Hd Hd'.
    destruct (day_stop _ _ _ _ _ _ _ _ Hd) as (x & Hx & ->).
    destruct (day_stop _ _ _ _ _ _ _ _ Hd') as (x' & Hx' & ->).
    rewrite !callback_time. by rewrite (Harr k) by lia.
Qed.

End TwoStatesDays.

(** ** After an actual departure *)

Section AfterDeparture.
Context `{MathHost}.
Variables dayStartTimes actualDepartures stays transportModes : gmap string string.
Variables dayStartTimes' actualDepartures' stays' transportModes' : gmap string string.

Local Abbreviation same :=
  (sameOverrides actualDepartures stays transportModes
                 actualDepartures' stays' transportModes').

Lemma arrival_after day k v :
  actualDepartures !! spotIdOf day k = Some v -> v <> "" ->
  (forall j, (k <= j)%nat -> same (spotIdOf day j)) ->
  forall n,
    arrivalMinutes dayStartTimes actualDepartures stays transportModes day (S k + n)
    = arrivalMinutes dayStartTimes' actualDepartures' stays' transportModes' day (S k + n).
Proof.
  intros Hv Hne Hsame. induction n as [|n IH].
  - rewrite Nat.add_0_r. cbn [arrivalMinutes].
    destruct (Hsame k ltac:(lia)) as (Hd & Hs & Hm).
    unfold effectiveDeparture, legMinutes, legMode. rewrite Hm. f_equal.
    unfold departure. rewrite Hv in Hd |- *.
    destruct v as [|a v]; [done|]. cbn [orDefault] in Hd.
    by destruct (actualDepartures' !! spotIdOf day k) as [[|a' v']|];
      cbn [orDefault] in Hd; try done; injection Hd as <- <-.
  - replace (S k + S n)%nat with (S (S k + n)) by lia.
    cbn [arrivalMinutes]. rewrite IH.
    destruct (Hsame (S k + n)%nat ltac:(lia)) as (Hd & Hs & Hm).
    unfold effectiveDeparture, legMinutes, legMode.
    by rewrite Hs, Hm,
      (departure_agree actualDepartures actualDepartures' _ _ _ Hd).
Qed.

(** X10.  When stop [k] of a day has an actual departure, the records of the
    stops after it are the same in two states that agree on the entries
    of the stops from [k] on: they depend neither on the day's start
    time nor on the overrides of the stops before [k]. *)
Theorem later_stops_follow_departure rawKml c c' i day k v :
  default [] rawKml !! i = Some day ->
  actualDepartures !! spotIdOf day k = Some v -> v <> "" ->
  (forall j, (k <= j)%nat ->
     actualDepartures !! spotIdOf day j = actualDepartures' !! spotIdOf day j
     /\ stays !! spotIdOf day j = stays' !! spotIdOf day j
     /\ transportModes !! spotIdOf day j = transportModes' !! spotIdOf day j) ->
  exists od od',
    (useItineraryCalculation dayStartTimes actualDepartures stays transportModes
       rawKml c).1 !! i = Some od
    /\ (useItineraryCalculation dayStartTimes' actualDepartures' stays' transportModes'
          rawKml c').1 !! i = Some od'
    /\ drop (S k) (DerivedDay.spots od) = drop (S k) (DerivedDay.spots od').
Proof.
  intros Hday Hv Hne Hsame.
  assert (Hsame' : forall j, (k <= j)%nat -> same (spotIdOf day j)).
  { intros j Hj. destruct (Hsame j Hj) as (Hd & Hs & Hm).
    unfold sameOverrides. by rewrite Hd, Hs, Hm. }
  pose proof (arrival_after day k v Hv Hne Hsame') as Harr.
  eexists _, _. rewrite !engine_days, !list_lookup_fmap, Hday.
  split; [done|]. split; [done|].
  apply list_eq. intros n. rewrite !lookup_drop.
  destruct (Day.spots day !! (S k + n)%nat) as [x|] eqn:Hx.
  - destruct (engine_stop dayStartTimes actualDepartures stays transportModes
                rawKml c i day _ x Hday Hx) as (od & d & _ & Hd & -> & ->).
    destruct (engine_stop dayStartTimes' actualDepartures' stays' transportModes'
                rawKml c' i day _ x Hday Hx) as (od' & d' & _ & Hd' & -> & ->).
    rewrite Hd, Hd'. f_equal. rewrite Harr. f_equal.
    apply callback_agree. apply Hsame'. lia.
  - apply lookup_ge_None in Hx.
    rewrite !(proj2 (lookup_ge_None _ _)); [done|by rewrite day_length..].
Qed.

End AfterDeparture.

(** ** The handlers and the engine *)

Lemma sameOverrides_refl dep st md id : sameOverrides dep st md dep st md id.
Proof. by repeat split. Qed.

Lemma colon_nonempty a b : exists c s, a +:+ ":" +:+ b = String c s.
Proof. destruct a as [|c a]; by eexists _, _. Qed.

Lemma wellFormed_nonempty s : wellFormedTime s -> exists c s', s = String c s'.
Proof. intros (h & m & _ & _ & ->). apply colon_nonempty. Qed.

Section HandlerFacts.
Context `{MathHost}.
Variables dayStartTimes actualDepartures stays transportModes : gmap string string.

Local Abbreviation arrival :=
  (arrivalMinutes dayStartTimes actualDepartures stays transportModes).

(** X11.  After [handleDayStartTimeChange] sets the start of a day to a
    well-formed time of day, the engine shows the first stop of that day
    as reached at that time. *)
Theorem start_time_change_shows rawKml c i day x s :
  default [] rawKml !! i = Some day ->
  Day.spots day !! 0%nat = Some x ->
  wellFormedTime s ->
  exists od d,
    (useItineraryCalculation
       (handleDayStartTimeChange (Day.dayId day) s dayStartTimes)
       actualDepartures stays transportModes rawKml c).1 !! i = Some od
    /\ DerivedDay.spots od !! 0%nat = Some d
    /\ Derived.time d = s.
Proof.
  intros Hday Hx Hs.
  destruct (engine_stop (handleDayStartTimeChange (Day.dayId day) s dayStartTimes)
              actualDepartures stays transportModes rawKml c i day 0%nat x Hday Hx)
    as (od & d & Hod & Hd & _ & ->).
  eexists _, _. split; [exact Hod|]. split; [exact Hd|].
  rewrite callback_time. cbn [arrivalMinutes].
  unfold startTimeOf, handleDayStartTimeChange. rewrite lookup_insert_eq.
  destruct (wellFormed_nonempty s Hs) as (a & s' & Hs').
  replace (orDefault (Some s) "09:00") with s by (by rewrite Hs').
  by apply time_roundtrip.
Qed.

(** X12.  [handleDayStartTimeChange] on one day id leaves the derived day of
    every day with another id as it was. *)
Theorem start_time_change_elsewhere rawKml c c' id s i day :
  default [] rawKml !! i = Some day ->
  Day.dayId day <> id ->
  (useItineraryCalculation (handleDayStartTimeChange id s dayStartTimes)
     actualDepartures stays transportModes rawKml c).1 !! i
  = (useItineraryCalculation dayStartTimes actualDepartures stays transportModes
       rawKml c').1 !! i.
Proof.
  intros Hday Hne. rewrite !engine_days, !list_lookup_fmap, Hday.
  cbn [fmap option_fmap option_map]. f_equal.
  apply day_agree; [|intros id'; apply sameOverrides_refl].
  unfold startTimeOf, handleDayStartTimeChange. by rewrite lookup_insert_ne.
Qed.

(** The stops before [k] read the same overrides after a change at the
    key of stop [k]. *)
Lemma same_before (f g h : gmap string string -> gmap string string) day k :
  (forall m id, id <> spotIdOf day k -> f m !! id = m !! id) ->
  (forall m id, id <> spotIdOf day k -> g m !! id = m !! id) ->
  (forall m id, id <> spotIdOf day k -> h m !! id = m !! id) ->
  forall j, (j < k)%nat ->
    sameOverrides (f actualDepartures) (g stays) (h transportModes)
                  actualDepartures stays transportModes (spotIdOf day j).
Proof.
  intros Hf Hg Hh j Hj.
  assert (spotIdOf day j <> spotIdOf day k).
  { intros Heq. apply spotIdOf_inj in Heq. lia. }
  unfold sameOverrides. by rewrite Hf, Hg, Hh.
Qed.

(** X13.  After [handleStayChangeNew] sets the stay of a stop to a non-empty
    string, the stop's record carries that stay, the stop is reached at
    the same time as before, and, unless it has an actual departure, it
    is left at its arrival plus the minutes of the new stay. *)
Theorem stay_change_shows rawKml c i day k x val :
  default [] rawKml !! i = Some day ->
  Day.spots day !! k = Some x ->
  val <> "" ->
  exists od d,
    (useItineraryCalculation dayStartTimes actualDepartures
       (handleStayChangeNew (spotIdOf day k) val stays)
       transportModes rawKml c).1 !! i = Some od
    /\ DerivedDay.spots od !! k = Some d
    /\ Derived.stay d = val
    /\ Derived.time d
       = minutesToTimeStr
           (arrivalMinutes dayStartTimes actualDepartures stays transportModes day k)
    /\ (truthy (actualDepartures !! spotIdOf day k) = false ->
        forall reached,
          effectiveDeparture actualDepartures
            (handleStayChangeNew (spotIdOf day k) val stays) day k reached
          = add reached (parseStayDuration val)).
Proof.
  intros Hday Hx Hval.
  destruct (engine_stop dayStartTimes actualDepartures
              (handleStayChangeNew (spotIdOf day k) val stays) transportModes
              rawKml c i day k x Hday Hx) as (od & d & Hod & Hd & _ & ->).
  eexists _, _. split; [exact Hod|]. split; [exact Hd|].
  assert (Hstay : orDefault (handleStayChangeNew (spotIdOf day k) val stays
                             !! spotIdOf day k) "1.5 hr" = val).
  { unfold handleStayChangeNew. rewrite lookup_insert_eq. by destruct val. }
  split; [|split].
  - destruct (callback_departed actualDepartures
                (handleStayChangeNew (spotIdOf day k) val stays) transportModes
                day x k (arrivalMinutes dayStartTimes actualDepartures
                           (handleStayChangeNew (spotIdOf day k) val stays)
                           transportModes day k)) as (_ & _ & Hst).
    by rewrite Hst.
  - rewrite callback_time. f_equal.
    apply (arrival_agree _ _ _ _ _ _ _ _ day k eq_refl); [|lia].
    apply (same_before (fun m => m) (handleStayChangeNew (spotIdOf day k) val) (fun m => m));
      try done.
    intros m id Hne. unfold handleStayChangeNew. by rewrite lookup_insert_ne.
  - intros Hnot reached. unfold effectiveDeparture. rewrite Hstay.
    unfold departure. by destruct (actualDepartures !! spotIdOf day k) as [[|a v]|].
Qed.

(** X14.  [handleTransportToggle] on a stop whose mode reads "car" (also by
    default) or "walk" makes the engine use the other mode for the leg
    that leaves the stop: the stop is reached at the same time as
    before, its next stop is described for the other mode, and the
    next arrival is the departure plus the travel minutes of the other
    mode. *)
Theorem transport_toggle_flips rawKml c i day k x x' :
  default [] rawKml !! i = Some day ->
  Day.spots day !! k = Some x ->
  Day.spots day !! S k = Some x' ->
  let id := spotIdOf day k in
  let old := orDefault (transportModes !! id) "car" in
  let new := if String.eqb old "car" then "walk" else "car" in
  let reached := arrivalMinutes dayStartTimes actualDepartures stays transportModes day k in
  old = "car" \/ old = "walk" ->
  exists od d,
    (useItineraryCalculation dayStartTimes actualDepartures stays
       (handleTransportToggle id transportModes) rawKml c).1 !! i = Some od
    /\ DerivedDay.spots od !! k = Some d
    /\ Derived.time d = minutesToTimeStr reached
    /\ Derived.nextStop d = Some (nextStopInfoOf x x' (legDistance day k) new)
    /\ Derived.nextArrivalTime d
       = minutesToTimeStr
           (add (effectiveDeparture actualDepartures stays day k reached)
                (travelMinutes new (legDistance day k))).
Proof.
  intros Hday Hx Hx' id old new reached Hold.
  destruct (engine_stop dayStartTimes actualDepartures stays
              (handleTransportToggle id transportModes)
              rawKml c i day k x Hday Hx) as (od & d & Hod & Hd & _ & ->).
  eexists _, _. split; [exact Hod|]. split; [exact Hd|].
  assert (Harr : arrivalMinutes dayStartTimes actualDepartures stays
                   (handleTransportToggle id transportModes) day k = reached).
  { apply (arrival_agree _ _ _ _ _ _ _ _ day k eq_refl); [|lia].
    apply (same_before (fun m => m) (fun m => m) (handleTransportToggle id)); try done.
    intros m id' Hne. unfold handleTransportToggle. by rewrite lookup_insert_ne. }
  assert (Hmode : orDefault (handleTransportToggle id transportModes !! id) "car" = new).
  { unfold handleTransportToggle. rewrite lookup_insert_eq. subst new old.
    destruct (transportModes !! id) as [[|a v]|] eqn:Hm; cbn [orDefault] in *.
    - by rewrite bool_decide_eq_false_2.
    - destruct Hold as [->| ->].
      + by rewrite bool_decide_eq_false_2.
      + by rewrite bool_decide_eq_true_2.
    - by rewrite bool_decide_eq_false_2. }
  rewrite Harr. split; [apply callback_time|].
  assert (Hn : hasNext day k = true).
  { apply hasNext_true. apply lookup_lt_Some in Hx'. lia. }
  destruct (callback_next actualDepartures stays (handleTransportToggle id transportModes)
              day x k reached Hn) as (_ & Hnext & Hinfo).
  fold id in Hnext, Hinfo. rewrite Hmode in Hnext, Hinfo.
  replace (k + 1)%nat with (S k) in Hnext, Hinfo by lia.
  rewrite (list_lookup_total_correct _ _ _ Hx') in Hnext, Hinfo.
  unfold legDistance, effectiveDeparture.
  replace (k + 1)%nat with (S k) by lia.
  rewrite (list_lookup_total_correct _ _ _ Hx), (list_lookup_total_correct _ _ _ Hx').
  by split.
Qed.

(** X15.  Toggling the transport mode of a stop twice gives the engine's
    result of before, when the mode read "car" or "walk"; the entry
    itself may differ, an absent entry becoming "car". *)
Theorem transport_toggle_twice rawKml c c' id :
  orDefault (transportModes !! id) "car" = "car"
  \/ orDefault (transportModes !! id) "car" = "walk" ->
  (useItineraryCalculation dayStartTimes actualDepartures stays
     (handleTransportToggle id (handleTransportToggle id transportModes)) rawKml c).1
  = (useItineraryCalculation dayStartTimes actualDepartures stays transportModes
       rawKml c').1.
Proof.
  intros Hold. apply engine_agree; [done|]. intros id'.
  split; [done|]. split; [done|].
  unfold handleTransportToggle.
  destruct (decide (id' = id)) as [->|Hne].
  2:{ by rewrite !lookup_insert_ne. }
  rewrite !lookup_insert_eq.
  destruct (transportModes !! id) as [[|a v]|] eqn:Hm; cbn [orDefault] in *.
  - reflexivity.
  - by destruct Hold as [->| ->].
  - reflexivity.
Qed.

Lemma clock_string now :
  exists a s,
    padStart 2 "0" (toString (Date.getHours now)) +:+ ":"
    +:+ padStart 2 "0" (toString (Date.getMinutes now)) = String a s.
Proof. apply colon_nonempty. Qed.

(** X16.  [handleDepartureToggle] at [h]:[m] by the wall clock, on a stop
    the engine reaches at the same time as before: a stop that was not
    marked departed becomes departed at "HH:MM", and leaves at minute
    [60 h + m] whenever it is reached; a stop that was marked departed is
    no longer, and leaves at its arrival plus its stay. *)
Theorem departure_toggle_marks rawKml c i day k x now h m :
  default [] rawKml !! i = Some day ->
  Day.spots day !! k = Some x ->
  Date.getHours now = ofZ h -> 0 <= h < 24 ->
  Date.getMinutes now = ofZ m -> 0 <= m < 60 ->
  exists od d,
    (useItineraryCalculation dayStartTimes
       (handleDepartureToggle now (spotIdOf day k) actualDepartures)
       stays transportModes rawKml c).1 !! i = Some od
    /\ DerivedDay.spots od !! k = Some d
    /\ Derived.time d
       = minutesToTimeStr
           (arrivalMinutes dayStartTimes actualDepartures stays transportModes day k)
    /\ (truthy (actualDepartures !! spotIdOf day k) = false ->
        Derived.isDeparted d = true
        /\ Derived.actualDepTime d = Some (hhmm h m)
        /\ forall reached,
             effectiveDeparture
               (handleDepartureToggle now (spotIdOf day k) actualDepartures)
               stays day k reached = ofZ (60 * h + m))
    /\ (truthy (actualDepartures !! spotIdOf day k) = true ->
        Derived.isDeparted d = false
        /\ Derived.actualDepTime d = None
        /\ forall reached,
             effectiveDeparture
               (handleDepartureToggle now (spotIdOf day k) actualDepartures)
               stays day k reached
             = add reached
                   (parseStayDuration (orDefault (stays !! spotIdOf day k) "1.5 hr"))).
Proof.
  intros Hday Hx Hh Hhr Hm Hmr.
  destruct (engine_stop dayStartTimes
              (handleDepartureToggle now (spotIdOf day k) actualDepartures)
              stays transportModes rawKml c i day k x Hday Hx)
    as (od & d & Hod & Hd & _ & ->).
  eexists _, _. split; [exact Hod|]. split; [exact Hd|]. split.
  { rewrite callback_time. f_equal.
    apply (arrival_agree _ _ _ _ _ _ _ _ day k eq_refl); [|lia].
    apply (same_before (handleDepartureToggle now (spotIdOf day k))
             (fun m => m) (fun m => m)); try done.
    intros p id Hne. unfold handleDepartureToggle.
    destruct (truthy _); [by rewrite lookup_delete_ne|by rewrite lookup_insert_ne]. }
  destruct (callback_departed
              (handleDepartureToggle now (spotIdOf day k) actualDepartures)
              stays transportModes day x k
              (arrivalMinutes dayStartTimes
                 (handleDepartureToggle now (spotIdOf day k) actualDepartures)
                 stays transportModes day k)) as (Hdep & Hact & _).
  rewrite Hdep, Hact. unfold effectiveDeparture, departure, handleDepartureToggle.
  split; intros Ht; rewrite Ht.
  - rewrite lookup_insert_eq, Hh, Hm, !toString_ofZ by lia.
    change (padStart 2 "0" (pretty (Z.to_N h)) +:+ ":"
            +:+ padStart 2 "0" (pretty (Z.to_N m))) with (hhmm h m).
    pose proof (timeToMinutes_hhmm h m Hhr Hmr) as Htm.
    destruct (colon_nonempty (pad2 h) (pad2 m)) as (a & s & Hs).
    change (pad2 h +:+ ":" +:+ pad2 m) with (hhmm h m) in Hs.
    rewrite Hs in *. cbn [fst snd]. done.
  - by rewrite lookup_delete_eq.
Qed.

(** X17.  Toggling the departure of a stop that is not marked departed
    twice, at whatever times, gives the engine's result of before; the
    entry itself may differ, an empty entry being removed. *)
Theorem departure_toggle_twice rawKml c c' id now now' :
  truthy (actualDepartures !! id) = false ->
  (useItineraryCalculation dayStartTimes
     (handleDepartureToggle now' id (handleDepartureToggle now id actualDepartures))
     stays transportModes rawKml c).1
  = (useItineraryCalculation dayStartTimes actualDepartures stays transportModes
       rawKml c').1.
Proof.
  intros Ht. apply engine_agree; [done|]. intros id'.
  split; [|by split].
  unfold handleDepartureToggle at 2. rewrite Ht.
  destruct (clock_string now) as (a & s & Hs). rewrite Hs.
  unfold handleDepartureToggle. rewrite lookup_insert_eq. cbn [truthy].
  destruct (decide (id' = id)) as [->|Hne].
  - rewrite lookup_delete_eq.
    by destruct (actualDepartures !! id) as [[|b v]|].
  - by rewrite lookup_delete_ne, lookup_insert_ne.
Qed.

End HandlerFacts.

(** ** Ticket counts *)

Lemma orNumber_two n :
  0 <= n < 2 ^ 53 -> orNumber (ofZ n) (ofZ 2) = ofZ (if n =? 0 then 2 else n).
Proof.
  intros Hn. destruct (Z.eqb_spec n 0) as [->|Hn0]; [done|].
  by rewrite (ofZ_canon n) by lia.
Qed.

(** X18.  [updateSpotTicketCount] on a whole count [n] with a whole change
    [dz]: the new count is [max 0 (n + dz)], never negative, except that
    a count of 0 is read as 2, so that the count after 0 is
    [max 0 (2 + dz)]; the other count of the stop and the counts of the
    other stops are kept. *)
Theorem ticket_count_update id type p n dz :
  countOf type (getTicketCounts p id) = ofZ n ->
  0 <= n < 2 ^ 52 -> - 2 ^ 52 < dz < 2 ^ 52 ->
  getTicketCounts (updateSpotTicketCount id type (ofZ dz) p) id
  = setCount type (ofZ (Z.max 0 ((if n =? 0 then 2 else n) + dz)))
             (getTicketCounts p id)
  /\ forall id', id' <> id ->
       getTicketCounts (updateSpotTicketCount id type (ofZ dz) p) id'
       = getTicketCounts p id'.
Proof.
  intros Hc Hn Hdz. unfold getTicketCounts, updateSpotTicketCount in *.
  split; [|intros id' Hne; by rewrite lookup_insert_ne].
  rewrite lookup_insert_eq.
  change (default defaultCounts (Some ?c)) with c. f_equal.
  assert (match p !! id with
          | Some c => orNumber (countOf type c) (ofZ 2)
          | None => ofZ 2
          end = ofZ (if n =? 0 then 2 else n)) as ->.
  { destruct (p !! id) as [c|].
    - change (countOf type c = ofZ n) in Hc. rewrite Hc. apply orNumber_two. lia.
    - change (countOf type defaultCounts = ofZ n) in Hc.
      assert (n = 2) as ->; [|done].
      symmetry. apply ofZ_inj; [lia..|]. rewrite <- Hc. by destruct type. }
  assert (0 <= (if n =? 0 then 2 else n) < 2 ^ 52) by (destruct (n =? 0); lia).
  rewrite add_ofZ_signed, max_0_ofZ by lia. done.
Qed.

(** ** Tickets and statistics *)

(** A whole number, given by the integer it is. *)
Lemma isCount_inv x : isCount x -> exists n, 0 <= n < 2 ^ 53 /\ intOf x = n /\ x = ofZ n.
Proof. intros [Hr Hx]. by exists (intOf x). Qed.

Lemma intOf_ofZ n : 0 <= n < 2 ^ 53 -> intOf (ofZ n) = n.
Proof.
  intros Hn. destruct (Z.eq_dec n 0) as [->|Hn0]; [done|].
  rewrite ofZ_canon by lia. unfold intOf, integerValue.
  pose proof (canonE_nonpos n ltac:(lia)).
  rewrite canonM_scaled by lia.
  rewrite Z.mod_mul, Z.div_mul by (apply Z.pow_nonzero; lia).
  destruct (Z.leb_spec (canonE n) 0); [|lia]. done.
Qed.

Lemma isCount_ofZ n : 0 <= n < 2 ^ 53 -> isCount (ofZ n).
Proof. intros Hn. unfold isCount. by rewrite intOf_ofZ. Qed.

Lemma orNumber_count x : isCount x -> orNumber x (ofZ 0) = ofZ (intOf x).
Proof.
  intros (n & Hn & -> & ->)%isCount_inv.
  destruct (Z.eq_dec n 0) as [->|Hn0]; [done|].
  by rewrite ofZ_canon by lia.
Qed.

Section StatsFacts.
Variable expenses : gmap string (list Expense.t).
Variable spotTicketCounts : gmap string Counts.t.

Local Abbreviation amountOk allowNaN :=
  (fun e => isCount (Expense.amount e) \/ (allowNaN = true /\ Expense.amount e = nan)).

Lemma expensesWorth_nonneg allowNaN l :
  Forall (amountOk allowNaN) l -> 0 <= expensesWorth l.
Proof.
  induction 1 as [|e l He _ IH]; [done|]. cbn [expensesWorth foldr].
  fold (expensesWorth l).
  destruct He as [[Hr _]|[_ ->]]; [lia|]. change (intOf nan) with 0. lia.
Qed.

Lemma ticketWorth_nonneg allowNaN spot :
  wholeSpot expenses spotTicketCounts allowNaN spot ->
  0 <= ticketWorth spotTicketCounts spot.
Proof.
  intros [_ Ht]. unfold ticketWorth. destruct (Derived.ticket spot) as [t|]; [|done].
  destruct Ht as ([? _] & [? _] & [? _] & [? _]). cbv zeta. nia.
Qed.

Lemma spotWorth_nonneg allowNaN spot :
  wholeSpot expenses spotTicketCounts allowNaN spot ->
  0 <= spotWorth expenses spotTicketCounts spot.
Proof.
  intros Hs. pose proof (ticketWorth_nonneg _ _ Hs). destruct Hs as [He _].
  pose proof (expensesWorth_nonneg _ _ He). unfold spotWorth. lia.
Qed.

Lemma dayWorth_nonneg allowNaN d :
  wholeDay expenses spotTicketCounts allowNaN d ->
  0 <= dayWorth expenses spotTicketCounts d.
Proof.
  unfold wholeDay, dayWorth. induction 1 as [|s l Hs _ IH]; [done|].
  cbn [foldr]. pose proof (spotWorth_nonneg _ _ Hs). lia.
Qed.

Lemma fold_amounts allowNaN l : forall z,
  Forall (amountOk allowNaN) l ->
  0 <= z -> z + expensesWorth l < 2 ^ 53 ->
  fold_left (fun dayTotal e => add dayTotal (orNumber (Expense.amount e) (ofZ 0)))
            l (ofZ z)
  = ofZ (z + expensesWorth l).
Proof.
  induction l as [|e l IH]; intros z Hl Hz Hb.
  { cbn. by rewrite Z.add_0_r. }
  apply Forall_cons in Hl as [He Hl].
  pose proof (expensesWorth_nonneg _ _ Hl).
  cbn [expensesWorth foldr] in *. fold (expensesWorth l) in *.
  cbn [fold_left].
  assert (orNumber (Expense.amount e) (ofZ 0) = ofZ (intOf (Expense.amount e))
          /\ 0 <= intOf (Expense.amount e)) as [-> Hv].
  { destruct He as [Hc|[_ ->]].
    - split; [by apply orNumber_count|]. by destruct Hc as [[? _] _].
    - split; [reflexivity|]. change (intOf nan) with 0. lia. }
  rewrite add_ofZ by lia. rewrite IH by (done || lia). f_equal. lia.
Qed.

Lemma ticketCost_whole ticket counts :
  isCount (Ticket.adult ticket) -> isCount (Ticket.child ticket) ->
  isCount (Counts.adult counts) -> isCount (Counts.child counts) ->
  intOf (Ticket.adult ticket) * intOf (Counts.adult counts)
  + intOf (Ticket.child ticket) * intOf (Counts.child counts) < 2 ^ 53 ->
  ticketCost ticket counts
  = ofZ (intOf (Ticket.adult ticket) * intOf (Counts.adult counts)
         + intOf (Ticket.child ticket) * intOf (Counts.child counts)).
Proof.
  unfold ticketCost.
  intros (a & Ha & -> & ->)%isCount_inv (b & Hb & -> & ->)%isCount_inv
         (ca & Hca & -> & ->)%isCount_inv (cb & Hcb & -> & ->)%isCount_inv Hsum.
  rewrite !mul_ofZ, add_ofZ by nia. done.
Qed.

Lemma addSpot_whole allowNaN spot z :
  wholeSpot expenses spotTicketCounts allowNaN spot ->
  0 <= z -> z + spotWorth expenses spotTicketCounts spot < 2 ^ 53 ->
  addSpot expenses spotTicketCounts (ofZ z) spot
  = ofZ (z + spotWorth expenses spotTicketCounts spot).
Proof.
  intros Hs Hz Hb. pose proof (ticketWorth_nonneg _ _ Hs) as Ht.
  destruct Hs as [He Htk]. pose proof (expensesWorth_nonneg _ _ He) as Hen.
  unfold addSpot, spotWorth, ticketWorth in *.
  rewrite (fold_amounts allowNaN) by (done || lia).
  destruct (Derived.ticket spot) as [t|]; [|f_equal; lia].
  destruct Htk as (H1 & H2 & H3 & H4). cbv zeta in *.
  rewrite ticketCost_whole by (done || lia).
  rewrite add_ofZ by lia. f_equal. lia.
Qed.

Lemma fold_spots allowNaN l : forall z,
  Forall (wholeSpot expenses spotTicketCounts allowNaN) l ->
  0 <= z ->
  z + foldr (fun spot z => spotWorth expenses spotTicketCounts spot + z) 0 l < 2 ^ 53 ->
  fold_left (addSpot expenses spotTicketCounts) l (ofZ z)
  = ofZ (z + foldr (fun spot z => spotWorth expenses spotTicketCounts spot + z) 0 l).
Proof.
  induction l as [|s l IH]; intros z Hl Hz Hb.
  { cbn. by rewrite Z.add_0_r. }
  apply Forall_cons in Hl as [Hs Hl].
  pose proof (spotWorth_nonneg _ _ Hs).
  pose proof (dayWorth_nonneg allowNaN
                {| DerivedDay.dayId := ""; DerivedDay.title := ""; DerivedDay.date := "";
                   DerivedDay.themeColor := ""; DerivedDay.spots := l |} Hl) as Hrest.
  unfold dayWorth in Hrest. cbn [DerivedDay.spots] in Hrest.
  cbn [foldr fold_left] in *.
  rewrite (addSpot_whole allowNaN) by (done || lia).
  rewrite IH by (done || lia). f_equal. lia.
Qed.

(** X19.  In [dailyStats] the total of a day whose amounts, ticket prices
    and ticket counts are whole numbers is their exact sum, the tickets
    of a stop counting price times count for adults and children, as
    long as the sum is below 2^53; an expense whose amount is NaN counts
    for 0. *)
Theorem daily_total_exact tripData i d :
  tripData !! i = Some d ->
  wholeDay expenses spotTicketCounts true d ->
  dayWorth expenses spotTicketCounts d < 2 ^ 53 ->
  dailyStats expenses spotTicketCounts tripData !! i
  = Some {| DayStat.day := d;
            DayStat.totalTwd := ofZ (dayWorth expenses spotTicketCounts d) |}.
Proof.
  intros Hd Hw Hb. unfold dailyStats. rewrite list_lookup_fmap, Hd.
  cbn [fmap option_fmap option_map]. f_equal. f_equal.
  by rewrite (fold_spots true) by (done || lia).
Qed.

(** *** The detail dialog *)

Lemma entries_amounts l name : forall z,
  Forall (amountOk false) l ->
  0 <= z -> z + expensesWorth l < 2 ^ 53 ->
  fold_left (fun sum item => add sum (entryAmount item))
            (map (fun r => ExpenseEntry r name) l) (ofZ z)
  = ofZ (z + expensesWorth l).
Proof.
  induction l as [|e l IH]; intros z Hl Hz Hb.
  { cbn. by rewrite Z.add_0_r. }
  apply Forall_cons in Hl as [He Hl].
  pose proof (expensesWorth_nonneg _ _ Hl).
  cbn [expensesWorth foldr] in *. fold (expensesWorth l) in *.
  cbn [map fold_left entryAmount].
  destruct He as [(n & Hn & Hi & Hx)%isCount_inv|[? _]]; [|done].
  rewrite Hi in *. rewrite Hx.
  rewrite add_ofZ by lia. rewrite IH by (done || lia). f_equal. lia.
Qed.

Lemma entries_spot spot rest z :
  wholeSpot expenses spotTicketCounts false spot ->
  0 <= z -> z + spotWorth expenses spotTicketCounts spot < 2 ^ 53 ->
  fold_left (fun sum item => add sum (entryAmount item))
            (spotEntries expenses spotTicketCounts spot ++ rest) (ofZ z)
  = fold_left (fun sum item => add sum (entryAmount item)) rest
              (ofZ (z + spotWorth expenses spotTicketCounts spot)).
Proof.
  intros Hs Hz Hb. pose proof (ticketWorth_nonneg _ _ Hs) as Ht.
  destruct Hs as [He Htk]. pose proof (expensesWorth_nonneg _ _ He) as Hen.
  unfold spotEntries, spotWorth, ticketWorth in *.
  rewrite !fold_left_app, entries_amounts by (done || lia).
  f_equal.
  destruct (Derived.ticket spot) as [t|]; [|cbn; f_equal; lia].
  destruct Htk as (H1 & H2 & H3 & H4). cbv zeta in *.
  rewrite ticketCost_whole by (done || lia).
  unfold gt. rewrite ltb_ofZ by lia.
  destruct (Z.ltb_spec 0
              (intOf (Ticket.adult t)
               * intOf (Counts.adult (default defaultCounts
                                        (spotTicketCounts !! Derived.id spot)))
               + intOf (Ticket.child t)
                 * intOf (Counts.child (default defaultCounts
                                          (spotTicketCounts !! Derived.id spot)))));
    cbn [fold_left entryAmount].
  - rewrite add_ofZ by lia. f_equal. lia.
  - f_equal. lia.
Qed.

Lemma entries_spots l : forall z,
  Forall (wholeSpot expenses spotTicketCounts false) l ->
  0 <= z ->
  z + foldr (fun spot z => spotWorth expenses spotTicketCounts spot + z) 0 l < 2 ^ 53 ->
  fold_left (fun sum item => add sum (entryAmount item))
            (concat (map (spotEntries expenses spotTicketCounts) l)) (ofZ z)
  = ofZ (z + foldr (fun spot z => spotWorth expenses spotTicketCounts spot + z) 0 l).
Proof.
  induction l as [|s l IH]; intros z Hl Hz Hb.
  { cbn. by rewrite Z.add_0_r. }
  apply Forall_cons in Hl as [Hs Hl].
  pose proof (spotWorth_nonneg _ _ Hs).
  pose proof (dayWorth_nonneg false
                {| DerivedDay.dayId := ""; DerivedDay.title := ""; DerivedDay.date := "";
                   DerivedDay.themeColor := ""; DerivedDay.spots := l |} Hl) as Hrest.
  unfold dayWorth in Hrest. cbn [DerivedDay.spots] in Hrest.
  cbn [foldr map concat] in *.
  rewrite entries_spot by (done || lia).
  rewrite IH by (done || lia). f_equal. lia.
Qed.

(** X20.  The total the daily detail dialog shows for a day of [dailyStats]
    is the total of that day in [dailyStats], when the amounts, prices
    and counts are whole numbers. *)
Theorem detail_total_matches tripData i stat :
  dailyStats expenses spotTicketCounts tripData !! i = Some stat ->
  wholeDay expenses spotTicketCounts false (DayStat.day stat) ->
  dayWorth expenses spotTicketCounts (DayStat.day stat) < 2 ^ 53 ->
  totalTWD expenses spotTicketCounts [DayStat.day stat] = DayStat.totalTwd stat.
Proof.
  unfold dailyStats. intros Hstat%list_elem_of_lookup_2 Hw Hb. revert Hstat Hw Hb.
  intros (d & -> & _)%list_elem_of_fmap Hw Hb.
  cbn [DayStat.day DayStat.totalTwd] in *.
  unfold totalTWD, dayExpensesList. cbn [map concat]. rewrite app_nil_r.
  rewrite entries_spots by (done || lia).
  assert (Hw' : wholeDay expenses spotTicketCounts true d).
  { eapply Forall_impl; [exact Hw|]. intros s [He Ht]. split; [|done].
    eapply Forall_impl; [exact He|]. intros e [?|[? _]]; [by left|done]. }
  by rewrite (fold_spots true) by (done || lia).
Qed.

Lemma fold_from_nan (l : list Entry) :
  fold_left (fun sum item => add sum (entryAmount item)) l nan = nan.
Proof. induction l as [|r l IH]; [done|]. cbn [fold_left]. by rewrite add_nan_l. Qed.

Lemma fold_with_nan (l : list Entry) r a :
  r ∈ l -> entryAmount r = nan ->
  fold_left (fun sum item => add sum (entryAmount item)) l a = nan.
Proof.
  intros Hr Hn. revert a. induction Hr as [r l|r r' l _ IH]; intros a; cbn [fold_left].
  - by rewrite Hn, add_nan_r, fold_from_nan.
  - by apply IH.
Qed.

(** X21.  The total of the daily detail dialog is NaN as soon as one expense
    of one stop of the days shown has a NaN amount, which [dailyStats]
    counts for 0. *)
Theorem detail_total_NaN filteredDays day spot l e :
  day ∈ filteredDays ->
  spot ∈ DerivedDay.spots day ->
  expenses !! Derived.id spot = Some l ->
  e ∈ l ->
  Expense.amount e = nan ->
  totalTWD expenses spotTicketCounts filteredDays = nan.
Proof.
  intros Hday Hspot Hl He Hn. unfold totalTWD.
  apply (fold_with_nan _ (ExpenseEntry e (Spot.name (Derived.spot spot)))); [|done].
  unfold dayExpensesList.
  apply list_elem_of_In, in_concat. eexists. split.
  { apply (in_map (fun day => concat (map (spotEntries expenses spotTicketCounts)
                                          (DerivedDay.spots day)))).
    apply list_elem_of_In. exact Hday. }
  apply in_concat. eexists. split.
  { apply (in_map (spotEntries expenses spotTicketCounts)).
    apply list_elem_of_In. exact Hspot. }
  unfold spotEntries. rewrite Hl. apply in_or_app. left.
  apply (in_map (fun r => ExpenseEntry r (Spot.name (Derived.spot spot)))).
  by apply list_elem_of_In.
Qed.

End StatsFacts.

Section TripFacts.
Variable expenses : gmap string (list Expense.t).
Variable spotTicketCounts : gmap string Counts.t.

Lemma tripWorth_nonneg l :
  Forall (wholeDay expenses spotTicketCounts true) l ->
  0 <= tripWorth expenses spotTicketCounts l.
Proof.
  unfold tripWorth. induction 1 as [|d l Hd _ IH]; [done|].
  cbn [foldr]. pose proof (dayWorth_nonneg _ _ _ _ Hd). lia.
Qed.

Lemma day_total d :
  wholeDay expenses spotTicketCounts true d ->
  dayWorth expenses spotTicketCounts d < 2 ^ 53 ->
  fold_left (addSpot expenses spotTicketCounts) (DerivedDay.spots d) (ofZ 0)
  = ofZ (dayWorth expenses spotTicketCounts d).
Proof.
  intros Hd Hb. unfold dayWorth in *. by rewrite (fold_spots _ _ true) by (done || lia).
Qed.

Lemma fold_days l : forall z,
  Forall (wholeDay expenses spotTicketCounts true) l ->
  0 <= z -> z + tripWorth expenses spotTicketCounts l < 2 ^ 53 ->
  fold_left (fun sum d => add sum (DayStat.totalTwd d))
            (dailyStats expenses spotTicketCounts l) (ofZ z)
  = ofZ (z + tripWorth expenses spotTicketCounts l).
Proof.
  induction l as [|d l IH]; intros z Hl Hz Hb.
  { cbn. by rewrite Z.add_0_r. }
  apply Forall_cons in Hl as [Hd Hl].
  pose proof (dayWorth_nonneg _ _ _ _ Hd). pose proof (tripWorth_nonneg _ Hl).
  unfold tripWorth in *. cbn [foldr dailyStats map fold_left DayStat.totalTwd] in *.
  fold (dailyStats expenses spotTicketCounts l).
  rewrite day_total by (done || lia).
  rewrite add_ofZ by lia. rewrite IH by (done || lia). f_equal. lia.
Qed.

(** X22.  [stats.totalJpy] is the exact sum of the totals of the days, on
    whole amounts, prices and counts, as long as it is below 2^53. *)
Theorem grand_total_exact tripData :
  Forall (wholeDay expenses spotTicketCounts true) tripData ->
  tripWorth expenses spotTicketCounts tripData < 2 ^ 53 ->
  totalJpy (dailyStats expenses spotTicketCounts tripData)
  = ofZ (tripWorth expenses spotTicketCounts tripData).
Proof. intros Hw Hb. unfold totalJpy. by rewrite fold_days by (done || lia). Qed.

End TripFacts.

(** ** Deleting an expense *)

Lemma filter_twice {A} (f : A -> bool) l : List.filter f (List.filter f l) = List.filter f l.
Proof.
  induction l as [|x l IH]; [done|]. cbn [List.filter].
  destruct (f x) eqn:Hx; [|done]. cbn [List.filter]. by rewrite Hx, IH.
Qed.

(** X23.  [deleteExpense] on a stop that has no list of expenses fails; on a
    stop that has one it keeps exactly the records whose id differs from
    the given id, keeps the lists of the other stops, and deleting the
    same id again changes nothing. *)
Theorem deleteExpense_removes sid rid p :
  match p !! sid with
  | None => deleteExpense sid rid p = None
  | Some l =>
      exists p' l',
        deleteExpense sid rid p = Some p'
        /\ p' !! sid = Some l'
        /\ (forall r, In r l' <-> In r l /\ strictNe (Expense.id r) rid = true)
        /\ (length l' <= length l)%nat
        /\ (forall sid', sid' <> sid -> p' !! sid' = p !! sid')
        /\ deleteExpense sid rid p' = Some p'
  end.
Proof.
  unfold deleteExpense. destruct (p !! sid) as [l|] eqn:Hl; [|done].
  eexists _, _. split; [done|]. rewrite lookup_insert_eq.
  split; [done|]. split; [intros r; apply filter_In|].
  split; [apply List.filter_length_le|].
  split; [intros sid' Hne; by rewrite lookup_insert_ne|].
  by rewrite filter_twice, insert_insert_eq.
Qed.

(** ** The sort order *)

(** X24.  [toggleSort] makes the given key the sort key; the direction is
    "desc" when the key was another one, becomes "asc" when it was
    already that key with direction "desc", and "desc" again otherwise,
    so that from the first click on a key the direction alternates. *)
Theorem toggleSort_alternates key p :
  SortConfig.key (toggleSort key p) = key
  /\ (SortConfig.key p <> key -> SortConfig.direction (toggleSort key p) = "desc")
  /\ (SortConfig.key p = key -> SortConfig.direction p = "desc" ->
      SortConfig.direction (toggleSort key p) = "asc")
  /\ (SortConfig.key p = key -> SortConfig.direction p <> "desc" ->
      SortConfig.direction (toggleSort key p) = "desc")
  /\ toggleSort key (toggleSort key (toggleSort key p)) = toggleSort key p.
Proof.
  unfold toggleSort. cbn [SortConfig.key SortConfig.direction].
  split; [done|]. split.
  { intros Hne. by rewrite (proj2 (String.eqb_neq _ _) Hne). }
  split.
  { intros -> ->. by rewrite !String.eqb_refl. }
  split.
  { intros -> Hne. by rewrite String.eqb_refl, (proj2 (String.eqb_neq _ _) Hne). }
  rewrite !String.eqb_refl. cbn [andb]. f_equal.
  by destruct (String.eqb (SortConfig.key p) key && String.eqb (SortConfig.direction p) "desc").
Qed.

(** ** The exchange rate read from a reply *)

Lemma runs_none s :
  allChars (fun c => negb (isDigitOrDot c)) s = true -> runsGo "" s = [].
Proof.
  induction s as [|c s IH]; [done|]. cbn [allChars runsGo].
  intros [Hc Hs]%andb_prop. apply negb_true_iff in Hc. rewrite Hc. by apply IH.
Qed.

Lemma runs_all run : forall cur,
  allChars isDigitOrDot run = true ->
  String.rev_app run cur <> "" ->
  runsGo cur run = [String.rev (String.rev_app run cur)].
Proof.
  induction run as [|c run IH]; intros cur Hall Hne.
  - cbn [runsGo String.rev_app] in *. by destruct cur.
  - cbn [allChars runsGo String.rev_app] in *.
    apply andb_prop in Hall as [-> Hall]. by apply IH.
Qed.

Lemma rev_app_nonempty a b : a <> "" -> String.rev_app a b <> "".
Proof.
  revert b. induction a as [|x a IH]; intros b Ha; [done|].
  cbn [String.rev_app]. destruct a as [|y a]; [done|]. by apply IH.
Qed.

Lemma runs_whole run :
  allChars isDigitOrDot run = true -> run <> "" -> runsGo "" run = [run].
Proof.
  intros Hall Hne. rewrite runs_all by (done || by apply rev_app_nonempty).
  by rewrite rev_rev_app.
Qed.

Lemma last_runs pre c run :
  isDigitOrDot c = false -> allChars isDigitOrDot run = true -> run <> "" ->
  forall cur,
    exists l, runsGo cur (pre +:+ String c run) = l ++ [run].
Proof.
  intros Hc Hall Hne. induction pre as [|x pre IH]; intros cur.
  - change ("" +:+ String c run) with (String c run). cbn [runsGo]. rewrite Hc.
    rewrite runs_whole by done. destruct cur; [by exists []|by eexists [_]].
  - change (String x pre +:+ String c run) with (String x (pre +:+ String c run)).
    cbn [runsGo]. destruct (isDigitOrDot x); [apply IH|].
    destruct (IH "") as [l Hl]. rewrite Hl.
    destruct cur; [by exists l|by eexists (_ :: l)].
Qed.

Lemma rate_of_runs res l run :
  runsGo "" res = l ++ [run] -> rateOfReply res = parseFloat run.
Proof.
  intros Hr. unfold rateOfReply, matchDigitsAndDots. rewrite Hr.
  destruct (l ++ [run]) as [|a t] eqn:Hl; [by destruct l|].
  rewrite <- Hl. f_equal. apply last_last.
Qed.

Lemma runs_then_text post : forall cur,
  allChars (fun c => negb (isDigitOrDot c)) post = true -> cur <> "" ->
  runsGo cur post = [String.rev cur].
Proof.
  destruct post as [|c post]; intros cur Hpost Hne; cbn [runsGo].
  - by destruct cur.
  - cbn [allChars] in Hpost. apply andb_prop in Hpost as [Hc Hpost].
    apply negb_true_iff in Hc. rewrite Hc, runs_none by done. by destruct cur.
Qed.

Lemma runs_run_text run post : forall cur,
  allChars isDigitOrDot run = true ->
  allChars (fun c => negb (isDigitOrDot c)) post = true ->
  String.rev_app run cur <> "" ->
  runsGo cur (run +:+ post) = [String.rev (String.rev_app run cur)].
Proof.
  induction run as [|c run IH]; intros cur Hall Hpost Hne.
  - change ("" +:+ post) with post. cbn [String.rev_app] in *.
    by apply runs_then_text.
  - change (String c run +:+ post) with (String c (run +:+ post)).
    cbn [allChars runsGo String.rev_app] in *.
    apply andb_prop in Hall as [-> Hall]. by apply IH.
Qed.

Lemma runs_first run post :
  allChars isDigitOrDot run = true -> run <> "" ->
  allChars (fun c => negb (isDigitOrDot c)) post = true ->
  runsGo "" (run +:+ post) = [run].
Proof.
  intros Hall Hne Hpost.
  rewrite runs_run_text by (done || by apply rev_app_nonempty).
  by rewrite rev_rev_app.
Qed.

Lemma runs_last pre c run post :
  isDigitOrDot c = false -> allChars isDigitOrDot run = true -> run <> "" ->
  allChars (fun c => negb (isDigitOrDot c)) post = true ->
  forall cur,
    exists l, runsGo cur (pre +:+ String c (run +:+ post)) = l ++ [run].
Proof.
  intros Hc Hall Hne Hpost. induction pre as [|x pre IH]; intros cur.
  - change ("" +:+ String c (run +:+ post)) with (String c (run +:+ post)).
    cbn [runsGo]. rewrite Hc, runs_first by done.
    destruct cur; [by exists []|by eexists [_]].
  - change (String x pre +:+ String c (run +:+ post))
      with (String x (pre +:+ String c (run +:+ post))).
    cbn [runsGo]. destruct (isDigitOrDot x); [apply IH|].
    destruct (IH "") as [l Hl]. rewrite Hl.
    destruct cur; [by exists l|by eexists (_ :: l)].
Qed.

(** X25.  The exchange rate read from a reply is 1 when the reply has no
    digit and no dot; otherwise it is [parseFloat] of the last maximal
    run of digits and dots of the reply: of the run [run] when the reply
    is [run] followed by text without digit or dot, or is any text, a
    character [c] that is neither, [run], and text without digit or dot.
    Every reply is of one of these three forms. *)
Theorem rate_reads_last_run :
  (forall res,
     allChars (fun c => negb (isDigitOrDot c)) res = true -> rateOfReply res = ofZ 1)
  /\ (forall run post,
        allChars isDigitOrDot run = true -> run <> "" ->
        allChars (fun c => negb (isDigitOrDot c)) post = true ->
        rateOfReply (run +:+ post) = parseFloat run)
  /\ (forall pre c run post,
        isDigitOrDot c = false -> allChars isDigitOrDot run = true -> run <> "" ->
        allChars (fun c => negb (isDigitOrDot c)) post = true ->
        rateOfReply (pre +:+ String c (run +:+ post)) = parseFloat run)
  /\ (forall res,
        allChars (fun c => negb (isDigitOrDot c)) res = true
        \/ (exists run post,
              res = run +:+ post
              /\ allChars isDigitOrDot run = true /\ run <> ""
              /\ allChars (fun c => negb (isDigitOrDot c)) post = true)
        \/ (exists pre c run post,
              res = pre +:+ String c (run +:+ post)
              /\ isDigitOrDot c = false
              /\ allChars isDigitOrDot run = true /\ run <> ""
              /\ allChars (fun c => negb (isDigitOrDot c)) post = true)).
Proof.
  split; [|split; [|split]].
  - intros res Hres. unfold rateOfReply, matchDigitsAndDots. by rewrite runs_none.
  - intros run post Hall Hne Hpost. apply (rate_of_runs _ []). by apply runs_first.
  - intros pre c run post Hc Hall Hne Hpost.
    destruct (runs_last pre c run post Hc Hall Hne Hpost "") as [l Hl].
    by apply (rate_of_runs _ l).
  - induction res as [|x res IH]; [by left|].
    destruct IH as [Hres|[(run & post & -> & Hall & Hne & Hpost)
                          |(pre & c & run & post & -> & Hc & Hall & Hne & Hpost)]].
    + destruct (isDigitOrDot x) eqn:Hx.
      * right; left. exists (String x ""), res. cbn [allChars]. by rewrite Hx.
      * left. cbn [allChars]. by rewrite Hx.
    + destruct (isDigitOrDot x) eqn:Hx.
      * right; left. exists (String x run), post. cbn [allChars]. by rewrite Hx.
      * right; right. by exists "", x, run, post.
    + right; right. by exists (String x pre), c, run, post.
Qed.

Lemma rate_reads_last_run_witness :
  rateOfReply "none" = ofZ 1
  /\ rateOfReply ("0.21" +:+ "") = parseFloat "0.21"
  /\ rateOfReply ("4.5" +:+ " JPY") = parseFloat "4.5"
  /\ rateOfReply ("1 TWD = 4.5 JPY, 0.2" +:+ String " " ("4.7" +:+ " yen"))
     = parseFloat "4.7".
Proof.
  destruct rate_reads_last_run as (H1 & H2 & H3 & _).
  split; [apply H1; reflexivity|].
  split; [apply H2; [reflexivity|discriminate|reflexivity]|].
  split; [apply H2; [reflexivity|discriminate|reflexivity]|].
  apply H3; [reflexivity|reflexivity|discriminate|reflexivity].
Defined.

(** X26.  A reply that ends with a full stop placed after a character that
    is neither a digit nor a dot gives the rate NaN: the last run of
    digits and dots is the full stop alone. *)
Theorem rate_after_full_stop pre c :
  isDigitOrDot c = false -> rateOfReply (pre +:+ String c ".") = nan.
Proof.
  intros Hc. destruct (last_runs pre c "." Hc eq_refl ltac:(discriminate) "") as [l Hl].
  by rewrite (rate_of_runs _ l ".").
Qed.

Lemma rate_after_full_stop_witness :
  rateOfReply ("1 TWD = 4.5 JPY" +:+ String "Y" ".") = nan.
Proof. apply rate_after_full_stop. reflexivity. Defined.

(** ** The image sent for analysis *)

(** X27.  The image data sent for analysis is what stands between the
    first comma of the string and its second comma, or the end, when
    that text is not empty; a string without a comma is sent whole, and
    so is a string with nothing between its first comma and the second
    comma or the end. *)
Theorem imageData_parts :
  (forall s, includes "," s = false -> imageData s = s)
  /\ (forall header rest, includes "," header = false ->
        imageData (header +:+ ",") = header +:+ ","
        /\ imageData (header +:+ String "," (String "," rest))
           = header +:+ String "," (String "," rest))
  /\ (forall header payload rest,
        includes "," header = false -> includes "," payload = false ->
        payload <> "" ->
        imageData (header +:+ String "," payload) = payload
        /\ imageData (header +:+ String "," (payload +:+ String "," rest)) = payload).
Proof.
  unfold imageData. split; [|split].
  - intros s Hs. by rewrite split_whole.
  - intros header rest Hh. split.
    + by rewrite split_piece.
    + rewrite split_piece by done.
      change (String "," rest) with ("" +:+ String "," rest).
      by rewrite split_piece.
  - intros header payload rest Hh Hp Hne. split.
    + rewrite split_piece, split_whole by done. cbn. by destruct payload.
    + rewrite !split_piece by done. cbn. by destruct payload.
Qed.

Lemma imageData_parts_witness :
  imageData "AAAA" = "AAAA"
  /\ imageData ("a" +:+ String "," (String "," "c")) = "a,,c"
  /\ imageData ("data:image/jpeg;base64" +:+ String "," "AAAA") = "AAAA".
Proof.
  destruct imageData_parts as (H1 & H2 & H3).
  split; [apply H1; reflexivity|].
  split; [apply (H2 "a" "c"); reflexivity|].
  apply (H3 "data:image/jpeg;base64" "AAAA" ""); [reflexivity|reflexivity|discriminate].
Defined.

(** ** The properties on the example day *)

Lemma next_stop_unless_last_witness :
  exists od d,
    (useItineraryCalculation (H := SeriesHost.host)
       startTimes noOverrides stayTimes modes (Some [day1]) nan).1 !! 0%nat = Some od
    /\ DerivedDay.spots od !! 1%nat = Some d
    /\ Derived.nextStop d = None /\ Derived.nextArrivalTime d = "".
Proof.
  destruct (next_stop_unless_last (H := SeriesHost.host)
              startTimes noOverrides stayTimes modes (Some [day1]) nan 0%nat day1 1%nat
              stop1 eq_refl eq_refl) as (od & d & Hod & Hd & Hlast & _).
  exists od, d. split; [exact Hod|]. split; [exact Hd|]. exact (Hlast eq_refl).
Defined.

Lemma earlier_stops_unaffected_witness :
  exists od od',
    (useItineraryCalculation (H := SeriesHost.host)
       startTimes noOverrides stayTimes modes (Some [day1]) nan).1 !! 0%nat = Some od
    /\ (useItineraryCalculation (H := SeriesHost.host)
          startTimes noOverrides (<["d1-s1" := "30 min"]> stayTimes) modes
          (Some [day1]) nan).1 !! 0%nat = Some od'
    /\ take 1 (DerivedDay.spots od) = take 1 (DerivedDay.spots od').
Proof.
  destruct (earlier_stops_unaffected (H := SeriesHost.host)
              startTimes noOverrides stayTimes modes
              startTimes noOverrides (<["d1-s1" := "30 min"]> stayTimes) modes
              (Some [day1]) nan nan 0%nat day1 1%nat eq_refl eq_refl)
    as (od & od' & Hod & Hod' & Htake & _).
  { intros j Hj. assert (j = 0%nat) as -> by lia.
    split; [reflexivity|]. split; [vm_compute; reflexivity|reflexivity]. }
  exists od, od'. split; [exact Hod|]. split; [exact Hod'|]. exact Htake.
Defined.

Lemma later_stops_follow_departure_witness :
  exists od od',
    (useItineraryCalculation (H := SeriesHost.host)
       startTimes departed stayTimes modes (Some [day1]) nan).1 !! 0%nat = Some od
    /\ (useItineraryCalculation (H := SeriesHost.host)
          badStartTimes departed stayTimes modes (Some [day1]) nan).1 !! 0%nat = Some od'
    /\ drop 1 (DerivedDay.spots od) = drop 1 (DerivedDay.spots od').
Proof.
  apply (later_stops_follow_departure (H := SeriesHost.host)
           startTimes departed stayTimes modes badStartTimes departed stayTimes modes
           (Some [day1]) nan nan 0%nat day1 0%nat "10:05").
  - reflexivity.
  - vm_compute. reflexivity.
  - discriminate.
  - intros j _. split; [reflexivity|]. split; reflexivity.
Defined.

Lemma start_time_change_shows_witness :
  exists od d,
    (useItineraryCalculation (H := SeriesHost.host)
       (handleDayStartTimeChange (Day.dayId day1) "08:15" startTimes)
       noOverrides stayTimes modes (Some [day1]) nan).1 !! 0%nat = Some od
    /\ DerivedDay.spots od !! 0%nat = Some d
    /\ Derived.time d = "08:15".
Proof.
  apply (start_time_change_shows (H := SeriesHost.host)
           startTimes noOverrides stayTimes modes (Some [day1]) nan 0%nat day1 stop0
           "08:15" eq_refl eq_refl).
  exists 8, 15. split; [lia|]. split; [lia|]. vm_compute. reflexivity.
Defined.

Lemma start_time_change_elsewhere_witness :
  (useItineraryCalculation (H := SeriesHost.host)
     (handleDayStartTimeChange "d2" "08:15" startTimes)
     noOverrides stayTimes modes (Some [day1]) nan).1 !! 0%nat
  = (useItineraryCalculation (H := SeriesHost.host)
       startTimes noOverrides stayTimes modes (Some [day1]) nan).1 !! 0%nat.
Proof.
  apply (start_time_change_elsewhere (H := SeriesHost.host)
           startTimes noOverrides stayTimes modes (Some [day1]) nan nan "d2" "08:15"
           0%nat day1 eq_refl).
  vm_compute. discriminate.
Defined.

Lemma stay_change_shows_witness :
  exists od d,
    (useItineraryCalculation (H := SeriesHost.host) startTimes noOverrides
       (handleStayChangeNew (spotIdOf day1 1) "30 min" stayTimes)
       modes (Some [day1]) nan).1 !! 0%nat = Some od
    /\ DerivedDay.spots od !! 1%nat = Some d
    /\ Derived.stay d = "30 min".
Proof.
  destruct (stay_change_shows (H := SeriesHost.host)
              startTimes noOverrides stayTimes modes (Some [day1]) nan 0%nat day1 1%nat
              stop1 "30 min" eq_refl eq_refl ltac:(discriminate))
    as (od & d & Hod & Hd & Hstay & _).
  exists od, d. split; [exact Hod|]. split; [exact Hd|]. exact Hstay.
Defined.

Lemma transport_toggle_flips_witness :
  exists od d,
    (useItineraryCalculation (H := SeriesHost.host) startTimes noOverrides stayTimes
       (handleTransportToggle (spotIdOf day1 0) modes) (Some [day1]) nan).1 !! 0%nat
    = Some od
    /\ DerivedDay.spots od !! 0%nat = Some d
    /\ Derived.nextStop d
       = Some (nextStopInfoOf stop0 stop1 (legDistance (H := SeriesHost.host) day1 0) "walk").
Proof.
  destruct (transport_toggle_flips (H := SeriesHost.host)
              startTimes noOverrides stayTimes modes (Some [day1]) nan 0%nat day1 0%nat
              stop0 stop1 eq_refl eq_refl eq_refl)
    as (od & d & Hod & Hd & _ & Hnext & _).
  { left. vm_compute. reflexivity. }
  exists od, d. split; [exact Hod|]. split; [exact Hd|]. exact Hnext.
Defined.

Lemma transport_toggle_twice_witness :
  (useItineraryCalculation (H := SeriesHost.host) startTimes noOverrides stayTimes
     (handleTransportToggle "d1-s0" (handleTransportToggle "d1-s0" modes))
     (Some [day1]) nan).1
  = (useItineraryCalculation (H := SeriesHost.host) startTimes noOverrides stayTimes
       modes (Some [day1]) nan).1.
Proof.
  apply (transport_toggle_twice (H := SeriesHost.host)).
  left. vm_compute. reflexivity.
Defined.

Lemma departure_toggle_marks_witness :
  exists od d,
    (useItineraryCalculation (H := SeriesHost.host) startTimes
       (handleDepartureToggle {| Date.getHours := ofZ 10; Date.getMinutes := ofZ 5 |}
          (spotIdOf day1 0) noOverrides)
       stayTimes modes (Some [day1]) nan).1 !! 0%nat = Some od
    /\ DerivedDay.spots od !! 0%nat = Some d
    /\ Derived.isDeparted d = true
    /\ Derived.actualDepTime d = Some (hhmm 10 5).
Proof.
  destruct (departure_toggle_marks (H := SeriesHost.host)
              startTimes noOverrides stayTimes modes (Some [day1]) nan 0%nat day1 0%nat
              stop0 {| Date.getHours := ofZ 10; Date.getMinutes := ofZ 5 |} 10 5
              eq_refl eq_refl eq_refl ltac:(lia) eq_refl ltac:(lia))
    as (od & d & Hod & Hd & _ & Hon & _).
  exists od, d. split; [exact Hod|]. split; [exact Hd|].
  destruct (Hon eq_refl) as (Hdep & Hact & _). split; [exact Hdep|exact Hact].
Defined.

Lemma departure_toggle_twice_witness :
  (useItineraryCalculation (H := SeriesHost.host) startTimes
     (handleDepartureToggle {| Date.getHours := ofZ 11; Date.getMinutes := ofZ 0 |} "d1-s0"
        (handleDepartureToggle {| Date.getHours := ofZ 10; Date.getMinutes := ofZ 5 |}
           "d1-s0" emptyDeparture))
     stayTimes modes (Some [day1]) nan).1
  = (useItineraryCalculation (H := SeriesHost.host) startTimes emptyDeparture stayTimes
       modes (Some [day1]) nan).1.
Proof.
  apply (departure_toggle_twice (H := SeriesHost.host)). vm_compute. reflexivity.
Defined.

Lemma ticket_count_update_witness :
  getTicketCounts (updateSpotTicketCount "d1-s0" Adult (ofZ (-1)) ∅) "d1-s0"
  = setCount Adult (ofZ (Z.max 0 ((if 2 =? 0 then 2 else 2) + -1)))
             (getTicketCounts ∅ "d1-s0").
Proof.
  apply (ticket_count_update "d1-s0" Adult ∅ 2 (-1)); [reflexivity|lia|lia].
Defined.

(** *** The ledger *)

Lemma ledger_whole : wholeDay Ledger.expenses Ledger.counts false Ledger.day.
Proof.
  repeat constructor; try (left; apply isCount_ofZ; lia); apply isCount_ofZ; lia.
Qed.

Lemma ledger_worth : dayWorth Ledger.expenses Ledger.counts Ledger.day = 3000.
Proof. vm_compute. reflexivity. Qed.

Lemma ledger_whole_spoiled : wholeDay Ledger.spoiled Ledger.counts true Ledger.day.
Proof.
  apply Forall_cons; split.
  { split; [exact (List.Forall_nil _)|].
    repeat split; apply isCount_ofZ; lia. }
  apply Forall_cons; split; [|by apply Forall_nil].
  split; [|exact I].
  change (default [] (Ledger.spoiled !! Derived.id Ledger.park))
    with [Ledger.expense 1 (ofZ 1200); Ledger.expense 2 nan].
  apply Forall_cons; split; [left; apply isCount_ofZ; lia|].
  apply Forall_cons; split; [by right|by apply Forall_nil].
Qed.

Lemma ledger_worth_spoiled : dayWorth Ledger.spoiled Ledger.counts Ledger.day = 2700.
Proof. vm_compute. reflexivity. Qed.

Lemma daily_total_exact_witness :
  dailyStats Ledger.spoiled Ledger.counts [Ledger.day] !! 0%nat
  = Some {| DayStat.day := Ledger.day;
            DayStat.totalTwd := ofZ (dayWorth Ledger.spoiled Ledger.counts Ledger.day) |}.
Proof.
  apply daily_total_exact; [reflexivity|exact ledger_whole_spoiled|].
  rewrite ledger_worth_spoiled. lia.
Defined.

Lemma detail_total_matches_witness :
  totalTWD Ledger.expenses Ledger.counts [Ledger.day] = ofZ 3000.
Proof.
  apply (detail_total_matches Ledger.expenses Ledger.counts [Ledger.day] 0%nat
           {| DayStat.day := Ledger.day; DayStat.totalTwd := ofZ 3000 |}).
  - vm_compute. reflexivity.
  - exact ledger_whole.
  - cbn [DayStat.day]. rewrite ledger_worth. lia.
Defined.

Lemma detail_total_NaN_witness :
  totalTWD Ledger.spoiled Ledger.counts [Ledger.day] = nan.
Proof.
  apply (detail_total_NaN Ledger.spoiled Ledger.counts [Ledger.day] Ledger.day
           Ledger.park [Ledger.expense 1 (ofZ 1200); Ledger.expense 2 nan]
           (Ledger.expense 2 nan)).
  - apply list_elem_of_here.
  - apply list_elem_of_further, list_elem_of_here.
  - vm_compute. reflexivity.
  - apply list_elem_of_further, list_elem_of_here.
  - reflexivity.
Defined.

Lemma grand_total_exact_witness :
  totalJpy (dailyStats Ledger.spoiled Ledger.counts [Ledger.day; Ledger.day])
  = ofZ (tripWorth Ledger.spoiled Ledger.counts [Ledger.day; Ledger.day]).
Proof.
  apply grand_total_exact.
  - repeat (apply Forall_cons; split; [exact ledger_whole_spoiled|]). by apply Forall_nil.
  - unfold tripWorth. cbn [foldr]. rewrite ledger_worth_spoiled. lia.
Defined.

Lemma toggleSort_alternates_witness :
  SortConfig.direction
    (toggleSort "amount" {| SortConfig.key := "date"; SortConfig.direction := "desc" |})
  = "desc".
Proof.
  apply (proj1 (proj2 (toggleSort_alternates "amount"
                         {| SortConfig.key := "date"; SortConfig.direction := "desc" |}))).
  discriminate.
Defined.

(** ** The order of the history *)

(** Differences of integers are exact. *)
Lemma sub_ofZ a b :
  0 <= a < 2 ^ 53 -> 0 <= b < 2 ^ 53 -> sub (ofZ a) (ofZ b) = ofZ (a - b).
Proof.
  intros Ha Hb.
  destruct (Z.eq_dec b 0) as [->|Hb0].
  { rewrite Z.sub_0_r, ofZ_0. destruct (Z.eq_dec a 0) as [->|Ha0]; [done|].
    by rewrite ofZ_canon by lia. }
  destruct (Z.eq_dec a 0) as [->|Ha0].
  { rewrite Z.sub_0_l, ofZ_neg_canon, ofZ_0, ofZ_canon by lia. done. }
  rewrite (ofZ_canon a), (ofZ_canon b) by lia.
  pose proof (canonE_nonpos a ltac:(lia)). pose proof (canonE_nonpos b ltac:(lia)).
  unfold sub, SFsub. cbn [cond_Zopp].
  assert (exists k, Z.min (canonE a) (canonE b) = - k
                    /\ 0 <= k /\ - k <= canonE a /\ - k <= canonE b)
    as (k & -> & Hk & Hka & Hkb)
    by (exists (- Z.min (canonE a) (canonE b)); lia).
  rewrite !shl_align_val by lia.
  rewrite !canonM_scaled, <- !Z.mul_assoc, <- !Z.pow_add_r by lia.
  replace (- canonE a + (canonE a - - k)) with k by lia.
  replace (- canonE b + (canonE b - - k)) with k by lia.
  rewrite <- Z.mul_sub_distr_r.
  apply normalize_signed; lia.
Qed.

Lemma gt_0_ofZ z : - 2 ^ 53 < z < 2 ^ 53 -> gt (ofZ z) (ofZ 0) = (0 <? z).
Proof.
  intros Hz. unfold gt, SFltb. destruct (Z.eq_dec z 0) as [->|Hz0]; [done|].
  rewrite (ofZ_signed z), ofZ_0 by lia. cbn [SFcompare].
  destruct (Z.ltb_spec z 0), (Z.ltb_spec 0 z); (done || lia).
Qed.

Section Sorting.
Context {A : Type}.
Variable comparefn : A -> A -> number.
Variable rank : A -> Z.

(** The comparator agrees with a ranking on two elements. *)
Local Abbreviation ranked x y := (gt (comparefn x y) (ofZ 0) = (rank y <? rank x)).

Lemma insertSorted_perm x l : insertSorted comparefn x l ≡ₚ x :: l.
Proof.
  induction l as [|y l IH]; [done|]. cbn [insertSorted].
  destruct (gt _ _); [|done]. rewrite IH. apply Permutation_swap.
Qed.

Lemma Array_sort_perm l : Array_sort comparefn l ≡ₚ l.
Proof.
  induction l as [|x l IH]; [done|]. cbn [Array_sort foldr].
  rewrite insertSorted_perm. by constructor.
Qed.

Lemma insertSorted_sorted x l :
  (forall y, y ∈ l -> ranked x y) ->
  StronglySorted (fun a b => rank a <= rank b) l ->
  StronglySorted (fun a b => rank a <= rank b) (insertSorted comparefn x l).
Proof.
  intros Hr Hl. induction Hl as [|y l Hl IH Hy]; cbn [insertSorted].
  { by repeat constructor. }
  rewrite (Hr y) by apply list_elem_of_here.
  destruct (Z.ltb_spec (rank y) (rank x)).
  - constructor.
    + apply IH. intros z Hz. apply Hr. by apply list_elem_of_further.
    + rewrite insertSorted_perm. constructor; [lia|done].
  - constructor; [by constructor|]. constructor; [done|].
    eapply Forall_impl; [exact Hy|]. intros z Hz. cbn in Hz. lia.
Qed.

Lemma Array_sort_sorted l :
  (forall x y, x ∈ l -> y ∈ l -> ranked x y) ->
  StronglySorted (fun a b => rank a <= rank b) (Array_sort comparefn l).
Proof.
  induction l as [|x l IH]; intros Hr; [constructor|].
  cbn [Array_sort foldr]. apply insertSorted_sorted.
  - intros y Hy. apply Hr; [apply list_elem_of_here|].
    apply list_elem_of_further. by rewrite <- (Array_sort_perm l).
  - apply IH. intros y z Hy Hz. apply Hr; by apply list_elem_of_further.
Qed.
End Sorting.

Lemma sorted_weaken {A : Type} (R R' : A -> A -> Prop) l :
  (forall a b, R a b -> R' a b) -> StronglySorted R l -> StronglySorted R' l.
Proof.
  intros HR. induction 1 as [|x l _ IH Hx]; constructor; [done|].
  eapply Forall_impl; [exact Hx|]. intros y. apply HR.
Qed.

Lemma compare_ranked sortConfig a b :
  isCount (sortValue sortConfig a) -> isCount (sortValue sortConfig b) ->
  gt (compareExpenses sortConfig a b) (ofZ 0)
  = if String.eqb (SortConfig.direction sortConfig) "asc"
    then intOf (sortValue sortConfig b) <? intOf (sortValue sortConfig a)
    else intOf (sortValue sortConfig a) <? intOf (sortValue sortConfig b).
Proof.
  unfold compareExpenses. cbv zeta.
  intros (x & Hx & -> & ->)%isCount_inv (y & Hy & -> & ->)%isCount_inv.
  destruct (String.eqb _ _); rewrite sub_ofZ, gt_0_ofZ by lia.
  - destruct (Z.ltb_spec 0 (x - y)), (Z.ltb_spec y x); (done || lia).
  - destruct (Z.ltb_spec 0 (y - x)), (Z.ltb_spec x y); (done || lia).
Qed.

(** X28.  The history the expense dialog shows for a stop is a
    rearrangement of the stop's expenses, none lost and none repeated;
    when the sort values (the timestamp, or the id of a record without
    one, for the key "date"; the amount otherwise) are whole numbers, the
    values do not decrease along the history for the direction "asc" and
    do not increase for any other direction, "desc" being the one the
    dialog opens with. *)
Theorem sortedExpenses_sorted sortConfig expenses id :
  sortedExpenses sortConfig expenses id ≡ₚ default [] (expenses !! id)
  /\ (Forall (fun e => isCount (sortValue sortConfig e)) (default [] (expenses !! id)) ->
      StronglySorted
        (fun a b =>
           if String.eqb (SortConfig.direction sortConfig) "asc"
           then intOf (sortValue sortConfig a) <= intOf (sortValue sortConfig b)
           else intOf (sortValue sortConfig b) <= intOf (sortValue sortConfig a))
        (sortedExpenses sortConfig expenses id)).
Proof.
  unfold sortedExpenses. split; [apply Array_sort_perm|]. intros Hw.
  rewrite Forall_forall in Hw.
  destruct (String.eqb (SortConfig.direction sortConfig) "asc") eqn:Hdir.
  - apply (Array_sort_sorted _ (fun e => intOf (sortValue sortConfig e))).
    intros x y Hx Hy. rewrite compare_ranked by (by apply Hw). by rewrite Hdir.
  - eapply sorted_weaken;
      [|apply (Array_sort_sorted _ (fun e => - intOf (sortValue sortConfig e)))].
    + intros a b Hab. cbn in Hab. lia.
    + intros x y Hx Hy. rewrite compare_ranked by (by apply Hw). rewrite Hdir.
      destruct (Z.ltb_spec (intOf (sortValue sortConfig x)) (intOf (sortValue sortConfig y))),
               (Z.ltb_spec (- intOf (sortValue sortConfig y)) (- intOf (sortValue sortConfig x)));
        (done || lia).
Qed.

Lemma sortedExpenses_sorted_witness :
  StronglySorted
    (fun a b =>
       intOf (sortValue {| SortConfig.key := "date"; SortConfig.direction := "desc" |} b)
       <= intOf (sortValue {| SortConfig.key := "date"; SortConfig.direction := "desc" |} a))
    (sortedExpenses {| SortConfig.key := "date"; SortConfig.direction := "desc" |}
       Ledger.expenses "d1-s1").
Proof.
  apply (proj2 (sortedExpenses_sorted
                  {| SortConfig.key := "date"; SortConfig.direction := "desc" |}
                  Ledger.expenses "d1-s1")).
  change (default [] (Ledger.expenses !! "d1-s1"))
    with [Ledger.expense 1 (ofZ 1200); Ledger.expense 2 (ofZ 300)].
  repeat (apply Forall_cons; split; [apply isCount_ofZ; lia|]). by apply Forall_nil.
Defined.

(** ** Saving and deleting expenses *)

Lemma eqb_ofZ_refl a : 0 <= a < 2 ^ 53 -> SFeqb (ofZ a) (ofZ a) = true.
Proof.
  intros Ha. unfold SFeqb. destruct (Z.eq_dec a 0) as [->|Ha0]; [done|].
  rewrite ofZ_canon by lia. cbn [SFcompare].
  by rewrite Z.compare_refl, Pos.compare_cont_refl.
Qed.

Lemma eqb_ofZ_true a b :
  0 <= a < 2 ^ 53 -> 0 <= b < 2 ^ 53 -> SFeqb (ofZ a) (ofZ b) = true -> a = b.
Proof.
  intros Ha Hb. unfold SFeqb.
  destruct (Z.eq_dec a 0) as [->|Ha0]; destruct (Z.eq_dec b 0) as [->|Hb0];
    rewrite ?ofZ_0, ?(ofZ_canon a), ?(ofZ_canon b) by lia; cbn [SFcompare];
    try done.
  destruct (Z.compare_spec (canonE a) (canonE b)) as [He|He|He]; try done.
  rewrite Pos.compare_cont_spec. cbn [Pos.switch_Eq].
  destruct (Pos.compare_spec (canonM a) (canonM b)) as [Hm|Hm|Hm]; try done.
  intros _. apply ofZ_inj; [lia..|].
  rewrite (ofZ_canon a), (ofZ_canon b) by lia. by rewrite He, Hm.
Qed.

Lemma strictNe_ofZ a b :
  0 <= a < 2 ^ 53 -> 0 <= b < 2 ^ 53 -> strictNe (ofZ a) (ofZ b) = negb (a =? b).
Proof.
  intros Ha Hb. unfold strictNe. destruct (Z.eqb_spec a b) as [->|Hne].
  - by rewrite eqb_ofZ_refl.
  - destruct (SFeqb (ofZ a) (ofZ b)) eqn:He; [|done].
    by apply eqb_ofZ_true in He.
Qed.

Section SavingFacts.
Context `{DateHost}.

(** The ids of the records of the receipts: the time of saving plus the
    index of the receipt plus 100. *)
Lemma receipt_ids ts l : forall idx : nat,
  0 <= ts -> ts + Z.of_nat idx + Z.of_nat (length l) + 100 < 2 ^ 53 ->
  Forall (fun r => exists i : Z,
            Z.of_nat idx <= i < Z.of_nat idx + Z.of_nat (length l)
            /\ Expense.id r = ofZ (ts + i + 100))
         (receiptRecords (ofZ ts) idx l).
Proof.
  induction l as [|p l IH]; intros idx Hts Hb; [by apply Forall_nil|].
  cbn [receiptRecords length] in *. apply Forall_app. split.
  - destruct (_ && _); [|by apply Forall_nil].
    apply Forall_cons. split; [|by apply Forall_nil].
    exists (Z.of_nat idx). split; [lia|].
    cbn [Expense.id]. by rewrite !add_ofZ by lia.
  - eapply Forall_impl; [apply (IH (S idx)); lia|].
    intros r (i & Hi & Hr). exists i. split; [lia|done].
Qed.






(** X30.  Saving a hand-entered expense at a whole time [ts], then
    deleting the id [ts], leaves the records the stop had before, when
    none of them had that id, followed by the records of the receipts
    saved with it: the record entered by hand is the one removed. *)
Theorem save_then_delete ts expenseForm pendingReceipts currentEditingSpot p p' :
  0 <= ts < 2 ^ 52 -> Z.of_nat (length pendingReceipts) < 2 ^ 32 ->
  ExpenseForm.amount expenseForm <> "" ->
  Forall (fun r => strictNe (Expense.id r) (ofZ ts) = true)
         (default [] (p !! Derived.id currentEditingSpot)) ->
  saveExpense (ofZ ts) expenseForm pendingReceipts currentEditingSpot p = Some p' ->
  deleteExpense (Derived.id currentEditingSpot) (ofZ ts) p'
  = Some (<[Derived.id currentEditingSpot :=
              default [] (p !! Derived.id currentEditingSpot)
              ++ receiptRecords (ofZ ts) 0 pendingReceipts]> p).
Proof.
  intros Hts Hlen Hamount Hold. unfold saveExpense, newRecs.
  assert (truthy (Some (ExpenseForm.amount expenseForm)) = true) as ->
    by (by destruct (ExpenseForm.amount expenseForm)).
  cbn [app]. intros [= <-]. unfold deleteExpense.
  rewrite lookup_insert_eq, insert_insert_eq. do 2 f_equal.
  rewrite List.filter_app. f_equal.
  - rewrite Forall_forall in Hold. induction (default [] _) as [|r l IH]; [done|].
    cbn [List.filter]. rewrite Hold by apply list_elem_of_here.
    f_equal. apply IH. intros r' Hr'. apply Hold. by apply list_elem_of_further.
  - cbn [List.filter Expense.id]. rewrite strictNe_ofZ, Z.eqb_refl by lia. cbn [negb].
    pose proof (receipt_ids ts pendingReceipts 0 ltac:(lia) ltac:(lia)) as Hids.
    induction Hids as [|r l (i & Hi & Hr) _ IH]; [done|].
    cbn [List.filter]. rewrite Hr, strictNe_ofZ by lia.
    destruct (Z.eqb_spec (ts + i + 100) ts); [lia|]. cbn [negb]. by f_equal.
Qed.

End SavingFacts.

(** *** On an example *)


Lemma save_then_delete_witness :
  deleteExpense "d1-s1" (ofZ 1700000000000)
    (<["d1-s1" := default [] (Ledger.expenses !! "d1-s1")
                  ++ newRecs (H := Ledger.noDates) (ofZ 1700000000000)
                       Ledger.lunchForm []]> Ledger.expenses)
  = Some (<["d1-s1" := default [] (Ledger.expenses !! "d1-s1") ++ []]> Ledger.expenses).
Proof.
  apply (save_then_delete (H := Ledger.noDates) 1700000000000 Ledger.lunchForm []
           Ledger.park Ledger.expenses); [lia|cbn; lia|discriminate| |reflexivity].
  change (default [] (Ledger.expenses !! Derived.id Ledger.park))
    with [Ledger.expense 1 (ofZ 1200); Ledger.expense 2 (ofZ 300)].
  repeat (apply Forall_cons; split; [vm_compute; reflexivity|]). by apply Forall_nil.
Defined.
